(** * diffuse-pilot: queue manager and parameter resolver

    A shallow embedding of [src/services/prompt_agent.py] (the parameter
    resolver [_apply_defaults], the research step and [generate_prompt]) and
    of [src/services/queue_manager.py] (admission, the priority queue, crash
    recovery and the worker loop), with the properties of the design
    document stated and settled against them. *)

From Stdlib Require Import ZArith String Ascii List Permutation Lia Bool.
From Stdlib Require Import Floats.SpecFloat.
From Stdlib Require Import Sorted.
From stdpp Require Import gmap strings list fin_maps.

Set Warnings "-register-all,-clear-no-such-hyp".
Local Open Scope string_scope.

(* ===================================================================== *)
(** ** Python values and the builtins the code relies on *)
(* ===================================================================== *)

Module Py.

(** JSON-like dynamic values: what a [dict[str, Any]] of the program holds.
    A str is the sequence of its UTF-8 bytes, on which substring search,
    stripping of ASCII characters and ordering agree with Python's on code
    points. A float is an IEEE-754 datum of the Standard Library's
    [spec_float]. *)
Inductive value : Type :=
| VNone
| VBool (b : bool)
| VInt (z : Z)
| VFloat (f : spec_float)
| VStr (s : string)
| VDict (d : gmap string value).

Abbreviation dict := (gmap string value).

(** [x is None] *)
Definition is_none (v : value) : bool :=
  match v with VNone => true | _ => false end.

(** [bool(x)] *)
Definition truthy (v : value) : bool :=
  match v with
  | VNone => false
  | VBool b => b
  | VInt z => negb (z =? 0)%Z
  | VFloat (S754_zero _) => false
  | VFloat _ => true
  | VStr s => negb (String.eqb s "")
  | VDict d => negb (bool_decide (d = ∅))
  end.

(** [bool(d)] for an argument annotated [dict | None] *)
Definition truthy_opt (d : option dict) : bool :=
  match d with
  | Some m => negb (bool_decide (m = ∅))
  | None => false
  end.

(** [d.get(k)] and [d.get(k, dflt)] *)
Definition get (d : dict) (k : string) : value := default VNone (d !! k).
Definition get_or (d : dict) (k : string) (dflt : value) : value :=
  default dflt (d !! k).

(** [type(x).__name__] *)
Definition type_name (v : value) : string :=
  match v with
  | VNone => "NoneType"
  | VBool _ => "bool"
  | VInt _ => "int"
  | VFloat _ => "float"
  | VStr _ => "str"
  | VDict _ => "dict"
  end.

(** The exact rational value of a float equals the integer [z]. *)
Definition float_eq_Z (f : spec_float) (z : Z) : bool :=
  match f with
  | S754_zero _ => (z =? 0)%Z
  | S754_finite s m e =>
      let mz := if s then Z.neg m else Z.pos m in
      if (0 <=? e)%Z then (mz * 2 ^ e =? z)%Z else (mz =? z * 2 ^ (- e))%Z
  | _ => false
  end.

(** [x == z] for an int literal [z] *)
Definition eq_int (v : value) (z : Z) : bool :=
  match v with
  | VInt n => (n =? z)%Z
  | VBool b => ((if b then 1 else 0) =? z)%Z
  | VFloat f => float_eq_Z f z
  | _ => false
  end.

(** [a in b] on str: [a] occurs in [b] as a substring *)
Fixpoint is_infix (a b : string) : bool :=
  String.prefix a b ||
  match b with
  | EmptyString => false
  | String _ b' => is_infix a b'
  end.

Definition in_chars (c : ascii) (chars : string) : bool :=
  existsb (Ascii.eqb c) (list_ascii_of_string chars).

(** [s.lstrip(chars)], [s.rstrip(chars)], [s.strip(chars)] *)
Fixpoint lstrip (chars s : string) : string :=
  match s with
  | EmptyString => EmptyString
  | String c s' => if in_chars c chars then lstrip chars s' else s
  end.

Fixpoint rstrip (chars s : string) : string :=
  match s with
  | EmptyString => EmptyString
  | String c s' =>
      match rstrip chars s' with
      | EmptyString => if in_chars c chars then EmptyString else String c EmptyString
      | r => String c r
      end
  end.

Definition strip (chars s : string) : string := rstrip chars (lstrip chars s).

End Py.
Import Py.

(* ===================================================================== *)
(** ** Errors ([src/services/error_handler.py]) *)
(* ===================================================================== *)

Inductive ErrorCode : Set :=
| INTERNAL_ERROR | VALIDATION_ERROR
| DISCORD_API_ERROR | DISCORD_PERMISSION_ERROR
| SD_API_ERROR | SD_API_TIMEOUT | SD_MODEL_NOT_FOUND | SD_LORA_NOT_FOUND
| LLM_API_ERROR | LLM_GENERATION_ERROR
| DATABASE_ERROR | RECORD_NOT_FOUND
| STORAGE_ERROR | FILE_TOO_LARGE.

(** An exception object: an [ApplicationError] or one of its subclasses
    ([cls] is the class name), or any other subclass of [Exception] with
    its class name and the text [str(e)]. *)
Inductive exn : Type :=
| ApplicationError (cls : string) (code : ErrorCode) (message : string)
| PyException (name : string) (text : string).

Definition LLMAPIError (message : string) : exn :=
  ApplicationError "LLMAPIError" LLM_API_ERROR message.
Definition DatabaseError (message : string) : exn :=
  ApplicationError "DatabaseError" DATABASE_ERROR message.
Definition StableDiffusionAPIError (message : string) : exn :=
  ApplicationError "StableDiffusionAPIError" SD_API_ERROR message.
Definition StableDiffusionTimeoutError (message : string) : exn :=
  ApplicationError "StableDiffusionTimeoutError" SD_API_TIMEOUT message.

(** [isinstance(e, LLMAPIError)]; the class has no subclass. *)
Definition is_LLMAPIError (e : exn) : bool :=
  match e with
  | ApplicationError cls _ _ => String.eqb cls "LLMAPIError"
  | PyException _ _ => false
  end.

(** [str(e)]: [ApplicationError.__init__] passes [message] to [Exception]. *)
Definition exn_str (e : exn) : string :=
  match e with
  | ApplicationError _ _ message => message
  | PyException _ text => text
  end.

(** Computations that return or raise. *)
Definition res (A : Type) : Type := exn + A.

Definition ret {A} (a : A) : res A := inr a.
Definition raise {A} (e : exn) : res A := inl e.
Definition bind {A B} (m : res A) (k : A → res B) : res B :=
  match m with
  | inl e => inl e
  | inr a => k a
  end.

Notation "'let*' x ':=' m 'in' k" := (bind m (fun x => k))
  (at level 10, x name, m at level 100, k at level 200).

(** [try: body  except Exception as e: handler(e)] *)
Definition try_except {A} (body : res A) (handler : exn → res A) : res A :=
  match body with
  | inl e => handler e
  | inr a => inr a
  end.

(** [for key in keys: body] over a state that the body updates. *)
Fixpoint for_each {S : Type} (keys : list string) (body : string → S → res S) (s : S) : res S :=
  match keys with
  | [] => ret s
  | key :: keys' => let* s' := body key s in for_each keys' body s'
  end.

(** [v.get(key)]: only a dict has the attribute. *)
Definition attr_get (v : value) (key : string) : res value :=
  match v with
  | VDict d => ret (get d key)
  | _ => raise (PyException "AttributeError"
                  ("'" ++ type_name v ++ "' object has no attribute 'get'"))
  end.

(** [d[key]] *)
Definition subscript (d : dict) (key : string) : res value :=
  match d !! key with
  | Some v => ret v
  | None => raise (PyException "KeyError" ("'" ++ key ++ "'"))
  end.

(** [len(v)] is defined on str and dict only; its value is never used by
    the code below, only whether it raises. *)
Definition len_defined (v : value) : res unit :=
  match v with
  | VStr _ | VDict _ => ret tt
  | _ => raise (PyException "TypeError"
                  ("object of type '" ++ type_name v ++ "' has no len()"))
  end.

(** [item in container] *)
Definition contains (container item : value) : res bool :=
  match container with
  | VStr b =>
      match item with
      | VStr a => ret (is_infix a b)
      | _ => raise (PyException "TypeError"
                      ("'in <string>' requires string as left operand, not " ++ type_name item))
      end
  | VDict d =>
      match item with
      | VStr a => ret (bool_decide (is_Some (d !! a)))
      | VDict _ => raise (PyException "TypeError" "unhashable type: 'dict'")
      | _ => ret false
      end
  | _ => raise (PyException "TypeError"
                  ("argument of type '" ++ type_name container ++ "' is not iterable"))
  end.

(* ===================================================================== *)
(** ** Static configuration ([src/config/settings.py]) and the metadata row
       ([src/models/generation.py]) *)
(* ===================================================================== *)

Record Settings : Type := {
  default_image_count : Z;
  default_width : Z;
  default_height : Z;
  default_steps : Z;
  default_cfg_scale : spec_float;
  default_sampler : option string;
  default_scheduler : option string;
  queue_error_retry_interval : spec_float
}.

(** The columns of [GenerationMetadata] with their declared types;
    [negative_prompt] and [scheduler] are the nullable ones. *)
Record GenerationMetadata : Type := {
  md_request_id : string;
  md_prompt : string;
  md_negative_prompt : option string;
  md_model_name : string;
  md_steps : Z;
  md_cfg_scale : spec_float;
  md_sampler : string;
  md_scheduler : option string;
  md_seed : Z;
  md_width : Z;
  md_height : Z
}.

Definition of_opt_str (o : option string) : value :=
  match o with
  | Some s => VStr s
  | None => VNone
  end.

(** [bool(previous_metadata)]: an ORM object is always true. *)
Definition is_present (previous_metadata : option GenerationMetadata) : bool :=
  match previous_metadata with
  | Some _ => true
  | None => false
  end.

(** [o or ""] for a nullable text column *)
Definition or_empty (o : option string) : string :=
  match o with
  | Some s => if truthy (VStr s) then s else ""
  | None => ""
  end.

(* ===================================================================== *)
(** ** The prompt agent ([src/services/prompt_agent.py]) *)
(* ===================================================================== *)

Module PromptAgent.

Definition _SD_PARAM_KEYS : list string :=
  ["steps"; "cfg_scale"; "sampler"; "scheduler"; "width"; "height"].

Definition WEB_RESEARCH_SKIP_KEYWORDS : list string :=
  ["リサーチなし"; "リサーチしない"; "調べないで"; "すぐに生成"].

Definition BASELINE_NEGATIVE_PROMPT : string :=
  "worst quality, low quality, blurry, bad anatomy, bad hands, text, error, " ++
  "missing fingers, extra digit, fewer digits, cropped, jpeg artifacts, " ++
  "signature, watermark, username".

(** The local [defaults] dict, kept in insertion order because the code
    iterates over [defaults.items()]. *)
Abbreviation odict := (list (string * value)).

(** [d[key] = v] on an insertion-ordered dict *)
Fixpoint odict_set (key : string) (v : value) (d : odict) : odict :=
  match d with
  | [] => [(key, v)]
  | (k, w) :: d' => if String.eqb k key then (k, v) :: d' else (k, w) :: odict_set key v d'
  end.

(** [d.update(other)] *)
Definition odict_update (d other : odict) : odict :=
  foldl (λ acc kv, odict_set kv.1 kv.2 acc) d other.

(** [getattr(previous_metadata, key, None)] for the keys of [_SD_PARAM_KEYS] *)
Definition getattr (pm : GenerationMetadata) (key : string) : value :=
  if String.eqb key "steps" then VInt (md_steps pm)
  else if String.eqb key "cfg_scale" then VFloat (md_cfg_scale pm)
  else if String.eqb key "sampler" then VStr (md_sampler pm)
  else if String.eqb key "scheduler" then of_opt_str (md_scheduler pm)
  else if String.eqb key "width" then VInt (md_width pm)
  else if String.eqb key "height" then VInt (md_height pm)
  else if String.eqb key "prompt" then VStr (md_prompt pm)
  else if String.eqb key "negative_prompt" then of_opt_str (md_negative_prompt pm)
  else VNone.

Section Resolver.

(** [format(v, "")] of a value that is not a str (an int, a float, a dict
    put under ["prompt"] or as the suffix): its text is not fixed here. *)
Variable py_str : value → string.

Definition fmt (v : value) : string :=
  match v with
  | VStr s => s
  | _ => py_str v
  end.

Variable settings : Settings.

(** Lines 229-236: the application's built-in defaults. *)
Definition base_defaults : odict :=
  [ ("steps", VInt (default_steps settings));
    ("cfg_scale", VFloat (default_cfg_scale settings));
    ("sampler", of_opt_str (default_sampler settings));
    ("scheduler", of_opt_str (default_scheduler settings));
    ("width", VInt (default_width settings));
    ("height", VInt (default_height settings)) ].

(** Lines 239-243: global settings overwrite the defaults. *)
Definition global_into_defaults (global_settings : option dict) (defaults : odict) : res odict :=
  match global_settings with
  | Some gs =>
      if truthy_opt global_settings then
        let sd_params := get_or gs "default_sd_params" (VDict ∅) in
        for_each ["steps"; "cfg_scale"; "sampler"; "scheduler"; "width"; "height"]
          (λ key defaults,
             let* v := attr_get sd_params key in
             ret (if is_none v then defaults else odict_set key v defaults))
          defaults
      else ret defaults
  | None => ret defaults
  end.

(** Lines 246-258: the previous metadata is put over the defaults. *)
Definition previous_into_defaults (previous_metadata : option GenerationMetadata)
    (defaults : odict) : odict :=
  match previous_metadata with
  | Some pm =>
      odict_update defaults
        [ ("prompt", VStr (md_prompt pm));
          ("negative_prompt", VStr (or_empty (md_negative_prompt pm)));
          ("steps", VInt (md_steps pm));
          ("cfg_scale", VFloat (md_cfg_scale pm));
          ("sampler", VStr (md_sampler pm));
          ("scheduler", of_opt_str (md_scheduler pm));
          ("width", VInt (md_width pm));
          ("height", VInt (md_height pm)) ]
  | None => defaults
  end.

(** Lines 261-263: fill [result] where it has no value. *)
Definition fill_defaults (defaults : odict) (result : dict) : dict :=
  foldl (λ result kv, if is_none (get result kv.1) then <[kv.1 := kv.2]> result else result)
        result defaults.

(** Lines 266-270: research recommendations, new requests only. *)
Definition research_into_result (research_result : option dict)
    (previous_metadata : option GenerationMetadata) (result : dict) : res dict :=
  match research_result, previous_metadata with
  | Some rr, None =>
      if truthy_opt research_result then
        let recommended := get_or rr "recommended_settings" (VDict ∅) in
        for_each _SD_PARAM_KEYS
          (λ key result,
             if is_none (get result key) then
               let* v := attr_get recommended key in
               ret (if is_none v then result else <[key := v]> result)
             else ret result)
          result
      else ret result
  | _, _ => ret result
  end.

(** Lines 273-277: global settings once more, over the result. *)
Definition global_into_result (global_settings : option dict) (result : dict) : res dict :=
  match global_settings with
  | Some gs =>
      if truthy_opt global_settings then
        let sd_params := get_or gs "default_sd_params" (VDict ∅) in
        for_each _SD_PARAM_KEYS
          (λ key result,
             let* v := attr_get sd_params key in
             ret (if is_none v then result else <[key := v]> result))
          result
      else ret result
  | None => ret result
  end.

(** Lines 280-289: in follow-up mode the previous metadata is written over
    the result, each field under its own guard. *)
Definition previous_into_result (previous_metadata : option GenerationMetadata)
    (result : dict) : dict :=
  match previous_metadata with
  | Some pm =>
      let result :=
        foldl (λ result key,
                 let prev_value := getattr pm key in
                 if is_none prev_value then result else <[key := prev_value]> result)
              result _SD_PARAM_KEYS in
      let result :=
        if truthy (VStr (md_prompt pm)) then <["prompt" := VStr (md_prompt pm)]> result
        else result in
      if truthy (of_opt_str (md_negative_prompt pm))
      then <["negative_prompt" := of_opt_str (md_negative_prompt pm)]> result
      else result
  | None => result
  end.

(** [global_settings and global_settings.get("default_prompt_suffix")] *)
Definition configured_suffix (global_settings : option dict) : option value :=
  match global_settings with
  | Some gs =>
      if truthy_opt global_settings && truthy (get gs "default_prompt_suffix")
      then Some (get gs "default_prompt_suffix") else None
  | None => None
  end.

(** Lines 292-295: the default prompt suffix. *)
Definition apply_suffix (global_settings : option dict) (result : dict) : res dict :=
  match configured_suffix global_settings with
  | Some suffix =>
      let prompt := get_or result "prompt" (VStr "") in
      let* found := contains prompt suffix in
      ret (if found then result
           else <["prompt" := VStr (strip ", " (fmt prompt ++ ", " ++ fmt suffix))]> result)
  | None => ret result
  end.

(** Lines 298-303: the baseline negative prompt. *)
Definition apply_negative_default (result : dict) : dict :=
  if truthy (get result "negative_prompt") then result
  else <["negative_prompt" := VStr BASELINE_NEGATIVE_PROMPT]> result.

(** [global_settings and global_settings.get("seed") is not None] *)
Definition explicit_seed (global_settings : option dict) : option value :=
  match global_settings with
  | Some gs =>
      if truthy_opt global_settings && negb (is_none (get gs "seed"))
      then Some (get gs "seed") else None
  | None => None
  end.

(** Lines 307-310: the seed; [rnd] is the draw of
    [random.randint(0, 2**32 - 1)]. *)
Definition apply_seed (rnd : Z) (global_settings : option dict) (result : dict) : dict :=
  match explicit_seed global_settings with
  | Some seed => <["seed" := seed]> result
  | None =>
      match result !! "seed" with
      | None => <["seed" := VInt rnd]> result
      | Some v => if eq_int v (-1) then <["seed" := VInt rnd]> result else result
      end
  end.

(** Everything of [_apply_defaults] before the seed. *)
Definition resolve_fields (result : dict) (previous_metadata : option GenerationMetadata)
    (global_settings research_result : option dict) : res dict :=
  let defaults := base_defaults in
  let* defaults := global_into_defaults global_settings defaults in
  let defaults := previous_into_defaults previous_metadata defaults in
  let result := fill_defaults defaults result in
  let* result := research_into_result research_result previous_metadata result in
  let* result := global_into_result global_settings result in
  let result := previous_into_result previous_metadata result in
  let* result := apply_suffix global_settings result in
  ret (apply_negative_default result).

(** [PromptAgent._apply_defaults] *)
Definition _apply_defaults (rnd : Z) (result : dict)
    (previous_metadata : option GenerationMetadata)
    (global_settings research_result : option dict) : res dict :=
  let* result := resolve_fields result previous_metadata global_settings research_result in
  ret (apply_seed rnd global_settings result).

End Resolver.

Section Agent.

Variable py_str : value → string.
Variable settings : Settings.
(** The draw of [random.randint] in this call. *)
Variable rnd : Z.
(** [WebResearchService.research_best_practices]: a dict, [None], or an
    exception. *)
Variable research_best_practices : string → res (option dict).
(** Lines 89-116 of [generate_prompt]: the prompts are built from the four
    inputs, the LLM is called, its JSON answer is parsed and validated and
    dumped to a dict; any of these can raise. *)
Variable llm_suggest :
  string → option GenerationMetadata → option dict → option dict → res dict.

(** [PromptAgent._perform_web_research]; the lazily built service object
    is not part of any result and is left out. *)
Definition _perform_web_research (user_instruction : string) : res (option dict) :=
  try_except
    (if existsb (λ keyword, is_infix keyword user_instruction) WEB_RESEARCH_SKIP_KEYWORDS
     then ret None
     else
       let* research_result := research_best_practices user_instruction in
       ret research_result)
    (λ e, ret None).

(** [PromptAgent.generate_prompt] *)
Definition generate_prompt (user_instruction : string)
    (previous_metadata : option GenerationMetadata)
    (global_settings : option dict) (web_research : bool) : res dict :=
  try_except
    (let* research_result :=
       if web_research && negb (is_present previous_metadata)
       then _perform_web_research user_instruction
       else ret None in
     let* result :=
       llm_suggest user_instruction previous_metadata global_settings research_result in
     let* result :=
       _apply_defaults py_str settings rnd result previous_metadata global_settings
         research_result in
     let result :=
       match research_result with
       | Some rr => if truthy_opt research_result
                    then <["web_research" := VDict rr]> result else result
       | None => result
       end in
     (* the closing log line evaluates len(result['prompt']) *)
     let* prompt := subscript result "prompt" in
     let* _ := len_defined prompt in
     ret result)
    (λ e, if is_LLMAPIError e then raise e
          else raise (LLMAPIError "Failed to generate prompt")).

End Agent.

End PromptAgent.

(* ===================================================================== *)
(** ** Python's [heapq] on a list, as [asyncio.PriorityQueue] uses it

    The queue of the manager is an [asyncio.PriorityQueue] of the Python
    standard library, whose [_put] and [_get] are [heapq.heappush] and
    [heapq.heappop] on a list; the functions below follow [heapq.py]. *)
(* ===================================================================== *)

Module Heapq.

Section Heap.

Context {A : Type}.
(** [a < b] on the items *)
Variable lt : A → A → bool.

(** The loop of [_siftdown]: parents move down until [newitem] fits.
    [pos] decreases in every round, so [pos] rounds are enough. *)
Fixpoint _siftdown_loop (rounds : nat) (heap : list A) (newitem : A)
    (startpos pos : nat) : list A * nat :=
  match rounds with
  | O => (heap, pos)
  | S rounds' =>
      if (startpos <? pos)%nat then
        let parentpos := Nat.div2 (pos - 1) in
        match heap !! parentpos with
        | Some parent =>
            if lt newitem parent
            then _siftdown_loop rounds' (<[pos := parent]> heap) newitem startpos parentpos
            else (heap, pos)
        | None => (heap, pos)
        end
      else (heap, pos)
  end.

Definition _siftdown (heap : list A) (startpos pos : nat) : list A :=
  match heap !! pos with
  | Some newitem =>
      let '(heap, pos) := _siftdown_loop pos heap newitem startpos pos in
      <[pos := newitem]> heap
  | None => heap
  end.

(** The loop of [_siftup]: the smaller child moves up until a leaf is
    reached. [childpos] grows in every round and stays below [endpos]. *)
Fixpoint _siftup_loop (rounds : nat) (heap : list A) (endpos pos childpos : nat)
    : list A * nat :=
  match rounds with
  | O => (heap, pos)
  | S rounds' =>
      if (childpos <? endpos)%nat then
        let rightpos := childpos + 1 in
        let childpos :=
          match heap !! childpos, heap !! rightpos with
          | Some c, Some r =>
              if (rightpos <? endpos)%nat && negb (lt c r) then rightpos else childpos
          | _, _ => childpos
          end in
        match heap !! childpos with
        | Some child =>
            _siftup_loop rounds' (<[pos := child]> heap) endpos childpos (2 * childpos + 1)
        | None => (heap, pos)
        end
      else (heap, pos)
  end.

Definition _siftup (heap : list A) (pos : nat) : list A :=
  let endpos := length heap in
  let startpos := pos in
  match heap !! pos with
  | Some newitem =>
      let '(heap, pos) := _siftup_loop endpos heap endpos pos (2 * pos + 1) in
      _siftdown (<[pos := newitem]> heap) startpos pos
  | None => heap
  end.

Definition heappush (heap : list A) (item : A) : list A :=
  _siftdown (heap ++ [item]) 0 (length heap).

(** [heappop]: [None] stands for the [IndexError] on an empty heap. *)
Definition heappop (heap : list A) : option (A * list A) :=
  match last heap with
  | None => None
  | Some lastelt =>
      let heap := removelast heap in
      match heap with
      | returnitem :: _ => Some (returnitem, _siftup (<[0 := lastelt]> heap) 0)
      | [] => Some (lastelt, heap)
      end
  end.

End Heap.

End Heapq.

(* ===================================================================== *)
(** ** The request row ([src/models/generation.py]) *)
(* ===================================================================== *)

Inductive RequestStatus : Set := PENDING | PROCESSING | COMPLETED | FAILED.

(** The columns of [GenerationRequest]; the two timestamps are left out. *)
Record GenerationRequest : Type := {
  id : string;
  guild_id : string;
  user_id : string;
  thread_id : string;
  original_instruction : string;
  web_research : bool;
  status : RequestStatus;
  error_message : option string
}.

Definition with_status (st : RequestStatus) (r : GenerationRequest) : GenerationRequest :=
  {| id := id r; guild_id := guild_id r; user_id := user_id r; thread_id := thread_id r;
     original_instruction := original_instruction r; web_research := web_research r;
     status := st; error_message := error_message r |}.

Definition with_error_message (msg : string) (r : GenerationRequest) : GenerationRequest :=
  {| id := id r; guild_id := guild_id r; user_id := user_id r; thread_id := thread_id r;
     original_instruction := original_instruction r; web_research := web_research r;
     status := status r; error_message := Some msg |}.

(* ===================================================================== *)
(** ** The database session ([src/database/connection.py]) and the
       constraints of the metadata table ([src/models/generation.py]) *)
(* ===================================================================== *)

(** The transaction of an [AsyncSession]. A flush that raises rolls the
    transaction back and leaves it inactive: until [rollback()] is called,
    which no orchestrator does, [commit()] raises. *)
Inductive Session : Set := Active | Inactive.

(** What a step inside an orchestrator's [try] block answers: a value, or
    the exception that ends the block together with the state in which the
    session is left. A step is reached only while the session is active. *)
Definition db_res (A : Type) : Type := (exn * Session) + A.

Definition db_ret {A} (a : A) : db_res A := inr a.
Definition db_bind {A B} (m : db_res A) (k : A → db_res B) : db_res B :=
  match m with
  | inl failure => inl failure
  | inr a => k a
  end.

Notation "'let+' x ':=' m 'in' k" := (db_bind m (fun x => k))
  (at level 10, x name, m at level 100, k at level 200).

(** A step that does not go through the session: when it raises, the
    session is as it was. *)
Definition outside {A} (m : res A) : db_res A :=
  match m with
  | inl e => inl (e, Active)
  | inr a => inr a
  end.

(** The columns of [generation_metadata] that the constructor call sets
    and that are declared [nullable=False]; none of them has a default. *)
Definition NOT_NULL_COLUMNS : list string :=
  ["request_id"; "prompt"; "model_name"; "steps"; "cfg_scale"; "sampler"; "seed";
   "width"; "height"].

(* ===================================================================== *)
(** ** The stored settings ([src/models/settings.py]) and their way into
       a request ([src/services/queue_manager.py], lines 229-321 and
       382-450) *)
(* ===================================================================== *)

Module SettingsFlow.

(** The nullable columns of [GlobalSettings]. A JSON column holds a
    [value]; a JSON array is not among the values modelled. *)
Record GlobalSettings : Type := {
  default_model : option string;
  default_lora_list : value;
  default_prompt_suffix : option string;
  default_sd_params : option dict;
  seed : option Z;
  batch_size : option Z;
  batch_count : option Z;
  hires_upscaler : option string;
  hires_steps : option Z;
  denoising_strength : option spec_float;
  upscale_by : option spec_float;
  refiner_checkpoint : option string;
  refiner_switch_at : option spec_float
}.

Definition of_opt_int (o : option Z) : value :=
  match o with
  | Some z => VInt z
  | None => VNone
  end.

Definition of_opt_float (o : option spec_float) : value :=
  match o with
  | Some f => VFloat f
  | None => VNone
  end.

Definition of_opt_dict (o : option dict) : value :=
  match o with
  | Some d => VDict d
  | None => VNone
  end.

Definition _EXTRA_SETTINGS_PARAMS : list string :=
  ["batch_size"; "batch_count"; "hires_upscaler"; "hires_steps";
   "denoising_strength"; "upscale_by"; "refiner_checkpoint"; "refiner_switch_at"].

(** [getattr(settings, param_name, None)] *)
Definition getattr (settings : GlobalSettings) (param_name : string) : value :=
  if String.eqb param_name "batch_size" then of_opt_int (batch_size settings)
  else if String.eqb param_name "batch_count" then of_opt_int (batch_count settings)
  else if String.eqb param_name "hires_upscaler" then of_opt_str (hires_upscaler settings)
  else if String.eqb param_name "hires_steps" then of_opt_int (hires_steps settings)
  else if String.eqb param_name "denoising_strength"
       then of_opt_float (denoising_strength settings)
  else if String.eqb param_name "upscale_by" then of_opt_float (upscale_by settings)
  else if String.eqb param_name "refiner_checkpoint"
       then of_opt_str (refiner_checkpoint settings)
  else if String.eqb param_name "refiner_switch_at"
       then of_opt_float (refiner_switch_at settings)
  else if String.eqb param_name "default_model" then of_opt_str (default_model settings)
  else if String.eqb param_name "default_lora_list" then default_lora_list settings
  else if String.eqb param_name "default_prompt_suffix"
       then of_opt_str (default_prompt_suffix settings)
  else if String.eqb param_name "default_sd_params"
       then of_opt_dict (default_sd_params settings)
  else if String.eqb param_name "seed" then of_opt_int (seed settings)
  else VNone.

(** [QueueManager._extract_global_settings] *)
Definition _extract_global_settings (settings : GlobalSettings) : dict :=
  let global_settings : dict :=
    <["seed" := of_opt_int (seed settings)]>
    (<["default_sd_params" := of_opt_dict (default_sd_params settings)]>
    (<["default_prompt_suffix" := of_opt_str (default_prompt_suffix settings)]>
    (<["default_lora_list" := default_lora_list settings]>
    (<["default_model" := of_opt_str (default_model settings)]> ∅)))) in
  foldl (λ global_settings param_name,
           <[param_name := getattr settings param_name]> global_settings)
        global_settings _EXTRA_SETTINGS_PARAMS.

(** [QueueManager._apply_global_settings_to_dict]; the target dict is
    updated in place, the updated dict is the result here. *)
Definition _apply_global_settings_to_dict (global_settings : option dict)
    (target_dict : dict) : dict :=
  match global_settings with
  | Some gs =>
      if negb (truthy_opt global_settings) then target_dict
      else
        foldl (λ target_dict param_name,
                 let value := get gs param_name in
                 if negb (is_none value) then <[param_name := value]> target_dict
                 else target_dict)
              target_dict _EXTRA_SETTINGS_PARAMS
  | None => target_dict
  end.

(** [QueueManager._apply_global_settings_to_sd_params] *)
Definition _apply_global_settings_to_sd_params (global_settings : option dict)
    (sd_params_kwargs : dict) : dict :=
  match global_settings with
  | Some gs =>
      if negb (truthy_opt global_settings) then sd_params_kwargs
      else
        let kw := sd_params_kwargs in
        let kw :=
          if truthy (get gs "hires_upscaler")
          then <["hr_upscaler" := get gs "hires_upscaler"]> kw else kw in
        let kw :=
          if negb (is_none (get gs "hires_steps"))
          then <["hr_second_pass_steps" := get gs "hires_steps"]> kw else kw in
        let kw :=
          if negb (is_none (get gs "denoising_strength"))
          then <["denoising_strength" := get gs "denoising_strength"]> kw else kw in
        let kw :=
          if negb (is_none (get gs "upscale_by"))
          then <["enable_hr" := VBool true]> (<["hr_scale" := get gs "upscale_by"]> kw)
          else kw in
        let kw :=
          if truthy (get gs "refiner_checkpoint")
          then <["refiner_checkpoint" := get gs "refiner_checkpoint"]> kw else kw in
        if negb (is_none (get gs "refiner_switch_at"))
        then <["refiner_switch_at" := get gs "refiner_switch_at"]> kw else kw
  | None => sd_params_kwargs
  end.

(** The keys of the dict that [_extract_global_settings] builds. *)
Definition settings_keys : list string :=
  ["default_model"; "default_lora_list"; "default_prompt_suffix"; "default_sd_params";
   "seed"] ++ _EXTRA_SETTINGS_PARAMS.

(** Lines 240-246: the user's row if there is one, else the guild's. *)
Definition select_global_settings (user_settings server_settings : option GlobalSettings)
    : option dict :=
  match user_settings with
  | Some settings => Some (_extract_global_settings settings)
  | None =>
      match server_settings with
      | Some settings => Some (_extract_global_settings settings)
      | None => None
      end
  end.

(** [global_settings and global_settings.get(key)], as a condition *)
Definition has (global_settings : option dict) (key : string) : bool :=
  match global_settings with
  | Some gs => truthy_opt global_settings && truthy (get gs key)
  | None => false
  end.

(** [global_settings[key]] where a settings dict is at hand *)
Definition item (global_settings : option dict) (key : string) : value :=
  match global_settings with
  | Some gs => get gs key
  | None => VNone
  end.

(** Lines 258-262 *)
Definition model_name_of (global_settings : option dict) (prompt_result : dict) : value :=
  if has global_settings "default_model" then item global_settings "default_model"
  else
    match prompt_result !! "model_name" with
    | Some v => v
    | None => VStr "default"
    end.

(** Lines 265-267 *)
Definition lora_list_of (global_settings : option dict) (prompt_result : dict) : value :=
  if has global_settings "default_lora_list" then item global_settings "default_lora_list"
  else get prompt_result "lora_list".

(** Lines 270-287: the keyword arguments of [GenerationMetadata(...)], in
    the order in which they are evaluated. *)
Definition metadata_kwargs (request : GenerationRequest) (global_settings : option dict)
    (prompt_result : dict) : res dict :=
  let model_name := model_name_of global_settings prompt_result in
  let lora_list := lora_list_of global_settings prompt_result in
  let raw_params := _apply_global_settings_to_dict global_settings prompt_result in
  let* prompt := subscript prompt_result "prompt" in
  let negative_prompt := get_or prompt_result "negative_prompt" (VStr "") in
  let* steps := subscript prompt_result "steps" in
  let* cfg_scale := subscript prompt_result "cfg_scale" in
  let* sampler := subscript prompt_result "sampler" in
  let scheduler := get prompt_result "scheduler" in
  let* seed := subscript prompt_result "seed" in
  let* width := subscript prompt_result "width" in
  let* height := subscript prompt_result "height" in
  ret (<["raw_params" := VDict raw_params]>
      (<["height" := height]>
      (<["width" := width]>
      (<["seed" := seed]>
      (<["scheduler" := scheduler]>
      (<["sampler" := sampler]>
      (<["cfg_scale" := cfg_scale]>
      (<["steps" := steps]>
      (<["lora_list" := lora_list]>
      (<["model_name" := model_name]>
      (<["negative_prompt" := negative_prompt]>
      (<["prompt" := prompt]>
      (<["request_id" := VStr (id request)]> ∅))))))))))))).

(** Lines 301-303 *)
Definition batch_size_of (settings : Settings) (global_settings : option dict) : value :=
  match global_settings with
  | Some gs =>
      if truthy_opt global_settings && negb (is_none (get gs "batch_size"))
      then get gs "batch_size" else VInt (default_image_count settings)
  | None => VInt (default_image_count settings)
  end.

(** Lines 306-319: the keyword arguments of [SDGenerationParams(...)].
    [metadata] holds the attributes of the metadata row as they are read
    after [commit()] and [refresh()]: what the database gives back, which
    need not be the objects the row was built with. *)
Definition sd_params_kwargs (settings : Settings) (global_settings : option dict)
    (metadata : dict) : dict :=
  let batch_size := batch_size_of settings global_settings in
  _apply_global_settings_to_sd_params global_settings
    (<["batch_size" := batch_size]>
    (<["height" := get metadata "height"]>
    (<["width" := get metadata "width"]>
    (<["seed" := get metadata "seed"]>
    (<["sampler" := get metadata "sampler"]>
    (<["cfg_scale" := get metadata "cfg_scale"]>
    (<["steps" := get metadata "steps"]>
    (<["negative_prompt" := get metadata "negative_prompt"]>
    (<["prompt" := get metadata "prompt"]> ∅))))))))).

End SettingsFlow.

(* ===================================================================== *)
(** ** The request to the image server ([src/services/sd_client.py]) *)
(* ===================================================================== *)

Module SDClient.

(** 7.0 as binary64 datum *)
Definition float_7 : spec_float := S754_finite false 7881299347898368 (-50).

(** [SDGenerationParams]: the attributes that [to_dict] reads. *)
Record SDGenerationParams : Type := {
  prompt : value;
  negative_prompt : value;
  steps : value;
  cfg_scale : value;
  sampler : value;
  scheduler : value;
  seed : value;
  width : value;
  height : value;
  batch_size : value;
  extra_params : dict
}.

(** The parameters that [__init__] names; every other keyword goes to
    [**kwargs]. *)
Definition named_parameters : list string :=
  ["prompt"; "negative_prompt"; "model_name"; "lora_list"; "steps"; "cfg_scale";
   "sampler"; "scheduler"; "seed"; "width"; "height"; "batch_size"].

(** The constructor, called with a dict of keyword arguments. *)
Definition __init__ (kwargs : dict) : res SDGenerationParams :=
  match kwargs !! "prompt" with
  | None =>
      raise (PyException "TypeError"
               "SDGenerationParams.__init__() missing 1 required positional argument: 'prompt'")
  | Some prompt =>
      ret {| prompt := prompt;
             negative_prompt := get_or kwargs "negative_prompt" (VStr "");
             steps := get_or kwargs "steps" (VInt 20);
             cfg_scale := get_or kwargs "cfg_scale" (VFloat float_7);
             sampler := get_or kwargs "sampler" VNone;
             scheduler := get_or kwargs "scheduler" VNone;
             seed := get_or kwargs "seed" (VInt (-1));
             width := get_or kwargs "width" (VInt 512);
             height := get_or kwargs "height" (VInt 512);
             batch_size := get_or kwargs "batch_size" (VInt 1);
             extra_params := foldr delete kwargs named_parameters |}
  end.

(** [SDGenerationParams.to_dict] *)
Definition to_dict (self : SDGenerationParams) : dict :=
  let params : dict :=
    <["batch_size" := batch_size self]>
    (<["height" := height self]>
    (<["width" := width self]>
    (<["seed" := seed self]>
    (<["cfg_scale" := cfg_scale self]>
    (<["steps" := steps self]>
    (<["negative_prompt" := negative_prompt self]>
    (<["prompt" := prompt self]> ∅))))))) in
  let params :=
    if truthy (sampler self) then <["sampler_name" := sampler self]> params else params in
  let params :=
    if truthy (scheduler self) then <["scheduler" := scheduler self]> params else params in
  (* params.update(self.extra_params) *)
  extra_params self ∪ params.

End SDClient.

(* ===================================================================== *)
(** ** The queue manager ([src/services/queue_manager.py]) *)
(* ===================================================================== *)

Module QueueManager.

(** [@dataclass(order=True) class QueuedTask] *)
Record QueuedTask : Type := {
  priority : Z;
  request_id : string;
  use_gemini : bool;
  use_xai : bool
}.

(** [False < True] *)
Definition bool_lt (a b : bool) : bool := negb a && b.

(** The generated [__lt__]: the field tuples
    [(priority, request_id, use_gemini, use_xai)] are compared, the first
    pair of unequal fields decides. *)
Definition task_lt (a b : QueuedTask) : bool :=
  if negb (priority a =? priority b)%Z then (priority a <? priority b)%Z
  else if negb (String.eqb (request_id a) (request_id b))
       then String.ltb (request_id a) (request_id b)
  else if negb (Bool.eqb (use_gemini a) (use_gemini b))
       then bool_lt (use_gemini a) (use_gemini b)
  else if negb (Bool.eqb (use_xai a) (use_xai b))
       then bool_lt (use_xai a) (use_xai b)
  else false.

(** [asyncio.PriorityQueue()], unbounded: the heap and the counter of
    unfinished tasks. *)
Record PriorityQueue : Type := {
  _queue : list QueuedTask;
  _unfinished_tasks : Z
}.

Definition empty_queue : PriorityQueue := {| _queue := []; _unfinished_tasks := 0 |}.

(** [await queue.put(item)]; never waits, the queue has no bound. *)
Definition put (q : PriorityQueue) (item : QueuedTask) : PriorityQueue :=
  {| _queue := Heapq.heappush task_lt (_queue q) item;
     _unfinished_tasks := _unfinished_tasks q + 1 |}.

(** [await queue.get()]: [None] when the queue is empty and the caller
    stays suspended. *)
Definition get (q : PriorityQueue) : option (QueuedTask * PriorityQueue) :=
  match Heapq.heappop task_lt (_queue q) with
  | Some (item, heap) =>
      Some (item, {| _queue := heap; _unfinished_tasks := _unfinished_tasks q |})
  | None => None
  end.

(** [queue.task_done()] *)
Definition task_done (q : PriorityQueue) : res PriorityQueue :=
  if (_unfinished_tasks q <=? 0)%Z
  then raise (PyException "ValueError" "task_done() called too many times")
  else ret {| _queue := _queue q; _unfinished_tasks := _unfinished_tasks q - 1 |}.

(** Which orchestrator a task selects. *)
Inductive provider_mode : Set := DefaultSD | Gemini | XAI.

(** What the worker does that can be observed from outside, oldest first. *)
Inductive event : Type :=
| Dispatched (mode : provider_mode) (request_id : string)
| TaskDone
| LoggedException (text : string)
| Slept (seconds : spec_float).

(** The manager together with the persisted request table. *)
Record World : Type := {
  is_running : bool;
  worker_task : option bool;  (* [Some true]: a live worker; [Some false]: a cancelled one *)
  queue : PriorityQueue;
  db : list GenerationRequest;
  log : list event
}.

(** [QueueManager()] over a given table *)
Definition init (rows : list GenerationRequest) : World :=
  {| is_running := false; worker_task := None; queue := empty_queue; db := rows; log := [] |}.

Definition set_queue (q : PriorityQueue) (w : World) : World :=
  {| is_running := is_running w; worker_task := worker_task w; queue := q;
     db := db w; log := log w |}.

Definition set_db (rows : list GenerationRequest) (w : World) : World :=
  {| is_running := is_running w; worker_task := worker_task w; queue := queue w;
     db := rows; log := log w |}.

Definition add_log (evs : list event) (w : World) : World :=
  {| is_running := is_running w; worker_task := worker_task w; queue := queue w;
     db := db w; log := log w ++ evs |}.

(** [_get_request]: the row with this primary key, if any. *)
Definition _get_request (rows : list GenerationRequest) (request_id : string)
    : option GenerationRequest :=
  List.find (λ r, String.eqb (id r) request_id) rows.

(** A mutation of the fetched row followed by [session.commit()]. *)
Fixpoint commit_row (request_id : string) (f : GenerationRequest → GenerationRequest)
    (rows : list GenerationRequest) : list GenerationRequest :=
  match rows with
  | [] => []
  | r :: rows' =>
      if String.eqb (id r) request_id then f r :: rows'
      else r :: commit_row request_id f rows'
  end.

(** [status IN (PENDING, PROCESSING)] *)
Definition unfinished (r : GenerationRequest) : bool :=
  match status r with
  | PENDING | PROCESSING => true
  | COMPLETED | FAILED => false
  end.

(** The task that recovery builds for a row:
    [QueuedTask(priority=0, request_id=request.id, use_gemini=False)]. *)
Definition restored_task (request : GenerationRequest) : QueuedTask :=
  {| priority := 0; request_id := id request; use_gemini := false; use_xai := false |}.

(** [QueueManager._restore_pending_requests] *)
Definition _restore_pending_requests (w : World) : World :=
  let pending_requests := List.filter unfinished (db w) in
  let q := foldl (λ q request, put q (restored_task request)) (queue w) pending_requests in
  let rows := map (λ r, if unfinished r then with_status PENDING r else r) (db w) in
  set_db rows (set_queue q w).

(** [QueueManager.start] *)
Definition start (w : World) : World :=
  if is_running w then w
  else
    let w := {| is_running := true; worker_task := worker_task w; queue := queue w;
                db := db w; log := log w |} in
    let w := _restore_pending_requests w in
    {| is_running := is_running w; worker_task := Some true; queue := queue w;
       db := db w; log := log w |}.

(** [QueueManager.stop] *)
Definition stop (w : World) : World :=
  if negb (is_running w) then w
  else
    {| is_running := false;
       worker_task := match worker_task w with Some _ => Some false | None => None end;
       queue := queue w; db := db w; log := log w |}.

(** [enqueue_generation], [enqueue_gemini_generation], [enqueue_xai_generation] *)
Definition enqueue_generation (request_id : string) (priority : Z) (w : World) : World :=
  set_queue (put (queue w)
               {| priority := - priority; request_id := request_id;
                  use_gemini := false; use_xai := false |}) w.

Definition enqueue_gemini_generation (request_id : string) (priority : Z) (w : World) : World :=
  set_queue (put (queue w)
               {| priority := - priority; request_id := request_id;
                  use_gemini := true; use_xai := false |}) w.

Definition enqueue_xai_generation (request_id : string) (priority : Z) (w : World) : World :=
  set_queue (put (queue w)
               {| priority := - priority; request_id := request_id;
                  use_gemini := false; use_xai := true |}) w.

(** The collaborators of one run of the worker: what the outside world
    answers while one task is processed. An image is its PNG bytes. *)
Record Env : Type := {
  py_str : value → string;
  rnd : Z;
  research_best_practices : string → res (option dict);
  llm_suggest : string → option GenerationMetadata → option dict → option dict → res dict;
  (** lines 229-246: the user's settings row, else the guild's, as a dict *)
  load_global_settings : GenerationRequest → db_res (option dict);
  (** lines 288-290, [session.add(metadata)], [commit()] and
      [refresh(metadata)], for column values that the NOT NULL constraints
      admit: the attributes of the row as the database gives them back *)
  store_metadata : dict → db_res dict;
  (** the exception of the flush when a NOT NULL column is given [None] *)
  integrity_error : dict → exn;
  (** [sd_client.txt2img(sd_params)], by the request data that
      [params.to_dict()] gives *)
  sd_txt2img : dict → res (list string);
  (** the Gemini and xAI clients, called with the raw instruction *)
  gemini_generate_images : string → res (list string);
  xai_generate_images : string → res (list string);
  (** the metadata row (direct providers) and the image files and rows *)
  save_images : GenerationRequest → list string → db_res unit;
  (** what [commit()] raises on a session that the exception given left
      inactive *)
  pending_rollback_error : exn → exn
}.

Section Orchestrator.

Variable settings : Settings.
Variable env : Env.

(** Lines 288-290. A [None] in a NOT NULL column makes the INSERT fail in
    the flush of [commit()]. *)
Definition add_commit_refresh (kwargs : dict) : db_res dict :=
  if existsb (λ column, is_none (Py.get kwargs column)) NOT_NULL_COLUMNS
  then inl (integrity_error env kwargs, Inactive)
  else store_metadata env kwargs.

(** Lines 256-323 of [_process_image_generation] up to the request that
    [txt2img] builds first, [request_data = params.to_dict()]: the metadata
    row is built, stored and read back, and the parameters of the request
    are taken from the row. *)
Definition txt2img_request_data (request : GenerationRequest)
    (global_settings : option dict) (prompt_result : dict) : db_res dict :=
  let+ kwargs :=
    outside (SettingsFlow.metadata_kwargs request global_settings prompt_result) in
  let+ metadata := add_commit_refresh kwargs in
  (* the log line formats [len(metadata.prompt)] *)
  let+ _ := outside (len_defined (Py.get metadata "prompt")) in
  let+ sd_params :=
    outside (SDClient.__init__
               (SettingsFlow.sd_params_kwargs settings global_settings metadata)) in
  db_ret (SDClient.to_dict sd_params).

(** The three pipelines between the PROCESSING commit and the COMPLETED
    commit. *)
Definition image_pipeline (request : GenerationRequest) : db_res unit :=
  let+ global_settings := load_global_settings env request in
  let+ prompt_result :=
    outside (PromptAgent.generate_prompt (py_str env) settings (rnd env)
               (research_best_practices env) (llm_suggest env)
               (original_instruction request) None global_settings
               (web_research request)) in
  let+ request_data := txt2img_request_data request global_settings prompt_result in
  let+ images := outside (sd_txt2img env request_data) in
  save_images env request images.

Definition gemini_pipeline (request : GenerationRequest) : db_res unit :=
  let+ images := outside (gemini_generate_images env (original_instruction request)) in
  match images with
  | [] => outside (raise (ApplicationError "ApplicationError" LLM_GENERATION_ERROR
                            "Gemini APIから画像が生成されませんでした"))
  | _ :: _ => save_images env request images
  end.

Definition xai_pipeline (request : GenerationRequest) : db_res unit :=
  let+ images := outside (xai_generate_images env (original_instruction request)) in
  match images with
  | [] => outside (raise (ApplicationError "ApplicationError" LLM_GENERATION_ERROR
                            "xAI APIから画像が生成されませんでした"))
  | _ :: _ => save_images env request images
  end.

(** The text stored on failure: [e.message] in the [ApplicationError]
    handler, [str(e)] in the catch-all one. *)
Definition failure_text (e : exn) : string :=
  match e with
  | ApplicationError _ _ message => message
  | PyException _ text => text
  end.

(** The shape the three [_process_*] methods share: fetch the row, commit
    PROCESSING, run the pipeline, commit COMPLETED; in the handlers, mark
    the row FAILED with the message, commit and raise again. The handlers
    commit on the session of the [try] block without a [rollback()]: when
    the exception left it inactive, their [commit()] raises in its turn
    and the table is as after the last commit that went through. *)
Definition process_with (pipeline : GenerationRequest → db_res unit)
    (rows : list GenerationRequest) (request_id : string)
    : list GenerationRequest * res unit :=
  match _get_request rows request_id with
  | None => (rows, raise (DatabaseError ("Request not found: " ++ request_id)))
  | Some request =>
      let rows := commit_row request_id (with_status PROCESSING) rows in
      match pipeline request with
      | inr _ => (commit_row request_id (with_status COMPLETED) rows, ret tt)
      | inl (e, Active) =>
          (commit_row request_id
             (λ r, with_error_message (failure_text e) (with_status FAILED r)) rows,
           raise e)
      | inl (e, Inactive) => (rows, raise (pending_rollback_error env e))
      end
  end.

Definition _process_image_generation := process_with image_pipeline.
Definition _process_gemini_generation := process_with gemini_pipeline.
Definition _process_xai_generation := process_with xai_pipeline.

Definition mode_of (task : QueuedTask) : provider_mode :=
  if use_gemini task then Gemini
  else if use_xai task then XAI
  else DefaultSD.

(** What one round of the worker loop leaves behind. *)
Inductive loop_status : Set :=
| Continue   (* the loop goes on to the next round *)
| Waiting    (* suspended in [queue.get()] on an empty queue *)
| Ended.     (* [is_running] is false *)

(** One round of [while self.is_running:] in [_worker_loop]. *)
Definition worker_iteration (w : World) : World * loop_status :=
  if is_running w then
    match get (queue w) with
    | None => (w, Waiting)
    | Some (task, q) =>
        let w := set_queue q w in
        let w := add_log [Dispatched (mode_of task) (request_id task)] w in
        let '(rows, outcome) :=
          if use_gemini task then _process_gemini_generation (db w) (request_id task)
          else if use_xai task then _process_xai_generation (db w) (request_id task)
          else _process_image_generation (db w) (request_id task) in
        let w := set_db rows w in
        let attempt :=
          let* _ := outcome in
          let* q := task_done (queue w) in
          ret (add_log [TaskDone] (set_queue q w)) in
        match attempt with
        | inr w => (w, Continue)
        | inl e =>
            (add_log [LoggedException ("Error in worker loop: " ++ exn_str e);
                      Slept (queue_error_retry_interval settings)] w,
             Continue)
        end
    end
  else (w, Ended).

End Orchestrator.

(** The worker over several rounds; [envs] holds the collaborators' answers
    round by round. It stops early when the loop waits or has ended. *)
Fixpoint _worker_loop (settings : Settings) (envs : list Env) (w : World) : World * loop_status :=
  match envs with
  | [] => (w, Continue)
  | env :: envs' =>
      match worker_iteration settings env w with
      | (w', Continue) => _worker_loop settings envs' w'
      | stopped => stopped
      end
  end.

(** The ids the worker handed to an orchestrator, in order. *)
Definition processed (w : World) : list string :=
  omap (λ ev, match ev with Dispatched _ rid => Some rid | _ => None end) (log w).

End QueueManager.

(* ===================================================================== *)
(** ** Notions used to state the properties *)
(* ===================================================================== *)

Module Notions.
Import PromptAgent.

(** Writing [src key] over [r] for every key of [keys] where it is not
    [None]: what both override loops of [_apply_defaults] compute. *)
Definition overlay (src : string → value) (keys : list string) (r : dict) : dict :=
  foldl (λ r key, if is_none (src key) then r else <[key := src key]> r) r keys.

(** An entry that is a str, or missing. *)
Definition text_or_absent (o : option value) : Prop :=
  match o with
  | None | Some (VStr _) => True
  | Some _ => False
  end.

(** An entry that is a str, [None], or missing. *)
Definition text_or_none (o : option value) : Prop :=
  match o with
  | None | Some (VStr _) | Some VNone => True
  | Some _ => False
  end.

(** The settings bag has the shape [_extract_global_settings] gives it:
    [default_sd_params] is a dict when present, the suffix a str when set. *)
Definition settings_typed (global_settings : option dict) : Prop :=
  match global_settings with
  | Some gs =>
      match gs !! "default_sd_params" with
      | None | Some (VDict _) => True
      | Some _ => False
      end ∧
      match configured_suffix global_settings with
      | None | Some (VStr _) => True
      | Some _ => False
      end
  | None => True
  end.

(** The entry under ["prompt"] can be searched for the suffix: on a
    follow-up the previous prompt stands in for a missing or [None] entry. *)
Definition prompt_typed (result : dict) (previous_metadata : option GenerationMetadata)
    : Prop :=
  match previous_metadata with
  | Some pm => md_prompt pm ≠ "" ∨ text_or_none (result !! "prompt")
  | None => text_or_absent (result !! "prompt")
  end.

(** The research result has a dict under [recommended_settings], or no
    such entry. *)
Definition research_typed (research_result : option dict) : Prop :=
  match research_result with
  | Some rr =>
      match rr !! "recommended_settings" with
      | None | Some (VDict _) => True
      | Some _ => False
      end
  | None => True
  end.

(** The pipeline a provider mode stands for. *)
Definition pipeline_of (settings : Settings) (env : QueueManager.Env)
    (mode : QueueManager.provider_mode) : GenerationRequest → db_res unit :=
  match mode with
  | QueueManager.DefaultSD => QueueManager.image_pipeline settings env
  | QueueManager.Gemini => QueueManager.gemini_pipeline env
  | QueueManager.XAI => QueueManager.xai_pipeline env
  end.

(** The three enqueue variants under one name. *)
Definition enqueue_as (mode : QueueManager.provider_mode) (request_id : string)
    (priority : Z) (w : QueueManager.World) : QueueManager.World :=
  match mode with
  | QueueManager.DefaultSD => QueueManager.enqueue_generation request_id priority w
  | QueueManager.Gemini => QueueManager.enqueue_gemini_generation request_id priority w
  | QueueManager.XAI => QueueManager.enqueue_xai_generation request_id priority w
  end.

(** The task an enqueue variant builds. *)
Definition task_of (mode : QueueManager.provider_mode) (request_id : string)
    (priority : Z) : QueueManager.QueuedTask :=
  {| QueueManager.priority := - priority;
     QueueManager.request_id := request_id;
     QueueManager.use_gemini :=
       match mode with QueueManager.Gemini => true | _ => false end;
     QueueManager.use_xai :=
       match mode with QueueManager.XAI => true | _ => false end |}.

(** The invariant of the design document on one row, and the half of it
    that the code keeps without further assumption. *)
Definition message_iff_failed (r : GenerationRequest) : Prop :=
  is_Some (error_message r) ↔ status r = FAILED.

Definition failed_has_message (r : GenerationRequest) : Prop :=
  status r = FAILED → is_Some (error_message r).

(** The request the worker would take up next has no error message yet:
    it did not fail before. *)
Definition next_never_failed (w : QueueManager.World) : Prop :=
  ∀ task q r,
    QueueManager.get (QueueManager.queue w) = Some (task, q) →
    QueueManager._get_request (QueueManager.db w) (QueueManager.request_id task) = Some r →
    error_message r = None.

(** One public operation, or one round of the worker with whatever the
    collaborators answer. An admission point creates a row (PENDING, no
    message, a fresh id) before it enqueues. [guard] restricts the states
    in which the worker may take a round. *)
Inductive step (settings : Settings) (guard : QueueManager.World → Prop)
    : QueueManager.World → QueueManager.World → Prop :=
| step_create w r :
    status r = PENDING → error_message r = None →
    QueueManager._get_request (QueueManager.db w) (id r) = None →
    step settings guard w (QueueManager.set_db (QueueManager.db w ++ [r]) w)
| step_enqueue w mode request_id priority :
    step settings guard w (enqueue_as mode request_id priority w)
| step_start w :
    step settings guard w (QueueManager.start w)
| step_stop w :
    step settings guard w (QueueManager.stop w)
| step_worker w env :
    guard w →
    step settings guard w (QueueManager.worker_iteration settings env w).1.

Definition reachable (settings : Settings) (guard : QueueManager.World → Prop)
    : QueueManager.World → QueueManager.World → Prop :=
  rtc (step settings guard).

Definition always (w : QueueManager.World) : Prop := True.

End Notions.

(* ===================================================================== *)
(** ** Concrete inputs used in the examples *)
(* ===================================================================== *)

Module Samples.

(** 7.0 and 5.0 as binary64 data *)
Definition f7 : spec_float := S754_finite false 7881299347898368 (-50).
Definition f5 : spec_float := S754_finite false 5629499534213120 (-50).

(** The defaults of [src/config/settings.py]. *)
Definition app_settings : Settings :=
  {| default_image_count := 4; default_width := 512; default_height := 512;
     default_steps := 20; default_cfg_scale := f7;
     default_sampler := None; default_scheduler := None;
     queue_error_retry_interval := f5 |}.

(** No value other than a str is ever formatted in the examples. *)
Definition no_text (v : value) : string := "".

(** An LLM answer as [PromptGenerationResponse.model_dump()] gives it. *)
Definition llm_answer : dict :=
  <["prompt" := VStr "a red fox in snow"]>
  (<["negative_prompt" := VStr "lowres"]>
  (<["steps" := VInt 20]>
  (<["cfg_scale" := VFloat f5]>
  (<["sampler" := VStr "DDIM"]>
  (<["scheduler" := VStr "Exponential"]>
  (<["width" := VInt 768]>
  (<["height" := VInt 768]> ∅))))))).

(** A fully populated previous metadata row. *)
Definition previous : GenerationMetadata :=
  {| md_request_id := "req-0"; md_prompt := "a cat"; md_negative_prompt := Some "blurry";
     md_model_name := "default"; md_steps := 30; md_cfg_scale := f7;
     md_sampler := "Euler a"; md_scheduler := Some "Karras"; md_seed := 42;
     md_width := 512; md_height := 512 |}.

(** The same row with the nullable columns empty. *)
Definition previous_sparse : GenerationMetadata :=
  {| md_request_id := "req-0"; md_prompt := "a cat"; md_negative_prompt := None;
     md_model_name := "default"; md_steps := 30; md_cfg_scale := f7;
     md_sampler := "Euler a"; md_scheduler := None; md_seed := 42;
     md_width := 512; md_height := 512 |}.

Definition settings_with_suffix : dict :=
  <["default_prompt_suffix" := VStr "masterpiece"]> ∅.

Definition settings_steps_45 : dict :=
  <["default_sd_params" := VDict (<["steps" := VInt 45]> ∅)]> ∅.

Definition settings_seed_7 : dict := <["seed" := VInt 7]> ∅.

(** A research collaborator whose search times out, and an LLM that
    gives the sample answer. *)
Definition research_times_out (theme : string) : res (option dict) :=
  raise (PyException "TimeoutException" "search timed out").

Definition llm_fixed (instruction : string) (previous_metadata : option GenerationMetadata)
    (global_settings research_result : option dict) : res dict :=
  ret llm_answer.

(** A request row as an admission point creates it. *)
Definition request_1 : GenerationRequest :=
  {| id := "req-1"; guild_id := "guild"; user_id := "user"; thread_id := "thread-1";
     original_instruction := "a red fox in snow"; web_research := false;
     status := PENDING; error_message := None |}.

Definition request_2 : GenerationRequest :=
  {| id := "req-2"; guild_id := "guild"; user_id := "user"; thread_id := "thread-2";
     original_instruction := "a lighthouse at dusk"; web_research := false;
     status := PENDING; error_message := None |}.

Definition request_3 : GenerationRequest :=
  {| id := "req-3"; guild_id := "guild"; user_id := "user"; thread_id := "thread-3";
     original_instruction := "a paper boat"; web_research := false;
     status := COMPLETED; error_message := None |}.

(** A database that gives a row back as it was stored, the exception of
    an INSERT that a NOT NULL constraint refuses, and the exception of a
    [commit()] on a session left inactive, which quotes the first one. *)
Definition stored_as_given (kwargs : dict) : db_res dict := db_ret kwargs.

Definition insert_refused (kwargs : dict) : exn :=
  PyException "IntegrityError" "NOT NULL constraint failed".

Definition commit_refused (e : exn) : exn :=
  PyException "PendingRollbackError"
    ("This Session's transaction has been rolled back due to a previous exception "
     ++ "during flush. Original exception was: " ++ exn_str e).

(** Collaborators that all answer. *)
Definition env_ok : QueueManager.Env :=
  {| QueueManager.py_str := no_text;
     QueueManager.rnd := 0;
     QueueManager.research_best_practices := λ _, ret None;
     QueueManager.llm_suggest := llm_fixed;
     QueueManager.load_global_settings := λ _, db_ret None;
     QueueManager.store_metadata := stored_as_given;
     QueueManager.integrity_error := insert_refused;
     QueueManager.sd_txt2img := λ _, ret ["png-1"];
     QueueManager.gemini_generate_images := λ _, ret ["png-1"];
     QueueManager.xai_generate_images := λ _, ret ["png-1"];
     QueueManager.save_images := λ _ _, db_ret tt;
     QueueManager.pending_rollback_error := commit_refused |}.

(** The same, but every image provider times out. *)
Definition env_timeout : QueueManager.Env :=
  {| QueueManager.py_str := no_text;
     QueueManager.rnd := 0;
     QueueManager.research_best_practices := λ _, ret None;
     QueueManager.llm_suggest := llm_fixed;
     QueueManager.load_global_settings := λ _, db_ret None;
     QueueManager.store_metadata := stored_as_given;
     QueueManager.integrity_error := insert_refused;
     QueueManager.sd_txt2img :=
       λ _, raise (StableDiffusionTimeoutError "Stable Diffusion API timeout");
     QueueManager.gemini_generate_images :=
       λ _, raise (PyException "TimeoutError" "Gemini request timed out");
     QueueManager.xai_generate_images :=
       λ _, raise (PyException "TimeoutError" "xAI request timed out");
     QueueManager.save_images := λ _ _, db_ret tt;
     QueueManager.pending_rollback_error := commit_refused |}.

(** A request that asks for web research, and collaborators whose
    research service is down while everything else answers. *)
Definition request_4 : GenerationRequest :=
  {| id := "req-4"; guild_id := "guild"; user_id := "user"; thread_id := "thread-4";
     original_instruction := "a red fox in snow"; web_research := true;
     status := PENDING; error_message := None |}.

Definition env_research_down : QueueManager.Env :=
  {| QueueManager.py_str := no_text;
     QueueManager.rnd := 0;
     QueueManager.research_best_practices := research_times_out;
     QueueManager.llm_suggest := llm_fixed;
     QueueManager.load_global_settings := λ _, db_ret None;
     QueueManager.store_metadata := stored_as_given;
     QueueManager.integrity_error := insert_refused;
     QueueManager.sd_txt2img := λ _, ret ["png-1"];
     QueueManager.gemini_generate_images := λ _, ret ["png-1"];
     QueueManager.xai_generate_images := λ _, ret ["png-1"];
     QueueManager.save_images := λ _ _, db_ret tt;
     QueueManager.pending_rollback_error := commit_refused |}.

(** An LLM answer without a sampler, as the response schema allows it,
    and collaborators that all answer, with that LLM. *)
Definition llm_answer_without_sampler : dict := <["sampler" := VNone]> llm_answer.

Definition env_without_sampler : QueueManager.Env :=
  {| QueueManager.py_str := no_text;
     QueueManager.rnd := 0;
     QueueManager.research_best_practices := λ _, ret None;
     QueueManager.llm_suggest := λ _ _ _ _, ret llm_answer_without_sampler;
     QueueManager.load_global_settings := λ _, db_ret None;
     QueueManager.store_metadata := stored_as_given;
     QueueManager.integrity_error := insert_refused;
     QueueManager.sd_txt2img := λ _, ret ["png-1"];
     QueueManager.gemini_generate_images := λ _, ret ["png-1"];
     QueueManager.xai_generate_images := λ _, ret ["png-1"];
     QueueManager.save_images := λ _ _, db_ret tt;
     QueueManager.pending_rollback_error := commit_refused |}.

End Samples.

(* ===================================================================== *)
(** ** The retry loop of the web search ([src/services/web_research.py]) *)
(* ===================================================================== *)

Module WebResearch.

Definition MAX_RETRIES : nat := 3.

(** 2.0 as binary64 datum *)
Definition INITIAL_BACKOFF : spec_float := S754_finite false 4503599627370496 (-51).

Definition WebResearchError (message : string) : exn :=
  ApplicationError "WebResearchError" INTERNAL_ERROR message.

(** One search hit: title, snippet and link. *)
Record hit : Type := { title : value; snippet : value; link : value }.

(** What one pass through the body of the loop meets. *)
Inductive pass : Type :=
| TooManyRequests                 (* the response has status 429 *)
| HTTPError (text : string)       (* an [httpx.HTTPError] is raised; [text] is [str(e)] *)
| OtherException (e : exn)        (* any other exception is raised *)
| Answered (results : list hit).  (* status 200 and a decoded body *)

(** What the loop does that can be observed, oldest first. *)
Inductive action : Type :=
| Request (attempt : nat)
| Sleep (seconds : spec_float).

(** [float(n)] for an int, and [self.INITIAL_BACKOFF * (2**attempt)] *)
Definition float_of_int (n : Z) : spec_float := binary_normalize 53 1024 n 0 false.

Definition backoff_time (attempt : nat) : spec_float :=
  SFmul 53 1024 INITIAL_BACKOFF (float_of_int (2 ^ Z.of_nat attempt)).

(** [for attempt in range(self.MAX_RETRIES): ...] from pass number
    [attempt] on, with [remaining] passes left; [after_loop] is the
    statement that follows the loop. *)
Fixpoint retry_loop (passes : nat → pass) (after_loop : res (list hit))
    (remaining attempt : nat) : list action * res (list hit) :=
  match remaining with
  | O => ([], after_loop)
  | S remaining' =>
      let go_on :=
        let '(actions, outcome) := retry_loop passes after_loop remaining' (S attempt) in
        (Request attempt :: Sleep (backoff_time attempt) :: actions, outcome) in
      match passes attempt with
      | TooManyRequests =>
          if (attempt <? MAX_RETRIES - 1)%nat then go_on
          else ([Request attempt],
                raise (WebResearchError "Google Search API rate limit exceeded"))
      | HTTPError text =>
          if (attempt <? MAX_RETRIES - 1)%nat then go_on
          else ([Request attempt],
                raise (WebResearchError ("Google Search API error: " ++ text)))
      | OtherException e => ([Request attempt], raise e)
      | Answered results => ([Request attempt], ret results)
      end
  end.

(** A pass after which the loop tries again, if passes are left. *)
Definition retryable (p : pass) : bool :=
  match p with
  | TooManyRequests | HTTPError _ => true
  | OtherException _ | Answered _ => false
  end.

(** What the loop answers when [p] is its last pass. *)
Definition last_word (p : pass) : res (list hit) :=
  match p with
  | TooManyRequests => raise (WebResearchError "Google Search API rate limit exceeded")
  | HTTPError text => raise (WebResearchError ("Google Search API error: " ++ text))
  | OtherException e => raise e
  | Answered results => ret results
  end.

(** [WebResearchService._search_google] from the loop on (the rate limiter
    before it only delays the first request). *)
Definition _search_google (passes : nat → pass) : list action * res (list hit) :=
  retry_loop passes (raise (WebResearchError "Google Search API failed after retries"))
    MAX_RETRIES 0.

End WebResearch.

(* ===================================================================== *)
(** ** Invariants of the queue *)
(* ===================================================================== *)

Module Invariants.

(** The heap invariant of [heapq]: no item is below its parent. *)
Definition heap_ok {A : Type} (lt : A → A → bool) (heap : list A) : Prop :=
  ∀ i child parent,
    0 < i → heap !! i = Some child → heap !! Nat.div2 (i - 1) = Some parent →
    lt child parent = false.

(** A heap but for the item at [pos]: every item that has neither [pos]
    as its parent nor is at [pos] is not below its parent, and the children
    of [pos] are not below the parent of [pos]. *)
Definition heap_ok_except {A : Type} (lt : A → A → bool) (heap : list A) (pos : nat) : Prop :=
  (∀ i child parent,
     0 < i → i ≠ pos → Nat.div2 (i - 1) ≠ pos →
     heap !! i = Some child → heap !! Nat.div2 (i - 1) = Some parent →
     lt child parent = false)
  ∧ (∀ i child grandparent,
       0 < pos → 0 < i → Nat.div2 (i - 1) = pos →
       heap !! i = Some child → heap !! Nat.div2 (pos - 1) = Some grandparent →
       lt child grandparent = false).

(** The children of [pos] are not below [newitem]. *)
Definition children_above {A : Type} (lt : A → A → bool) (heap : list A) (pos : nat)
    (newitem : A) : Prop :=
  ∀ i child,
    0 < i → Nat.div2 (i - 1) = pos → heap !! i = Some child → lt child newitem = false.

(** The queue of the manager is a heap, and counts at least the tasks it
    holds as unfinished. *)
Definition queue_ok (w : QueueManager.World) : Prop :=
  heap_ok QueueManager.task_lt (QueueManager._queue (QueueManager.queue w))
  ∧ (Z.of_nat (length (QueueManager._queue (QueueManager.queue w)))
     ≤ QueueManager._unfinished_tasks (QueueManager.queue w))%Z.

(** A dict that holds every SD parameter, the four numeric ones with a
    value other than [None]. *)
Definition filled (r : dict) : Prop :=
  (∀ key, key ∈ PromptAgent._SD_PARAM_KEYS → is_Some (r !! key))
  ∧ (∀ key, key ∈ ["steps"; "cfg_scale"; "width"; "height"] →
            is_none (get r key) = false).

(** A [defaults] dict that holds every SD parameter, the four numeric ones
    with a value other than [None], and no key besides the SD parameters
    and the two prompts. *)
Definition defaults_ok (d : PromptAgent.odict) : Prop :=
  (∀ key, key ∈ PromptAgent._SD_PARAM_KEYS → ∃ w, (key, w) ∈ d)
  ∧ (∀ key w, key ∈ ["steps"; "cfg_scale"; "width"; "height"] →
              (key, w) ∈ d → is_none w = false)
  ∧ (∀ key w, (key, w) ∈ d →
              key ∈ PromptAgent._SD_PARAM_KEYS ∨ key = "prompt" ∨ key = "negative_prompt").

(** Two dicts that agree outside the keys of [K]. *)
Definition agree_off (K : list string) (r r' : dict) : Prop :=
  ∀ k, k ∉ K → r !! k = r' !! k.

(** The entry under [key] of the dict that a computation returns. *)
Definition entry (key : string) (m : res dict) : res (option value) :=
  let* out := m in ret (out !! key).

End Invariants.

(* ===================================================================== *)
(** ** More concrete inputs *)
(* ===================================================================== *)

Module MoreSamples.

(** A settings row as [PUT /settings] with only a seed creates it. *)
Definition row_seed_only : SettingsFlow.GlobalSettings :=
  {| SettingsFlow.default_model := None;
     SettingsFlow.default_lora_list := VNone;
     SettingsFlow.default_prompt_suffix := None;
     SettingsFlow.default_sd_params := None;
     SettingsFlow.seed := Some 7%Z;
     SettingsFlow.batch_size := None;
     SettingsFlow.batch_count := None;
     SettingsFlow.hires_upscaler := None;
     SettingsFlow.hires_steps := None;
     SettingsFlow.denoising_strength := None;
     SettingsFlow.upscale_by := None;
     SettingsFlow.refiner_checkpoint := None;
     SettingsFlow.refiner_switch_at := None |}.

(** A running manager over an empty table with two tasks enqueued: the
    second has the higher priority. *)
Definition two_tasks : QueueManager.World :=
  QueueManager.enqueue_generation "req-2" 5
    (QueueManager.enqueue_generation "req-1" 1
       (QueueManager.start (QueueManager.init []))).

(** Collaborators whose direct providers answer without an image. *)
Definition env_no_image : QueueManager.Env :=
  {| QueueManager.py_str := Samples.no_text;
     QueueManager.rnd := 0;
     QueueManager.research_best_practices := λ _, ret None;
     QueueManager.llm_suggest := Samples.llm_fixed;
     QueueManager.load_global_settings := λ _, db_ret None;
     QueueManager.store_metadata := Samples.stored_as_given;
     QueueManager.integrity_error := Samples.insert_refused;
     QueueManager.sd_txt2img := λ _, ret ["png-1"];
     QueueManager.gemini_generate_images := λ _, ret [];
     QueueManager.xai_generate_images := λ _, ret [];
     QueueManager.save_images := λ _ _, db_ret tt;
     QueueManager.pending_rollback_error := Samples.commit_refused |}.

(** A settings row as the Discord command creates it: an empty dict of
    SD parameters, and a seed. *)
Definition row_with_seed : SettingsFlow.GlobalSettings :=
  {| SettingsFlow.default_model := None;
     SettingsFlow.default_lora_list := VNone;
     SettingsFlow.default_prompt_suffix := None;
     SettingsFlow.default_sd_params := Some ∅;
     SettingsFlow.seed := Some 7%Z;
     SettingsFlow.batch_size := None;
     SettingsFlow.batch_count := None;
     SettingsFlow.hires_upscaler := None;
     SettingsFlow.hires_steps := None;
     SettingsFlow.denoising_strength := None;
     SettingsFlow.upscale_by := None;
     SettingsFlow.refiner_checkpoint := None;
     SettingsFlow.refiner_switch_at := None |}.

(** Collaborators that all answer, for a user whose stored settings are
    the row with only a seed. *)
Definition env_seed_only : QueueManager.Env :=
  {| QueueManager.py_str := Samples.no_text;
     QueueManager.rnd := 0;
     QueueManager.research_best_practices := λ _, ret None;
     QueueManager.llm_suggest := Samples.llm_fixed;
     QueueManager.load_global_settings :=
       λ _, db_ret (Some (SettingsFlow._extract_global_settings row_seed_only));
     QueueManager.store_metadata := Samples.stored_as_given;
     QueueManager.integrity_error := Samples.insert_refused;
     QueueManager.sd_txt2img := λ _, ret ["png-1"];
     QueueManager.gemini_generate_images := λ _, ret ["png-1"];
     QueueManager.xai_generate_images := λ _, ret ["png-1"];
     QueueManager.save_images := λ _ _, db_ret tt;
     QueueManager.pending_rollback_error := Samples.commit_refused |}.

(** A research result that recommends 30 steps. *)
Definition research_steps_30 : dict :=
  <["recommended_settings" := VDict (<["steps" := VInt 30]> ∅)]> ∅.

End MoreSamples.

(* ===================================================================== *)
(** ** Properties of the parameter resolver *)
(* ===================================================================== *)

Module ResolverProps.
Import PromptAgent Notions.

Ltac inv_bind H :=
  repeat match type of H with
         | bind ?m _ = inr _ =>
             let E := fresh "E" in
             destruct m eqn:E; simpl in H; [discriminate H|]
         end.

Lemma overlay_cons src key keys r :
  overlay src (key :: keys) r
  = overlay src keys (if is_none (src key) then r else <[key := src key]> r).
Proof. reflexivity. Qed.

Lemma overlay_lookup_notin src keys (r : dict) k :
  k ∉ keys → overlay src keys r !! k = r !! k.
Proof.
  revert r. induction keys as [|a keys IH]; intros r Hk; [done|].
  rewrite overlay_cons. rewrite IH by set_solver.
  destruct (is_none (src a)); [done|].
  apply lookup_insert_ne. set_solver.
Qed.

Lemma overlay_lookup_none src keys (r : dict) k :
  is_none (src k) = true → overlay src keys r !! k = r !! k.
Proof.
  revert r. induction keys as [|a keys IH]; intros r Hk; [done|].
  rewrite overlay_cons, IH by done.
  destruct (is_none (src a)) eqn:Ha; [done|].
  apply lookup_insert_ne. intros ->. congruence.
Qed.

Lemma overlay_lookup_in src keys (r : dict) k :
  k ∈ keys → is_none (src k) = false → overlay src keys r !! k = Some (src k).
Proof.
  revert r. induction keys as [|a keys IH]; intros r Hk Hsrc; [set_solver|].
  rewrite overlay_cons.
  destruct (decide (k ∈ keys)) as [Hin|Hnin]; [by apply IH|].
  apply elem_of_cons in Hk as [Hk|Hk]; [subst a|done].
  rewrite overlay_lookup_notin, Hsrc by done.
  apply lookup_insert_eq.
Qed.

(** Over a dict, the override loop never raises and is an overlay. *)
Lemma for_each_overlay (d : dict) keys (r : dict) :
  for_each keys
    (λ key result,
       let* v := attr_get (VDict d) key in
       ret (if is_none v then result else <[key := v]> result)) r
  = inr (overlay (Py.get d) keys r).
Proof.
  revert r. induction keys as [|a keys IH]; intros r; [done|].
  simpl. rewrite IH. done.
Qed.

Lemma global_into_result_dict gs sd (r : dict) :
  gs !! "default_sd_params" = Some (VDict sd) →
  global_into_result (Some gs) r = inr (overlay (Py.get sd) _SD_PARAM_KEYS r).
Proof.
  intros Hsd. unfold global_into_result, truthy_opt, get_or.
  rewrite Hsd, bool_decide_eq_false_2 by (intros ->; by rewrite lookup_empty in Hsd).
  exact (for_each_overlay sd _SD_PARAM_KEYS r).
Qed.

Lemma apply_suffix_lookup_ne gs (r r' : dict) py_str k :
  apply_suffix py_str gs r = inr r' → k ≠ "prompt" → r' !! k = r !! k.
Proof.
  unfold apply_suffix. intros H Hk.
  destruct (configured_suffix gs); [|by inversion H].
  inv_bind H. inversion H; subst.
  destruct b; [done|]. by rewrite lookup_insert_ne.
Qed.

Lemma apply_negative_default_lookup_ne (r : dict) k :
  k ≠ "negative_prompt" → apply_negative_default r !! k = r !! k.
Proof.
  intros Hk. unfold apply_negative_default.
  destruct (truthy _); [done|]. by rewrite lookup_insert_ne.
Qed.

Lemma apply_seed_lookup_ne rnd gs (r : dict) k :
  k ≠ "seed" → apply_seed rnd gs r !! k = r !! k.
Proof.
  intros Hk. unfold apply_seed.
  destruct (explicit_seed gs); [by rewrite lookup_insert_ne|].
  destruct (r !! "seed") as [v|]; [destruct (eq_int v (-1))|];
    try done; by rewrite lookup_insert_ne.
Qed.

Lemma sd_key_cases key :
  key ∈ _SD_PARAM_KEYS →
  key = "steps" ∨ key = "cfg_scale" ∨ key = "sampler" ∨ key = "scheduler"
  ∨ key = "width" ∨ key = "height".
Proof. unfold _SD_PARAM_KEYS. rewrite !elem_of_cons, elem_of_nil. tauto. Qed.

Lemma sd_key_other key :
  key ∈ _SD_PARAM_KEYS → key ≠ "prompt" ∧ key ≠ "negative_prompt" ∧ key ≠ "seed".
Proof.
  intros H. apply sd_key_cases in H.
  repeat split; intros E; rewrite E in H; intuition discriminate.
Qed.

Lemma previous_into_result_sd pm (r : dict) key :
  key ∈ _SD_PARAM_KEYS → is_none (getattr pm key) = false →
  previous_into_result (Some pm) r !! key = Some (getattr pm key).
Proof.
  intros Hkey Hv. destruct (sd_key_other key Hkey) as (Hp & Hn & _).
  unfold previous_into_result.
  change (foldl _ r _SD_PARAM_KEYS) with (overlay (getattr pm) _SD_PARAM_KEYS r).
  destruct (truthy (of_opt_str _)); destruct (truthy (VStr _));
    rewrite ?lookup_insert_ne by done; by apply overlay_lookup_in.
Qed.

Lemma previous_into_result_prompt pm (r : dict) :
  md_prompt pm ≠ "" →
  previous_into_result (Some pm) r !! "prompt" = Some (VStr (md_prompt pm)).
Proof.
  intros Hp. unfold previous_into_result.
  assert (truthy (VStr (md_prompt pm)) = true) as ->.
  { simpl. apply negb_true_iff, String.eqb_neq, Hp. }
  destruct (truthy (of_opt_str _)); rewrite ?lookup_insert_ne by done;
    apply lookup_insert_eq.
Qed.

Lemma previous_into_result_prompt_empty pm (r : dict) :
  md_prompt pm = "" →
  previous_into_result (Some pm) r !! "prompt" = r !! "prompt".
Proof.
  intros Hp. unfold previous_into_result. rewrite Hp.
  change (foldl _ r _SD_PARAM_KEYS) with (overlay (getattr pm) _SD_PARAM_KEYS r).
  cbn [truthy String.eqb negb].
  destruct (truthy (of_opt_str _)); rewrite ?lookup_insert_ne by done;
    apply overlay_lookup_notin; unfold _SD_PARAM_KEYS;
    rewrite !elem_of_cons, elem_of_nil; intuition discriminate.
Qed.

Lemma previous_into_result_negative pm (r : dict) n :
  md_negative_prompt pm = Some n → n ≠ "" →
  previous_into_result (Some pm) r !! "negative_prompt" = Some (VStr n).
Proof.
  intros Hn Hne. unfold previous_into_result. rewrite Hn.
  assert (truthy (of_opt_str (Some n)) = true) as ->.
  { simpl. apply negb_true_iff, String.eqb_neq, Hne. }
  apply lookup_insert_eq.
Qed.

(** The stages of [resolve_fields], when it returns. *)
Lemma resolve_fields_inr py_str settings result pm gs rr out :
  resolve_fields py_str settings result pm gs rr = inr out →
  ∃ d r0 r1 r2,
    global_into_defaults gs (base_defaults settings) = inr d ∧
    research_into_result rr pm (fill_defaults (previous_into_defaults pm d) result) = inr r0 ∧
    global_into_result gs r0 = inr r1 ∧
    apply_suffix py_str gs (previous_into_result pm r1) = inr r2 ∧
    out = apply_negative_default r2.
Proof.
  unfold resolve_fields. intros H. inv_bind H.
  inversion H; subst. eauto 10.
Qed.

(** What the suffix step leaves under ["prompt"] when a text is there. *)
Lemma apply_suffix_prompt py_str gs (r r' : dict) p :
  r !! "prompt" = Some (VStr p) →
  apply_suffix py_str gs r = inr r' →
  match configured_suffix gs with
  | None => r' !! "prompt" = Some (VStr p)
  | Some suffix =>
      ∃ s, suffix = VStr s ∧
           r' !! "prompt"
           = Some (VStr (if is_infix s p then p else strip ", " (p ++ ", " ++ s)))
  end.
Proof.
  intros Hp. unfold apply_suffix, get_or.
  destruct (configured_suffix gs) as [suffix|]; [|intros [= <-]; done].
  rewrite Hp. simpl.
  destruct suffix; try discriminate. simpl. intros [= <-].
  eexists; split; [done|].
  destruct (is_infix _ _); [done|]. apply lookup_insert_eq.
Qed.

(** *** When the resolver returns *)

Lemma for_each_ind {S : Type} (P : S → Prop) keys (body : string → S → res S) s :
  P s →
  (∀ k s, k ∈ keys → P s → ∃ s', body k s = inr s' ∧ P s') →
  ∃ s', for_each keys body s = inr s' ∧ P s'.
Proof.
  revert s. induction keys as [|a keys IH]; intros s Hs Hbody; [by exists s|].
  destruct (Hbody a s) as (s1 & E1 & Hs1); [set_solver|done|].
  simpl. rewrite E1. simpl. apply IH; [done|].
  intros k s2 Hk. apply Hbody. set_solver.
Qed.

Lemma elem_of_odict_set key v (d : odict) k w :
  (k, w) ∈ odict_set key v d → (k = key ∧ w = v) ∨ (k, w) ∈ d.
Proof.
  induction d as [|[a x] d IH]; simpl.
  - rewrite list_elem_of_singleton. intros [= -> ->]. by left.
  - destruct (String.eqb a key) eqn:E.
    + apply String.eqb_eq in E as ->. rewrite !elem_of_cons.
      intros [[= -> ->]|H]; [by left|right; by right].
    + rewrite !elem_of_cons. intros [H|H]; [right; by left|].
      destruct (IH H) as [?|?]; [by left|right; by right].
Qed.

Lemma odict_set_key_in key v (d : odict) : ∃ w, (key, w) ∈ odict_set key v d.
Proof.
  induction d as [|[a x] d IH]; simpl; [exists v; set_solver|].
  destruct (String.eqb a key) eqn:E.
  - apply String.eqb_eq in E as ->. exists v. set_solver.
  - destruct IH as [w Hw]. exists w. set_solver.
Qed.

Lemma odict_set_keeps_key key v (d : odict) k :
  (∃ w, (k, w) ∈ d) → ∃ w, (k, w) ∈ odict_set key v d.
Proof.
  intros [w Hw]. induction d as [|[a x] d IH]; [set_solver|]. simpl.
  destruct (String.eqb a key) eqn:E.
  - apply String.eqb_eq in E as ->.
    apply elem_of_cons in Hw as [[= -> ->]|Hw]; [exists v|exists w]; set_solver.
  - apply elem_of_cons in Hw as [[= -> ->]|Hw]; [exists x; set_solver|].
    destruct (IH Hw) as [w' Hw']. exists w'. set_solver.
Qed.

Lemma fill_defaults_cons kv (d : odict) (r : dict) :
  fill_defaults (kv :: d) r
  = fill_defaults d (if is_none (Py.get r kv.1) then <[kv.1 := kv.2]> r else r).
Proof. reflexivity. Qed.

Lemma fill_defaults_lookup_notin (d : odict) (r : dict) k :
  (∀ w, (k, w) ∉ d) → fill_defaults d r !! k = r !! k.
Proof.
  revert r. induction d as [|[a x] d IH]; intros r Hk; [done|].
  rewrite fill_defaults_cons, IH by (intros w Hw; apply (Hk w); set_solver).
  simpl. destruct (is_none _); [|done].
  apply lookup_insert_ne. intros ->. apply (Hk x). set_solver.
Qed.

Lemma fill_defaults_keeps_text (d : odict) (r : dict) k s :
  r !! k = Some (VStr s) → fill_defaults d r !! k = Some (VStr s).
Proof.
  revert r. induction d as [|[a x] d IH]; intros r Hk; [done|].
  rewrite fill_defaults_cons. apply IH. simpl.
  destruct (is_none (Py.get r a)) eqn:E; [|done].
  rewrite lookup_insert_ne; [done|]. intros ->.
  unfold Py.get in E. rewrite Hk in E. discriminate.
Qed.

Lemma fill_defaults_fills (d : odict) (r : dict) k :
  (∃ w, (k, w) ∈ d) → (∀ w, (k, w) ∈ d → ∃ s, w = VStr s) →
  text_or_none (r !! k) → ∃ s, fill_defaults d r !! k = Some (VStr s).
Proof.
  revert r. induction d as [|[a x] d IH]; intros r [w Hw] Htxt Hr; [set_solver|].
  rewrite fill_defaults_cons. simpl.
  destruct (decide (a = k)) as [->|Hne].
  - destruct (Htxt x) as [s ->]; [set_solver|].
    destruct (is_none (Py.get r k)) eqn:E.
    + exists s. apply fill_defaults_keeps_text, lookup_insert_eq.
    + unfold Py.get in E. destruct (r !! k) as [[]|] eqn:Ek; try done.
      eexists. by apply fill_defaults_keeps_text.
  - apply IH.
    + exists w. set_solver.
    + intros w' Hw'. apply Htxt. set_solver.
    + destruct (is_none _); [|done]. by rewrite lookup_insert_ne.
Qed.

Lemma global_into_defaults_returns gs (d : odict) :
  settings_typed gs →
  ∃ d', global_into_defaults gs d = inr d' ∧ ∀ w, ("prompt", w) ∈ d' → ("prompt", w) ∈ d.
Proof.
  intros Hgs. unfold global_into_defaults.
  destruct gs as [g|]; [|by exists d].
  destruct (truthy_opt (Some g)); [|by exists d].
  destruct Hgs as [Hsd _]. unfold get_or.
  assert (∃ sd, default (VDict ∅) (g !! "default_sd_params") = VDict sd) as [sd ->].
  { destruct (g !! "default_sd_params") as [[]|]; try done; by eexists. }
  apply (for_each_ind (λ d', ∀ w, ("prompt", w) ∈ d' → ("prompt", w) ∈ d)); [done|].
  intros k d1 Hk Hd1. simpl. eexists; split; [done|].
  destruct (is_none _); [done|].
  intros w Hw. apply elem_of_odict_set in Hw as [[E _]|Hw]; [|by apply Hd1].
  subst k. exfalso. revert Hk. rewrite !elem_of_cons, elem_of_nil.
  intuition discriminate.
Qed.

Lemma research_into_result_returns rr pm (r : dict) :
  (pm = None → research_typed rr) →
  ∃ r', research_into_result rr pm r = inr r' ∧ r' !! "prompt" = r !! "prompt".
Proof.
  intros Hrr. unfold research_into_result.
  destruct rr as [m|]; [|by exists r].
  destruct pm; [by exists r|]. specialize (Hrr eq_refl).
  destruct (truthy_opt (Some m)); [|by exists r].
  unfold get_or. simpl in Hrr.
  assert (∃ rec, default (VDict ∅) (m !! "recommended_settings") = VDict rec) as [rec ->].
  { destruct (m !! "recommended_settings") as [[]|]; try done; by eexists. }
  apply (for_each_ind (λ r', r' !! "prompt" = r !! "prompt")); [done|].
  intros k r1 Hk Hr1. simpl.
  destruct (is_none (Py.get r1 k)); [|by exists r1]. simpl.
  eexists; split; [done|].
  destruct (is_none _); [done|].
  rewrite lookup_insert_ne; [done|]. apply sd_key_other in Hk. naive_solver.
Qed.

Lemma global_into_result_returns gs (r : dict) :
  settings_typed gs →
  ∃ r', global_into_result gs r = inr r' ∧ r' !! "prompt" = r !! "prompt".
Proof.
  intros Hgs. unfold global_into_result.
  destruct gs as [g|]; [|by exists r].
  destruct (truthy_opt (Some g)); [|by exists r].
  destruct Hgs as [Hsd _]. unfold get_or.
  assert (∃ sd, default (VDict ∅) (g !! "default_sd_params") = VDict sd) as [sd ->].
  { destruct (g !! "default_sd_params") as [[]|]; try done; by eexists. }
  rewrite for_each_overlay. eexists; split; [done|].
  apply overlay_lookup_notin. unfold _SD_PARAM_KEYS.
  rewrite !elem_of_cons, elem_of_nil. intuition discriminate.
Qed.

Lemma previous_into_defaults_prompt pm (d : odict) :
  (∀ w, ("prompt", w) ∉ d) →
  (∃ w, ("prompt", w) ∈ previous_into_defaults (Some pm) d) ∧
  (∀ w, ("prompt", w) ∈ previous_into_defaults (Some pm) d → ∃ s, w = VStr s).
Proof.
  intros Hd. unfold previous_into_defaults, odict_update. simpl. split.
  - do 7 apply odict_set_keeps_key. apply odict_set_key_in.
  - intros w Hw.
    repeat (apply elem_of_odict_set in Hw as [[E _]|Hw]; [discriminate E|]).
    apply elem_of_odict_set in Hw as [[_ ->]|Hw]; [by eexists|].
    by destruct (Hd w).
Qed.

Lemma resolve_fields_returns py_str settings result pm gs rr :
  settings_typed gs → (pm = None → research_typed rr) → prompt_typed result pm →
  ∃ out, resolve_fields py_str settings result pm gs rr = inr out.
Proof.
  intros Hgs Hrr Hp. unfold resolve_fields.
  destruct (global_into_defaults_returns gs (base_defaults settings) Hgs) as (d & -> & Hd).
  simpl.
  assert (∀ w, ("prompt", w) ∉ d) as Hd'.
  { intros w Hw. apply Hd in Hw. revert Hw. unfold base_defaults.
    rewrite !elem_of_cons, elem_of_nil. intuition discriminate. }
  set (r_fill := fill_defaults (previous_into_defaults pm d) result).
  destruct (research_into_result_returns rr pm r_fill Hrr) as (r0 & -> & Hr0). simpl.
  destruct (global_into_result_returns gs r0 Hgs) as (r1 & -> & Hr1). simpl.
  assert (text_or_absent (previous_into_result pm r1 !! "prompt")) as Htxt.
  { destruct pm as [m|].
    - destruct (decide (md_prompt m = "")) as [Hempty|Hne].
      + destruct Hp as [?|Hp]; [done|].
        destruct (previous_into_defaults_prompt m d Hd') as [Hin Hall].
        destruct (fill_defaults_fills _ result "prompt" Hin Hall Hp) as [s Hs].
        rewrite previous_into_result_prompt_empty by done.
        rewrite Hr1, Hr0. unfold r_fill. by rewrite Hs.
      + by rewrite previous_into_result_prompt.
    - cbn [previous_into_result]. rewrite Hr1, Hr0. unfold r_fill.
      cbn [previous_into_defaults]. by rewrite fill_defaults_lookup_notin. }
  unfold apply_suffix.
  destruct gs as [g|]; [|by eexists].
  destruct Hgs as [_ Hsuf].
  destruct (configured_suffix (Some g)) as [[]|]; try done; [|by eexists].
  unfold get_or. destruct (previous_into_result pm r1 !! "prompt") as [[]|];
    try done; by eexists.
Qed.

Lemma _apply_defaults_returns py_str settings rnd result pm gs rr :
  settings_typed gs → (pm = None → research_typed rr) → prompt_typed result pm →
  ∃ out, _apply_defaults py_str settings rnd result pm gs rr = inr out.
Proof.
  intros Hgs Hrr Hp. unfold _apply_defaults.
  destruct (resolve_fields_returns py_str settings result pm gs rr Hgs Hrr Hp) as [out ->].
  by eexists.
Qed.

(** On a new request the text under ["prompt"] stays a text. *)
Lemma new_request_prompt_text py_str settings rnd (result : dict) gs rr out p :
  settings_typed gs → research_typed rr →
  result !! "prompt" = Some (VStr p) →
  _apply_defaults py_str settings rnd result None gs rr = inr out →
  ∃ p', out !! "prompt" = Some (VStr p').
Proof.
  intros Hgs Hrr Hp H. unfold _apply_defaults in H. inv_bind H. injection H as <-.
  apply resolve_fields_inr in E as (d & r0 & r1 & r2 & _ & Hres & Hglob & Hsuf & ->).
  destruct (research_into_result_returns rr None
              (fill_defaults (previous_into_defaults None d) result) (λ _, Hrr))
    as (r0' & Hres' & Hr0).
  rewrite Hres in Hres'. injection Hres' as <-.
  destruct (global_into_result_returns gs r0 Hgs) as (r1' & Hglob' & Hr1).
  rewrite Hglob in Hglob'. injection Hglob' as <-.
  assert (r1 !! "prompt" = Some (VStr p)) as Hp1.
  { rewrite Hr1, Hr0. by apply fill_defaults_keeps_text. }
  pose proof (apply_suffix_prompt py_str gs _ _ p Hp1 Hsuf) as Hout.
  rewrite apply_seed_lookup_ne, apply_negative_default_lookup_ne by done.
  destruct (configured_suffix gs); [|by eexists].
  destruct Hout as (s & _ & ->). by eexists.
Qed.

(** On a follow-up the prompt is the previous one, with the configured
    suffix appended when it does not occur in it. *)
Lemma follow_up_prompt py_str settings rnd result pm gs research out :
  _apply_defaults py_str settings rnd result (Some pm) gs research = inr out →
  md_prompt pm ≠ "" →
  match configured_suffix gs with
  | None => out !! "prompt" = Some (VStr (md_prompt pm))
  | Some suffix =>
      ∃ s, suffix = VStr s ∧
           out !! "prompt"
           = Some (VStr (if is_infix s (md_prompt pm) then md_prompt pm
                         else strip ", " (md_prompt pm ++ ", " ++ s)))
  end.
Proof.
  intros H Hp. unfold _apply_defaults in H. inv_bind H. injection H as <-.
  apply resolve_fields_inr in E as (d & r0 & r1 & r2 & _ & _ & _ & Hsuf & ->).
  pose proof (apply_suffix_prompt _ _ _ _ _
                (previous_into_result_prompt pm r1 Hp) Hsuf) as Hout.
  destruct (configured_suffix gs).
  - destruct Hout as (s & -> & Hout). exists s. split; [done|].
    by rewrite apply_seed_lookup_ne, apply_negative_default_lookup_ne.
  - by rewrite apply_seed_lookup_ne, apply_negative_default_lookup_ne.
Qed.

(** *** Facts on the sample inputs *)

Lemma sample_suffix_configured :
  configured_suffix (Some Samples.settings_with_suffix) = Some (VStr "masterpiece").
Proof.
  unfold configured_suffix, truthy_opt, Py.get, Samples.settings_with_suffix.
  rewrite lookup_insert_eq.
  rewrite bool_decide_eq_false_2 by apply insert_non_empty.
  reflexivity.
Qed.

Lemma sample_suffix_settings_typed : settings_typed (Some Samples.settings_with_suffix).
Proof.
  unfold settings_typed. rewrite sample_suffix_configured.
  unfold Samples.settings_with_suffix.
  rewrite lookup_insert_ne by discriminate. rewrite lookup_empty. split; exact I.
Qed.

Lemma sample_steps_settings_typed : settings_typed (Some Samples.settings_steps_45).
Proof.
  unfold settings_typed, configured_suffix, Py.get, Samples.settings_steps_45.
  rewrite lookup_insert_eq.
  rewrite lookup_insert_ne by discriminate. rewrite lookup_empty.
  cbn [default truthy]. rewrite andb_false_r. split; exact I.
Qed.

Lemma sample_llm_prompt :
  Samples.llm_answer !! "prompt" = Some (VStr "a red fox in snow").
Proof. unfold Samples.llm_answer. apply lookup_insert_eq. Qed.

Lemma sample_llm_steps : Samples.llm_answer !! "steps" = Some (VInt 20).
Proof.
  unfold Samples.llm_answer.
  do 2 (rewrite lookup_insert_ne by discriminate). apply lookup_insert_eq.
Qed.

Lemma in_sd_keys key :
  existsb (String.eqb key) _SD_PARAM_KEYS = true → key ∈ _SD_PARAM_KEYS.
Proof.
  intros H. apply existsb_exists in H as (k & Hin & Hk).
  apply String.eqb_eq in Hk as ->. by apply list_elem_of_In.
Qed.

(** *** Main results on the resolver *)

(** C1, as stated, fails: with a fully populated previous metadata row and
    a default prompt suffix in the global settings, the resolved prompt of
    a follow-up is the previous prompt with the suffix appended, not the
    previous prompt. *)
Lemma follow_up_prompt_gets_suffix :
  ∃ out,
    _apply_defaults Samples.no_text Samples.app_settings 0 Samples.llm_answer
      (Some Samples.previous) (Some Samples.settings_with_suffix) None = inr out
    ∧ out !! "prompt" = Some (VStr "a cat, masterpiece")
    ∧ out !! "prompt" ≠ Some (VStr (md_prompt Samples.previous)).
Proof.
  destruct (_apply_defaults_returns Samples.no_text Samples.app_settings 0
              Samples.llm_answer (Some Samples.previous)
              (Some Samples.settings_with_suffix) None) as [out Hout].
  { apply sample_suffix_settings_typed. }
  { discriminate. }
  { left. discriminate. }
  exists out. split; [exact Hout|].
  pose proof (follow_up_prompt _ _ _ _ _ _ _ _ Hout) as Hp.
  rewrite sample_suffix_configured in Hp.
  destruct Hp as (s & [= <-] & Hp); [discriminate|].
  change (out !! "prompt" = Some (VStr "a cat, masterpiece")) in Hp.
  split; [exact Hp|]. rewrite Hp. discriminate.
Qed.

(** C1 (amended). Whenever [previous_metadata] is present, the resolved
    steps, cfg_scale, sampler, width and height equal the previous
    metadata's, whatever the LLM result, the global settings and the
    research result hold; the scheduler and the negative prompt equal the
    previous ones when those are not null (not empty); the prompt, when the
    previous one is not empty, is the previous prompt, with the configured
    default suffix appended unless it already occurs in it. The resolver
    returns such a result on every well-typed input. *)
Theorem follow_up_fields_from_previous py_str settings rnd result pm gs research :
  (∀ out,
     _apply_defaults py_str settings rnd result (Some pm) gs research = inr out →
     out !! "steps" = Some (VInt (md_steps pm)) ∧
     out !! "cfg_scale" = Some (VFloat (md_cfg_scale pm)) ∧
     out !! "sampler" = Some (VStr (md_sampler pm)) ∧
     out !! "width" = Some (VInt (md_width pm)) ∧
     out !! "height" = Some (VInt (md_height pm)) ∧
     (∀ s, md_scheduler pm = Some s → out !! "scheduler" = Some (VStr s)) ∧
     (∀ n, md_negative_prompt pm = Some n → n ≠ "" →
           out !! "negative_prompt" = Some (VStr n)) ∧
     (md_prompt pm ≠ "" →
      match configured_suffix gs with
      | None => out !! "prompt" = Some (VStr (md_prompt pm))
      | Some suffix =>
          ∃ s, suffix = VStr s ∧
               out !! "prompt"
               = Some (VStr (if is_infix s (md_prompt pm) then md_prompt pm
                             else strip ", " (md_prompt pm ++ ", " ++ s)))
      end))
  ∧ (settings_typed gs → prompt_typed result (Some pm) →
     ∃ out, _apply_defaults py_str settings rnd result (Some pm) gs research = inr out).
Proof.
  split.
  - intros out H. pose proof (follow_up_prompt _ _ _ _ _ _ _ _ H) as Hprompt.
    unfold _apply_defaults in H. inv_bind H.
    injection H as <-.
    apply resolve_fields_inr in E as (d & r0 & r1 & r2 & _ & _ & _ & Hsuf & ->).
    assert (∀ key, existsb (String.eqb key) _SD_PARAM_KEYS = true →
              is_none (getattr pm key) = false →
              apply_seed rnd gs (apply_negative_default r2) !! key
              = Some (getattr pm key)) as Hsd.
    { intros key Hkey Hv. apply in_sd_keys in Hkey.
      destruct (sd_key_other key Hkey) as (? & ? & ?).
      rewrite apply_seed_lookup_ne, apply_negative_default_lookup_ne by done.
      rewrite (apply_suffix_lookup_ne _ _ _ _ _ Hsuf) by done.
      by apply previous_into_result_sd. }
    split; [exact (Hsd "steps" eq_refl eq_refl)|].
    split; [exact (Hsd "cfg_scale" eq_refl eq_refl)|].
    split; [exact (Hsd "sampler" eq_refl eq_refl)|].
    split; [exact (Hsd "width" eq_refl eq_refl)|].
    split; [exact (Hsd "height" eq_refl eq_refl)|].
    split; [|split; [|exact Hprompt]].
    + intros s Hs. rewrite (Hsd "scheduler" eq_refl);
        change (getattr pm "scheduler") with (of_opt_str (md_scheduler pm));
        by rewrite Hs.
    + intros n Hn Hne.
      rewrite apply_seed_lookup_ne by done.
      pose proof (previous_into_result_negative pm r1 n Hn Hne) as Hprev.
      rewrite <- (apply_suffix_lookup_ne _ _ _ _ _ Hsuf) in Hprev by done.
      unfold apply_negative_default, Py.get. rewrite Hprev. simpl.
      destruct (String.eqb n "") eqn:E; [by apply String.eqb_eq in E|done].
  - intros Hgs Hp. by apply _apply_defaults_returns.
Qed.

(** The theorem at the sample follow-up with a suffix configured. *)
Lemma follow_up_fields_from_previous_witness :
  ∃ out,
    _apply_defaults Samples.no_text Samples.app_settings 0 Samples.llm_answer
      (Some Samples.previous) (Some Samples.settings_with_suffix) None = inr out
    ∧ out !! "steps" = Some (VInt 30).
Proof.
  destruct (follow_up_fields_from_previous Samples.no_text Samples.app_settings 0
              Samples.llm_answer Samples.previous (Some Samples.settings_with_suffix) None)
    as [Hfields Hret].
  destruct Hret as [out Hout].
  - apply sample_suffix_settings_typed.
  - left. discriminate.
  - exists out. split; [exact Hout|]. exact (proj1 (Hfields out Hout)).
Defined.

(** C5. On a new request, a field of [_SD_PARAM_KEYS] that the global
    settings' [default_sd_params] sets is resolved to that value, whatever
    the LLM result holds for it. *)
Theorem global_settings_win_over_llm py_str settings rnd result gs research sd key v :
  gs !! "default_sd_params" = Some (VDict sd) →
  key ∈ _SD_PARAM_KEYS →
  sd !! key = Some v → v ≠ VNone →
  (∀ out, _apply_defaults py_str settings rnd result None (Some gs) research = inr out →
          out !! key = Some v)
  ∧ (settings_typed (Some gs) → research_typed research → prompt_typed result None →
     ∃ out, _apply_defaults py_str settings rnd result None (Some gs) research = inr out
            ∧ out !! key = Some v).
Proof.
  intros Hsd Hkey Hv Hnone.
  assert (∀ out, _apply_defaults py_str settings rnd result None (Some gs) research = inr out →
                 out !! key = Some v) as Hval.
  { intros out H. unfold _apply_defaults in H. inv_bind H. injection H as <-.
    apply resolve_fields_inr in E as (d & r0 & r1 & r2 & _ & _ & Hglob & Hsuf & ->).
    destruct (sd_key_other key Hkey) as (? & ? & ?).
    rewrite apply_seed_lookup_ne, apply_negative_default_lookup_ne by done.
    rewrite (apply_suffix_lookup_ne _ _ _ _ _ Hsuf) by done.
    rewrite (global_into_result_dict gs sd r0 Hsd) in Hglob.
    assert (r1 = overlay (Py.get sd) _SD_PARAM_KEYS r0) as -> by congruence.
    cbn [previous_into_result].
    assert (Py.get sd key = v) as Hget by (unfold Py.get; by rewrite Hv).
    rewrite overlay_lookup_in; [by rewrite Hget|done|].
    rewrite Hget. by destruct v. }
  split; [exact Hval|].
  intros Hgs Hrr Hp.
  destruct (_apply_defaults_returns py_str settings rnd result None (Some gs) research)
    as [out Hout]; try done.
  exists out. split; [done|]. by apply Hval.
Qed.

(** The scenario of the design document: [default_sd_params.steps = 45],
    the LLM suggests [steps = 20], the resolved steps are 45. *)
Lemma global_settings_win_over_llm_witness :
  Samples.llm_answer !! "steps" = Some (VInt 20) ∧
  ∃ out,
    _apply_defaults Samples.no_text Samples.app_settings 0 Samples.llm_answer
      None (Some Samples.settings_steps_45) None = inr out
    ∧ out !! "steps" = Some (VInt 45).
Proof.
  split; [exact sample_llm_steps|].
  apply (global_settings_win_over_llm Samples.no_text Samples.app_settings 0
           Samples.llm_answer Samples.settings_steps_45 None
           (<["steps" := VInt 45]> ∅) "steps" (VInt 45)).
  - apply lookup_insert_eq.
  - apply list_elem_of_here.
  - apply lookup_insert_eq.
  - discriminate.
  - apply sample_steps_settings_typed.
  - exact I.
  - unfold prompt_typed. rewrite sample_llm_prompt. exact I.
Defined.

(** C8. Two calls of the resolver on equal inputs, each with its own
    random draw, both raise the same exception or both return, and then
    the two outputs are equal in every field but ["seed"]; they are equal
    in ["seed"] too when the global settings give a seed, and they differ
    only when each holds its own draw. *)
Theorem resolver_idempotent_up_to_seed py_str settings rnd1 rnd2 result pm gs research :
  match _apply_defaults py_str settings rnd1 result pm gs research,
        _apply_defaults py_str settings rnd2 result pm gs research with
  | inr out1, inr out2 =>
      delete "seed" out1 = delete "seed" out2 ∧
      (is_Some (explicit_seed gs) → out1 = out2) ∧
      (out1 ≠ out2 →
       out1 !! "seed" = Some (VInt rnd1) ∧ out2 !! "seed" = Some (VInt rnd2))
  | inl e1, inl e2 => e1 = e2
  | _, _ => False
  end.
Proof.
  unfold _apply_defaults.
  destruct (resolve_fields py_str settings result pm gs research) as [e|r]; simpl; [done|].
  unfold apply_seed. destruct (explicit_seed gs) as [seed|].
  { repeat split; done. }
  assert (delete "seed" (<["seed" := VInt rnd1]> r)
          = delete "seed" (<["seed" := VInt rnd2]> r)) as Hdel
    by (by rewrite !delete_insert_eq).
  destruct (r !! "seed") as [v|]; [destruct (eq_int v (-1))|].
  - split; [done|]. split; [by intros [? [=]]|]. intros _.
    by rewrite !lookup_insert_eq.
  - repeat split; done.
  - split; [done|]. split; [by intros [? [=]]|]. intros _.
    by rewrite !lookup_insert_eq.
Qed.

End ResolverProps.

(* ===================================================================== *)
(** ** Properties of the prompt agent *)
(* ===================================================================== *)

Module AgentProps.
Import PromptAgent.

(** The research step never raises. *)
Lemma _perform_web_research_returns research instr :
  ∃ r, _perform_web_research research instr = inr r.
Proof.
  unfold _perform_web_research.
  destruct (existsb _ _); [by eexists|].
  destruct (research instr); by eexists.
Qed.

(** When the research step answers [None], the LLM answers and the
    resolver returns a result with a text prompt, [generate_prompt]
    returns that result. *)
Lemma generate_prompt_returns py_str settings rnd research llm instr gs wr result out p :
  (wr = true → _perform_web_research research instr = inr None) →
  llm instr None gs None = inr result →
  _apply_defaults py_str settings rnd result None gs None = inr out →
  out !! "prompt" = Some (VStr p) →
  generate_prompt py_str settings rnd research llm instr None gs wr = inr out.
Proof.
  intros Hres Hllm Hout Hp. unfold generate_prompt.
  assert ((if wr && negb (is_present None)
           then _perform_web_research research instr else ret None) = inr None) as ->.
  { destruct wr; [by apply Hres|done]. }
  cbn [bind try_except]. rewrite Hllm. cbn [bind try_except].
  rewrite Hout. cbn [bind try_except].
  unfold subscript. rewrite Hp. reflexivity.
Qed.

(** C10. On a new request with the web-research flag set, an exception
    raised by the research collaborator is caught inside the research step,
    which answers [None]; [generate_prompt] then behaves as it does without
    the flag, and returns the resolved parameters whenever the LLM answers
    and the resolver returns. *)
Theorem research_failure_is_absorbed py_str settings rnd research llm instr gs e :
  research instr = inl e →
  _perform_web_research research instr = inr None
  ∧ generate_prompt py_str settings rnd research llm instr None gs true
    = generate_prompt py_str settings rnd research llm instr None gs false
  ∧ (∀ result out p,
       llm instr None gs None = inr result →
       _apply_defaults py_str settings rnd result None gs None = inr out →
       out !! "prompt" = Some (VStr p) →
       generate_prompt py_str settings rnd research llm instr None gs true = inr out).
Proof.
  intros He.
  assert (_perform_web_research research instr = inr None) as Hres.
  { unfold _perform_web_research. destruct (existsb _ _); [done|]. by rewrite He. }
  split; [done|]. split.
  - unfold generate_prompt. simpl. by rewrite Hres.
  - intros result out p Hllm Hout Hp.
    by eapply generate_prompt_returns.
Qed.

(** The theorem where the search times out and the LLM gives the sample
    answer: the prompt is generated all the same. *)
Lemma research_failure_is_absorbed_witness :
  ∃ out,
    generate_prompt Samples.no_text Samples.app_settings 0
      Samples.research_times_out Samples.llm_fixed "a red fox in snow" None None true
    = inr out.
Proof.
  destruct (research_failure_is_absorbed Samples.no_text Samples.app_settings 0
              Samples.research_times_out Samples.llm_fixed "a red fox in snow" None
              (PyException "TimeoutException" "search timed out") eq_refl)
    as (_ & _ & Hgen).
  destruct (ResolverProps._apply_defaults_returns Samples.no_text Samples.app_settings 0
              Samples.llm_answer None None None) as [out Hout].
  { exact I. }
  { intros _. exact I. }
  { unfold Notions.prompt_typed. rewrite ResolverProps.sample_llm_prompt. exact I. }
  destruct (ResolverProps.new_request_prompt_text Samples.no_text Samples.app_settings 0
              Samples.llm_answer None None out "a red fox in snow" I I
              ResolverProps.sample_llm_prompt Hout) as [p Hp].
  exists out. exact (Hgen Samples.llm_answer out p eq_refl Hout Hp).
Defined.

(** With the sample LLM a prompt is generated, whether the research
    collaborator finds nothing or raises. *)
Lemma sample_generate_prompt research instr wr :
  (∀ theme, research theme = inr None ∨ ∃ e, research theme = inl e) →
  ∃ out,
    generate_prompt Samples.no_text Samples.app_settings 0 research
      Samples.llm_fixed instr None None wr = inr out.
Proof.
  intros Hresearch.
  destruct (ResolverProps._apply_defaults_returns Samples.no_text Samples.app_settings 0
              Samples.llm_answer None None None) as [out Hout].
  { exact I. }
  { intros _. exact I. }
  { unfold Notions.prompt_typed. rewrite ResolverProps.sample_llm_prompt. exact I. }
  destruct (ResolverProps.new_request_prompt_text Samples.no_text Samples.app_settings 0
              Samples.llm_answer None None out "a red fox in snow" I I
              ResolverProps.sample_llm_prompt Hout) as [p Hp].
  exists out. eapply generate_prompt_returns; [|reflexivity|exact Hout|exact Hp].
  intros _. unfold _perform_web_research, try_except.
  destruct (existsb _ _); [done|].
  by destruct (Hresearch instr) as [->|[e ->]].
Qed.

End AgentProps.

(* ===================================================================== *)
(** ** More on the parameter resolver *)
(* ===================================================================== *)

Module ResolverMore.
Import PromptAgent Notions Invariants ResolverProps.

(** *** The loops, when they return *)

Lemma for_each_inv {S : Type} (P : S → Prop) keys (body : string → S → res S) s s' :
  P s →
  (∀ k s1 s2, k ∈ keys → P s1 → body k s1 = inr s2 → P s2) →
  for_each keys body s = inr s' → P s'.
Proof.
  revert s. induction keys as [|a keys IH]; intros s Hs Hbody; simpl.
  - by intros [= <-].
  - destruct (body a s) as [e|s1] eqn:E; simpl; [done|].
    apply IH; [|intros k s2 s3 Hk; apply Hbody; set_solver].
    apply (Hbody a s s1); [set_solver|done|done].
Qed.

(** *** Filling in the defaults *)

Lemma fill_defaults_keeps_value (d : odict) (r : dict) k :
  is_none (Py.get r k) = false → fill_defaults d r !! k = r !! k.
Proof.
  revert r. induction d as [|[a x] d IH]; intros r Hk; [done|].
  rewrite fill_defaults_cons. simpl.
  destruct (is_none (Py.get r a)) eqn:Ha.
  - assert (a ≠ k) as Hne by (intros ->; congruence).
    rewrite IH.
    + by apply lookup_insert_ne.
    + unfold Py.get. by rewrite lookup_insert_ne.
  - by apply IH.
Qed.

Lemma fill_defaults_lookup_in (d : odict) (r : dict) k w :
  NoDup d.*1 → (k, w) ∈ d →
  fill_defaults d r !! k = Some (if is_none (Py.get r k) then w else Py.get r k).
Proof.
  revert r. induction d as [|[a x] d IH]; intros r Hnd Hin; [set_solver|].
  rewrite fill_defaults_cons. simpl in *.
  apply NoDup_cons in Hnd as [Ha Hnd].
  apply elem_of_cons in Hin as [[= -> ->]|Hin].
  - rewrite fill_defaults_lookup_notin.
    2:{ intros w Hw. apply Ha. apply list_elem_of_fmap. by exists (a, w). }
    destruct (is_none (Py.get r a)) eqn:E; [apply lookup_insert_eq|].
    unfold Py.get in *. by destruct (r !! a).
  - assert (a ≠ k) as Hne.
    { intros ->. apply Ha. apply list_elem_of_fmap. by exists (k, w). }
    rewrite IH by done.
    destruct (is_none (Py.get r a)); [|done].
    unfold Py.get. by rewrite lookup_insert_ne.
Qed.

Lemma fill_defaults_is_Some (d : odict) (r : dict) k :
  (∃ w, (k, w) ∈ d) ∨ is_Some (r !! k) → is_Some (fill_defaults d r !! k).
Proof.
  revert r. induction d as [|[a x] d IH]; intros r H.
  - destruct H as [[w Hw]|H]; [set_solver|done].
  - rewrite fill_defaults_cons. simpl. apply IH.
    destruct H as [[w Hw]|H].
    + apply elem_of_cons in Hw as [[= -> ->]|Hw]; [|left; by exists w].
      right. destruct (is_none (Py.get r a)) eqn:E.
      * rewrite lookup_insert_eq. by eexists.
      * unfold Py.get in E. destruct (r !! a); [by eexists|done].
    + right. destruct (is_none (Py.get r a)); [|done].
      destruct (decide (a = k)) as [->|Hne].
      * rewrite lookup_insert_eq. by eexists.
      * by rewrite lookup_insert_ne.
Qed.

Lemma fill_defaults_not_none (d : odict) (r : dict) k :
  (∀ w, (k, w) ∈ d → is_none w = false) →
  (∃ w, (k, w) ∈ d) ∨ is_none (Py.get r k) = false →
  is_none (Py.get (fill_defaults d r) k) = false.
Proof.
  revert r. induction d as [|[a x] d IH]; intros r Hall H.
  - destruct H as [[w Hw]|H]; [set_solver|done].
  - rewrite fill_defaults_cons. simpl.
    apply IH; [intros w Hw; apply Hall; set_solver|].
    destruct (decide (a = k)) as [->|Hne].
    + right. destruct (is_none (Py.get r k)) eqn:E; [|done].
      unfold Py.get. rewrite lookup_insert_eq. simpl. apply Hall. set_solver.
    + destruct H as [[w Hw]|H].
      * left. exists w. set_solver.
      * right. destruct (is_none (Py.get r a)); [|done].
        unfold Py.get. by rewrite lookup_insert_ne.
Qed.

Lemma base_defaults_NoDup settings : NoDup (base_defaults settings).*1.
Proof.
  unfold base_defaults. simpl.
  repeat (apply NoDup_cons; split;
          [rewrite ?elem_of_cons, elem_of_nil; intuition discriminate|]).
  apply NoDup_nil_2.
Qed.


(** *** What the resolver leaves in its result *)

Lemma numeric_is_sd_key key :
  key ∈ ["steps"; "cfg_scale"; "width"; "height"] → key ∈ _SD_PARAM_KEYS.
Proof. unfold _SD_PARAM_KEYS. rewrite !elem_of_cons, !elem_of_nil. tauto. Qed.

Lemma filled_insert (r : dict) k v :
  filled r →
  (k ∈ ["steps"; "cfg_scale"; "width"; "height"] → is_none v = false) →
  filled (<[k := v]> r).
Proof.
  intros [Hsome Hnum] Hv. split; intros key Hkey.
  - destruct (decide (k = key)) as [->|Hne].
    + rewrite lookup_insert_eq. by eexists.
    + rewrite lookup_insert_ne by done. by apply Hsome.
  - unfold Py.get. destruct (decide (k = key)) as [->|Hne].
    + rewrite lookup_insert_eq. simpl. by apply Hv.
    + rewrite lookup_insert_ne by done. by apply Hnum.
Qed.

Lemma filled_insert_other (r : dict) k v :
  filled r → k ∉ _SD_PARAM_KEYS → filled (<[k := v]> r).
Proof.
  intros Hr Hk. apply filled_insert; [done|].
  intros Hnum. by apply numeric_is_sd_key in Hnum.
Qed.

Lemma filled_overlay src keys (r : dict) : filled r → filled (overlay src keys r).
Proof.
  revert r. induction keys as [|a keys IH]; intros r Hr; [done|].
  rewrite overlay_cons. apply IH.
  destruct (is_none (src a)) eqn:E; [done|]. by apply filled_insert.
Qed.

Lemma defaults_ok_set key v (d : odict) :
  defaults_ok d →
  (key ∈ ["steps"; "cfg_scale"; "width"; "height"] → is_none v = false) →
  key ∈ _SD_PARAM_KEYS ∨ key = "prompt" ∨ key = "negative_prompt" →
  defaults_ok (odict_set key v d).
Proof.
  intros (H1 & H2 & H3) Hv Hkey. split; [|split].
  - intros k Hk. apply odict_set_keeps_key. by apply H1.
  - intros k w Hk Hw. apply elem_of_odict_set in Hw as [[-> ->]|Hw]; [by apply Hv|].
    by apply (H2 k).
  - intros k w Hw. apply elem_of_odict_set in Hw as [[-> ->]|Hw]; [done|].
    by apply (H3 k w).
Qed.

Lemma base_defaults_ok settings : defaults_ok (base_defaults settings).
Proof.
  unfold base_defaults. split; [|split].
  - intros key Hkey. apply sd_key_cases in Hkey.
    destruct Hkey as [->|[->|[->|[->|[->| ->]]]]]; eexists; repeat constructor.
  - intros key w Hkey Hw. revert Hkey Hw.
    rewrite !elem_of_cons, !elem_of_nil.
    intros [->|[->|[->|[->|[]]]]] H;
      repeat (destruct H as [H|H]; [first [discriminate H | by injection H as ->]|]);
      done.
  - intros key w Hw. left. revert Hw. unfold _SD_PARAM_KEYS.
    rewrite !elem_of_cons, !elem_of_nil. intros H.
    repeat (destruct H as [[= -> _]|H]; [tauto|]). done.
Qed.

Lemma global_into_defaults_ok gs (d d' : odict) :
  defaults_ok d → global_into_defaults gs d = inr d' → defaults_ok d'.
Proof.
  intros Hd. unfold global_into_defaults.
  destruct gs as [g|]; [|by intros [= <-]].
  destruct (truthy_opt (Some g)); [|by intros [= <-]].
  apply for_each_inv; [done|].
  intros k d1 d2 Hk Hd1 Hbody.
  destruct (attr_get _ k) as [e|v] eqn:Ev; simpl in Hbody; [done|].
  injection Hbody as <-.
  destruct (is_none v) eqn:Hv; [done|].
  apply defaults_ok_set; [done|done|]. left.
  revert Hk. unfold _SD_PARAM_KEYS. rewrite !elem_of_cons, !elem_of_nil. tauto.
Qed.

Lemma previous_into_defaults_ok pm (d : odict) :
  defaults_ok d → defaults_ok (previous_into_defaults pm d).
Proof.
  intros Hd. destruct pm as [m|]; [|done].
  cbn [previous_into_defaults]. unfold odict_update. simpl.
  repeat (apply defaults_ok_set;
          [|intros Hin;
            first [done
                  |exfalso; revert Hin; rewrite !elem_of_cons, !elem_of_nil;
                   intuition discriminate]
           |unfold _SD_PARAM_KEYS; rewrite !elem_of_cons, !elem_of_nil; tauto]).
  exact Hd.
Qed.

Lemma fill_defaults_filled (d : odict) (r : dict) :
  defaults_ok d → filled (fill_defaults d r).
Proof.
  intros (H1 & H2 & _). split; intros key Hkey.
  - apply fill_defaults_is_Some. left. by apply H1.
  - apply fill_defaults_not_none.
    + intros w. by apply H2.
    + left. apply H1. by apply numeric_is_sd_key.
Qed.

Lemma fill_defaults_frame (d : odict) (r : dict) k :
  defaults_ok d → k ∉ _SD_PARAM_KEYS → k ≠ "prompt" → k ≠ "negative_prompt" →
  fill_defaults d r !! k = r !! k.
Proof.
  intros (_ & _ & H3) Hk Hp Hn. apply fill_defaults_lookup_notin.
  intros w Hw. destruct (H3 k w Hw) as [?|[?|?]]; done.
Qed.

(** X1. On a new request with no global settings and no research
    result, [_apply_defaults] always returns: each of steps, cfg_scale,
    sampler, scheduler, width and height is the value of the LLM answer when
    that has one that is not None, and the application's static default
    otherwise; the prompt entry is the one of the LLM answer. *)
Theorem new_request_falls_back_to_static_defaults py_str settings rnd (result : dict) :
  ∃ out,
    _apply_defaults py_str settings rnd result None None None = inr out
    ∧ (∀ key dflt,
         (key, dflt) ∈ base_defaults settings →
         out !! key = Some (if is_none (Py.get result key) then dflt else Py.get result key))
    ∧ out !! "prompt" = result !! "prompt".
Proof.
  eexists. split; [reflexivity|]. split.
  - intros key dflt Hin.
    assert (key ∈ _SD_PARAM_KEYS) as Hkey.
    { revert Hin. unfold base_defaults, _SD_PARAM_KEYS.
      rewrite !elem_of_cons, !elem_of_nil. intros H.
      repeat (destruct H as [[= -> _]|H]; [tauto|]). done. }
    destruct (sd_key_other key Hkey) as (Hp & Hn & Hs).
    rewrite apply_seed_lookup_ne, apply_negative_default_lookup_ne by done.
    cbn [previous_into_result previous_into_defaults].
    apply fill_defaults_lookup_in; [apply base_defaults_NoDup|done].
  - rewrite apply_seed_lookup_ne, apply_negative_default_lookup_ne by done.
    cbn [previous_into_result previous_into_defaults].
    apply fill_defaults_lookup_notin. intros w. unfold base_defaults.
    rewrite !elem_of_cons, elem_of_nil. intuition discriminate.
Qed.

Lemma research_into_result_filled rr pm (r r' : dict) :
  filled r → research_into_result rr pm r = inr r' → filled r'.
Proof.
  intros Hr. unfold research_into_result.
  destruct rr as [m|]; [|by intros [= <-]].
  destruct pm; [by intros [= <-]|].
  destruct (truthy_opt (Some m)); [|by intros [= <-]].
  apply for_each_inv; [done|].
  intros k r1 r2 Hk Hr1 Hbody.
  destruct (is_none (Py.get r1 k)); [|by injection Hbody as <-].
  destruct (attr_get _ k) as [e|v]; simpl in Hbody; [done|].
  injection Hbody as <-.
  destruct (is_none v) eqn:Hv; [done|]. by apply filled_insert.
Qed.

Lemma research_into_result_frame rr pm (r r' : dict) k :
  research_into_result rr pm r = inr r' → k ∉ _SD_PARAM_KEYS → r' !! k = r !! k.
Proof.
  intros H Hk. revert H. unfold research_into_result.
  destruct rr as [m|]; [|by intros [= <-]].
  destruct pm; [by intros [= <-]|].
  destruct (truthy_opt (Some m)); [|by intros [= <-]].
  apply (for_each_inv (λ r1 : dict, r1 !! k = r !! k)); [done|].
  intros a r1 r2 Ha Hr1 Hbody.
  destruct (is_none (Py.get r1 a)); [|by injection Hbody as <-].
  destruct (attr_get _ a) as [e|v]; simpl in Hbody; [done|].
  injection Hbody as <-.
  destruct (is_none v); [done|].
  rewrite lookup_insert_ne; [done|]. by intros ->.
Qed.

Lemma global_into_result_filled gs (r r' : dict) :
  filled r → global_into_result gs r = inr r' → filled r'.
Proof.
  intros Hr. unfold global_into_result.
  destruct gs as [g|]; [|by intros [= <-]].
  destruct (truthy_opt (Some g)); [|by intros [= <-]].
  apply for_each_inv; [done|].
  intros k r1 r2 Hk Hr1 Hbody.
  destruct (attr_get _ k) as [e|v]; simpl in Hbody; [done|].
  injection Hbody as <-.
  destruct (is_none v) eqn:Hv; [done|]. by apply filled_insert.
Qed.

Lemma global_into_result_frame gs (r r' : dict) k :
  global_into_result gs r = inr r' → k ∉ _SD_PARAM_KEYS → r' !! k = r !! k.
Proof.
  intros H Hk. revert H. unfold global_into_result.
  destruct gs as [g|]; [|by intros [= <-]].
  destruct (truthy_opt (Some g)); [|by intros [= <-]].
  apply (for_each_inv (λ r1 : dict, r1 !! k = r !! k)); [done|].
  intros a r1 r2 Ha Hr1 Hbody.
  destruct (attr_get _ a) as [e|v]; simpl in Hbody; [done|].
  injection Hbody as <-.
  destruct (is_none v); [done|].
  rewrite lookup_insert_ne; [done|]. by intros ->.
Qed.

Lemma prompts_not_sd_keys :
  ("prompt" ∉ _SD_PARAM_KEYS) ∧ ("negative_prompt" ∉ _SD_PARAM_KEYS)
  ∧ ("seed" ∉ _SD_PARAM_KEYS).
Proof.
  unfold _SD_PARAM_KEYS. rewrite !elem_of_cons, !elem_of_nil.
  repeat split; intuition discriminate.
Qed.

Lemma previous_into_result_filled pm (r : dict) :
  filled r → filled (previous_into_result pm r).
Proof.
  intros Hr. destruct pm as [m|]; [|done].
  destruct prompts_not_sd_keys as (Hp & Hn & _).
  unfold previous_into_result.
  change (foldl _ r _SD_PARAM_KEYS) with (overlay (getattr m) _SD_PARAM_KEYS r).
  pose proof (filled_overlay (getattr m) _SD_PARAM_KEYS r Hr) as H0.
  destruct (truthy (of_opt_str _)); destruct (truthy (VStr _));
    repeat (apply filled_insert_other; [|done]); done.
Qed.

Lemma previous_into_result_frame pm (r : dict) k :
  k ∉ _SD_PARAM_KEYS → k ≠ "prompt" → k ≠ "negative_prompt" →
  previous_into_result pm r !! k = r !! k.
Proof.
  intros Hk Hp Hn. destruct pm as [m|]; [|done].
  unfold previous_into_result.
  change (foldl _ r _SD_PARAM_KEYS) with (overlay (getattr m) _SD_PARAM_KEYS r).
  destruct (truthy (of_opt_str _)); destruct (truthy (VStr _));
    rewrite ?lookup_insert_ne by done; by apply overlay_lookup_notin.
Qed.

Lemma apply_suffix_filled py_str gs (r r' : dict) :
  filled r → apply_suffix py_str gs r = inr r' → filled r'.
Proof.
  intros Hr. unfold apply_suffix.
  destruct (configured_suffix gs); [|by intros [= <-]].
  destruct (contains _ _) as [e|found]; simpl; [done|].
  intros [= <-]. destruct found; [done|].
  apply filled_insert_other; [done|]. apply prompts_not_sd_keys.
Qed.

Lemma apply_negative_default_truthy (r : dict) :
  truthy (Py.get (apply_negative_default r) "negative_prompt") = true.
Proof.
  unfold apply_negative_default.
  destruct (truthy (Py.get r "negative_prompt")) eqn:E; [done|].
  unfold Py.get. rewrite lookup_insert_eq. reflexivity.
Qed.

Lemma apply_negative_default_filled (r : dict) :
  filled r → filled (apply_negative_default r).
Proof.
  intros Hr. unfold apply_negative_default.
  destruct (truthy _); [done|].
  apply filled_insert_other; [done|]. apply prompts_not_sd_keys.
Qed.

Lemma apply_seed_filled rnd gs (r : dict) : filled r → filled (apply_seed rnd gs r).
Proof.
  intros Hr. unfold apply_seed.
  destruct (explicit_seed gs).
  { apply filled_insert_other; [done|]. apply prompts_not_sd_keys. }
  destruct (r !! "seed") as [v|]; [destruct (eq_int v (-1))|]; try done;
    (apply filled_insert_other; [done|]); apply prompts_not_sd_keys.
Qed.

Lemma apply_seed_seed rnd gs (r : dict) :
  apply_seed rnd gs r !! "seed"
  = Some (match explicit_seed gs with
          | Some seed => seed
          | None =>
              match r !! "seed" with
              | Some v => if eq_int v (-1) then VInt rnd else v
              | None => VInt rnd
              end
          end).
Proof.
  unfold apply_seed. destruct (explicit_seed gs); [apply lookup_insert_eq|].
  destruct (r !! "seed") as [v|] eqn:E; [|apply lookup_insert_eq].
  destruct (eq_int v (-1)); [apply lookup_insert_eq|done].
Qed.

Lemma resolve_fields_filled py_str settings result pm gs rr out :
  resolve_fields py_str settings result pm gs rr = inr out →
  filled out ∧ truthy (Py.get out "negative_prompt") = true.
Proof.
  intros H.
  apply resolve_fields_inr in H as (d & r0 & r1 & r2 & Hd & Hres & Hglob & Hsuf & ->).
  split; [|apply apply_negative_default_truthy].
  apply apply_negative_default_filled.
  eapply apply_suffix_filled; [|exact Hsuf].
  apply previous_into_result_filled.
  eapply global_into_result_filled; [|exact Hglob].
  eapply research_into_result_filled; [|exact Hres].
  apply fill_defaults_filled, previous_into_defaults_ok.
  eapply global_into_defaults_ok; [|exact Hd]. apply base_defaults_ok.
Qed.

Lemma resolve_fields_frame py_str settings result pm gs rr out k :
  resolve_fields py_str settings result pm gs rr = inr out →
  k ∉ _SD_PARAM_KEYS → k ≠ "prompt" → k ≠ "negative_prompt" →
  out !! k = result !! k.
Proof.
  intros H Hk Hp Hn.
  apply resolve_fields_inr in H as (d & r0 & r1 & r2 & Hd & Hres & Hglob & Hsuf & ->).
  rewrite apply_negative_default_lookup_ne by done.
  rewrite (apply_suffix_lookup_ne _ _ _ _ _ Hsuf) by done.
  rewrite previous_into_result_frame by done.
  rewrite (global_into_result_frame _ _ _ _ Hglob) by done.
  rewrite (research_into_result_frame _ _ _ _ _ Hres) by done.
  apply fill_defaults_frame; try done.
  apply previous_into_defaults_ok.
  eapply global_into_defaults_ok; [|exact Hd]. apply base_defaults_ok.
Qed.

Lemma _apply_defaults_filled py_str settings rnd result pm gs rr out :
  _apply_defaults py_str settings rnd result pm gs rr = inr out →
  (∀ key, key ∈ _SD_PARAM_KEYS → is_Some (out !! key))
  ∧ (∀ key, key ∈ ["steps"; "cfg_scale"; "width"; "height"] →
            is_none (Py.get out key) = false)
  ∧ truthy (Py.get out "negative_prompt") = true
  ∧ is_Some (out !! "seed").
Proof.
  unfold _apply_defaults.
  destruct (resolve_fields py_str settings result pm gs rr) as [e|r] eqn:E;
    cbn [bind ret]; [done|].
  intros [= <-].
  apply resolve_fields_filled in E as [Hfilled Hneg].
  destruct (apply_seed_filled rnd gs r Hfilled) as [H1 H2].
  split; [done|]. split; [done|]. split.
  - unfold Py.get. by rewrite apply_seed_lookup_ne.
  - rewrite apply_seed_seed. by eexists.
Qed.

(** X2. Whenever [_apply_defaults] returns, its result has an entry
    for every stable-diffusion parameter and for the seed; steps, cfg_scale,
    width and height are not None and the negative prompt is not empty. *)
Theorem resolver_output_is_complete py_str settings rnd result pm gs rr :
  match _apply_defaults py_str settings rnd result pm gs rr with
  | inl _ => True
  | inr out =>
      (∀ key, key ∈ _SD_PARAM_KEYS → is_Some (out !! key))
      ∧ (∀ key, key ∈ ["steps"; "cfg_scale"; "width"; "height"] →
                is_none (Py.get out key) = false)
      ∧ truthy (Py.get out "negative_prompt") = true
      ∧ is_Some (out !! "seed")
  end.
Proof.
  destruct (_apply_defaults py_str settings rnd result pm gs rr) as [e|out] eqn:E; [done|].
  by apply _apply_defaults_filled in E.
Qed.

(** X3. The resolved seed is the seed of the global settings when
    they give one; otherwise it is the seed of the LLM answer, with a random
    draw taking the place of a missing seed or of -1.  The previous
    generation's seed is never used. *)
Theorem seed_precedence py_str settings rnd result pm gs rr :
  match _apply_defaults py_str settings rnd result pm gs rr with
  | inl _ => True
  | inr out =>
      out !! "seed"
      = Some (match explicit_seed gs with
              | Some seed => seed
              | None =>
                  match result !! "seed" with
                  | Some v => if eq_int v (-1) then VInt rnd else v
                  | None => VInt rnd
                  end
              end)
  end.
Proof.
  unfold _apply_defaults.
  destruct (resolve_fields py_str settings result pm gs rr) as [e|r] eqn:E;
    cbn [bind ret]; [done|].
  rewrite apply_seed_seed.
  destruct prompts_not_sd_keys as (_ & _ & Hs).
  by rewrite (resolve_fields_frame _ _ _ _ _ _ _ "seed" E).
Qed.

(** X4. [_apply_defaults] writes only the stable-diffusion
    parameters, the two prompts and the seed: every other entry of the LLM
    answer reaches the result unchanged, and no other entry is added. *)
Theorem resolver_writes_only_its_fields py_str settings rnd result pm gs rr :
  match _apply_defaults py_str settings rnd result pm gs rr with
  | inl _ => True
  | inr out =>
      ∀ key, key ∉ _SD_PARAM_KEYS → key ≠ "prompt" → key ≠ "negative_prompt" →
             key ≠ "seed" → out !! key = result !! key
  end.
Proof.
  unfold _apply_defaults.
  destruct (resolve_fields py_str settings result pm gs rr) as [e|r] eqn:E;
    cbn [bind ret]; [done|].
  intros key Hk Hp Hn Hs. rewrite apply_seed_lookup_ne by done.
  by apply (resolve_fields_frame _ _ _ _ _ _ _ key E).
Qed.

(** *** What the research result can change *)

Lemma agree_off_insert K (r r' : dict) k v :
  agree_off K r r' → agree_off K (<[k := v]> r) (<[k := v]> r').
Proof.
  intros H a Ha. destruct (decide (k = a)) as [->|Hne].
  - by rewrite !lookup_insert_eq.
  - rewrite !lookup_insert_ne by done. by apply H.
Qed.

Lemma agree_off_overlay K src keys (r r' : dict) :
  agree_off K r r' → agree_off K (overlay src keys r) (overlay src keys r').
Proof.
  revert r r'. induction keys as [|a keys IH]; intros r r' H; [done|].
  rewrite !overlay_cons. apply IH.
  destruct (is_none (src a)); [done|]. by apply agree_off_insert.
Qed.

(** The recommendations only reach sampler and scheduler: the numeric
    parameters already have a value when the loop starts. *)
Lemma research_into_result_agree rr (r r' : dict) :
  filled r → research_into_result rr None r = inr r' →
  agree_off ["sampler"; "scheduler"] r' r.
Proof.
  intros Hr. unfold research_into_result.
  destruct rr as [m|]; [|by intros [= <-]].
  destruct (truthy_opt (Some m)); [|by intros [= <-]].
  apply (for_each_inv (λ r1 : dict, filled r1 ∧ agree_off ["sampler"; "scheduler"] r1 r)).
  { done. }
  intros k r1 r2 Hk [Hf1 Ha1] Hbody.
  destruct (is_none (Py.get r1 k)) eqn:Hnone; [|by injection Hbody as <-].
  destruct (attr_get _ k) as [e|v]; simpl in Hbody; [done|].
  injection Hbody as <-.
  destruct (is_none v) eqn:Hv; [done|].
  split; [by apply filled_insert|].
  intros a Ha. rewrite lookup_insert_ne; [by apply Ha1|].
  intros ->. apply Ha.
  apply sd_key_cases in Hk.
  destruct Hf1 as [_ Hnum].
  destruct Hk as [->|[->|[->|[->|[->| ->]]]]];
    first [by repeat constructor
          |exfalso; rewrite Hnum in Hnone; [discriminate Hnone|by repeat constructor]].
Qed.

Lemma global_into_result_agree K gs (r r' : dict) :
  agree_off K r r' →
  match global_into_result gs r, global_into_result gs r' with
  | inr o, inr o' => agree_off K o o'
  | inl e, inl e' => e = e'
  | _, _ => False
  end.
Proof.
  intros H. unfold global_into_result.
  destruct gs as [g|]; [|done].
  destruct (truthy_opt (Some g)); [|done].
  destruct (get_or g "default_sd_params" (VDict ∅)) as [| | | | |sd];
    try reflexivity.
  rewrite !for_each_overlay. by apply agree_off_overlay.
Qed.

Lemma apply_suffix_agree K py_str gs (r r' : dict) :
  "prompt" ∉ K → agree_off K r r' →
  match apply_suffix py_str gs r, apply_suffix py_str gs r' with
  | inr o, inr o' => agree_off K o o'
  | inl e, inl e' => e = e'
  | _, _ => False
  end.
Proof.
  intros Hp H. unfold apply_suffix.
  destruct (configured_suffix gs) as [suffix|]; [|done].
  unfold get_or. rewrite (H "prompt" Hp).
  destruct (contains _ suffix) as [e|found]; simpl; [done|].
  destruct found; [done|]. by apply agree_off_insert.
Qed.

Lemma apply_negative_default_agree K (r r' : dict) :
  "negative_prompt" ∉ K → agree_off K r r' →
  agree_off K (apply_negative_default r) (apply_negative_default r').
Proof.
  intros Hn H. unfold apply_negative_default, Py.get. rewrite (H _ Hn).
  destruct (truthy _); [done|]. by apply agree_off_insert.
Qed.

Lemma apply_seed_agree K rnd gs (r r' : dict) :
  "seed" ∉ K → agree_off K r r' →
  agree_off K (apply_seed rnd gs r) (apply_seed rnd gs r').
Proof.
  intros Hs H. unfold apply_seed. rewrite (H _ Hs).
  destruct (explicit_seed gs); [by apply agree_off_insert|].
  destruct (r' !! "seed") as [v|]; [destruct (eq_int v (-1))|];
    try done; by apply agree_off_insert.
Qed.

(** X5. On a new request a web-research result can change
    nothing but the sampler and the scheduler: for every other key the
    resolver gives the same entry, or raises the same exception, with a
    research result as without one (the numeric parameters are already
    filled from the defaults when the recommendations are read). *)
Theorem research_only_supplies_sampler_and_scheduler
    py_str settings rnd result gs rr key :
  research_typed (Some rr) → key ≠ "sampler" → key ≠ "scheduler" →
  entry key (_apply_defaults py_str settings rnd result None gs (Some rr))
  = entry key (_apply_defaults py_str settings rnd result None gs None).
Proof.
  intros Hrr Hk1 Hk2.
  assert (key ∉ ["sampler"; "scheduler"]) as Hkey.
  { rewrite !elem_of_cons, elem_of_nil. tauto. }
  assert (("prompt" ∉ ["sampler"; "scheduler"])
          ∧ ("negative_prompt" ∉ ["sampler"; "scheduler"])
          ∧ ("seed" ∉ ["sampler"; "scheduler"])) as (Hp & Hn & Hs).
  { rewrite !elem_of_cons, !elem_of_nil. repeat split; intuition discriminate. }
  unfold entry, _apply_defaults, resolve_fields.
  destruct (global_into_defaults gs (base_defaults settings)) as [e|d] eqn:Hd;
    cbn [bind ret]; [done|].
  cbn [previous_into_defaults previous_into_result].
  set (r0 := fill_defaults d result).
  assert (filled r0) as Hfilled.
  { apply fill_defaults_filled. eapply global_into_defaults_ok; [|exact Hd].
    apply base_defaults_ok. }
  destruct (research_into_result_returns (Some rr) None r0 (λ _, Hrr)) as (r1 & Hres & _).
  rewrite Hres. cbn [bind ret research_into_result].
  pose proof (research_into_result_agree _ _ _ Hfilled Hres) as Hagree.
  pose proof (global_into_result_agree _ gs _ _ Hagree) as Hglob.
  destruct (global_into_result gs r1) as [e1|o1], (global_into_result gs r0) as [e0|o0];
    cbn [bind ret]; try done; [by subst|].
  pose proof (apply_suffix_agree _ py_str gs _ _ Hp Hglob) as Hsuf.
  destruct (apply_suffix py_str gs o1) as [e1|p1], (apply_suffix py_str gs o0) as [e0|p0];
    cbn [bind ret]; try done; [by subst|].
  pose proof (apply_seed_agree _ rnd gs _ _ Hs
                (apply_negative_default_agree _ _ _ Hn Hsuf)) as Hfin.
  by rewrite (Hfin key Hkey).
Qed.

(** The theorem on a research result that recommends 30 steps: the
    resolved steps are those of the run without research. *)
Lemma research_only_supplies_sampler_and_scheduler_witness :
  research_typed (Some MoreSamples.research_steps_30)
  ∧ entry "steps"
      (_apply_defaults Samples.no_text Samples.app_settings 0 Samples.llm_answer None None
         (Some MoreSamples.research_steps_30))
    = entry "steps"
        (_apply_defaults Samples.no_text Samples.app_settings 0 Samples.llm_answer None None
           None).
Proof.
  assert (research_typed (Some MoreSamples.research_steps_30)) as Htyped.
  { unfold research_typed, MoreSamples.research_steps_30.
    rewrite lookup_insert_eq. exact I. }
  split; [exact Htyped|].
  apply research_only_supplies_sampler_and_scheduler; [exact Htyped| |]; discriminate.
Defined.

End ResolverMore.

(* ===================================================================== *)
(** ** More on [generate_prompt] *)
(* ===================================================================== *)

Module AgentMore.
Import PromptAgent Notions Invariants ResolverProps ResolverMore.

Lemma for_each_raises {S : Type} (P : exn → Prop) keys (body : string → S → res S) s e :
  (∀ k s1 e1, body k s1 = inl e1 → P e1) →
  for_each keys body s = inl e → P e.
Proof.
  intros Hbody. revert s. induction keys as [|a keys IH]; intros s; simpl; [done|].
  destruct (body a s) as [e1|s1] eqn:E; simpl.
  - intros [= <-]. by eapply Hbody.
  - apply IH.
Qed.

Lemma attr_get_raises v key e : attr_get v key = inl e → is_LLMAPIError e = false.
Proof. destruct v; simpl; intros [= <-]; reflexivity. Qed.

Lemma contains_raises c i e : contains c i = inl e → is_LLMAPIError e = false.
Proof. destruct c, i; simpl; intros [= <-]; reflexivity. Qed.

(** The resolver raises no [LLMAPIError] of its own. *)
Lemma _apply_defaults_raises py_str settings rnd result pm gs rr e :
  _apply_defaults py_str settings rnd result pm gs rr = inl e → is_LLMAPIError e = false.
Proof.
  unfold _apply_defaults, resolve_fields.
  destruct (global_into_defaults gs _) as [e1|d] eqn:E1; cbn [bind].
  { intros [= <-]. revert E1. unfold global_into_defaults.
    destruct gs as [g|]; [|done]. destruct (truthy_opt _); [|done].
    apply (for_each_raises (λ e0, is_LLMAPIError e0 = false)). intros k d1 e3.
    destruct (attr_get _ k) as [e2|v] eqn:Ev; simpl; [|done].
    intros [= <-]. by eapply attr_get_raises. }
  destruct (research_into_result rr pm _) as [e1|r0] eqn:E2; cbn [bind].
  { intros [= <-]. revert E2. unfold research_into_result.
    destruct rr as [m|]; [|done]. destruct pm; [done|].
    destruct (truthy_opt _); [|done].
    apply (for_each_raises (λ e0, is_LLMAPIError e0 = false)). intros k r1 e3.
    destruct (is_none _); [|done].
    destruct (attr_get _ k) as [e2|v] eqn:Ev; simpl; [|done].
    intros [= <-]. by eapply attr_get_raises. }
  destruct (global_into_result gs r0) as [e1|r1] eqn:E3; cbn [bind].
  { intros [= <-]. revert E3. unfold global_into_result.
    destruct gs as [g|]; [|done]. destruct (truthy_opt _); [|done].
    apply (for_each_raises (λ e0, is_LLMAPIError e0 = false)). intros k r2 e3.
    destruct (attr_get _ k) as [e2|v] eqn:Ev; simpl; [|done].
    intros [= <-]. by eapply attr_get_raises. }
  destruct (apply_suffix py_str gs _) as [e1|r2] eqn:E4; cbn [bind]; [|done].
  intros [= <-]. revert E4. unfold apply_suffix.
  destruct (configured_suffix gs); [|done].
  destruct (contains _ _) as [e2|b] eqn:Ec; simpl; [|done].
  intros [= <-]. by eapply contains_raises.
Qed.

(** X6. [generate_prompt] raises nothing but [LLMAPIError]: either
    the error the LLM call raised, passed on unchanged, or the generic
    [Failed to generate prompt] that wraps every other exception. *)
Theorem generate_prompt_raises_only_LLMAPIError
    py_str settings rnd research llm instr pm gs wr :
  match generate_prompt py_str settings rnd research llm instr pm gs wr with
  | inl e =>
      is_LLMAPIError e = true
      ∧ (e = LLMAPIError "Failed to generate prompt" ∨ ∃ rr, llm instr pm gs rr = inl e)
  | inr _ => True
  end.
Proof.
  unfold generate_prompt.
  set (research_step := if wr && negb (is_present pm) then _ else _).
  assert (∃ rr, research_step = inr rr) as [rr ->].
  { unfold research_step. destruct (wr && negb (is_present pm)); [|by eexists].
    apply AgentProps._perform_web_research_returns. }
  cbn [bind].
  destruct (llm instr pm gs rr) as [e|result] eqn:Hllm; cbn [bind try_except].
  { destruct (is_LLMAPIError e) eqn:He; [|split; [reflexivity|by left]].
    split; [done|]. right. by exists rr. }
  destruct (_apply_defaults py_str settings rnd result pm gs rr) as [e|out] eqn:Hres;
    cbn [bind try_except].
  { rewrite (_apply_defaults_raises _ _ _ _ _ _ _ _ Hres).
    split; [reflexivity|by left]. }
  match goal with
  | |- context [subscript ?d "prompt"] => destruct (subscript d "prompt") as [e|p] eqn:Hsub
  end; cbn [bind try_except].
  { revert Hsub. unfold subscript. destruct (_ !! "prompt"); [done|].
    intros [= <-]. cbn [is_LLMAPIError]. split; [reflexivity|by left]. }
  destruct (len_defined p) as [e|[]] eqn:Hlen; cbn [bind try_except]; [|done].
  destruct p; simpl in Hlen; try discriminate Hlen;
    injection Hlen as <-; cbn [is_LLMAPIError]; (split; [reflexivity|by left]).
Qed.

(** X7. On a follow-up request, or when the instruction contains one
    of the skip keywords, web research is not performed even when asked
    for: the research service has no influence on the outcome, which is the
    one of a call with [web_research] off. *)
Theorem research_is_skipped py_str settings rnd research research' llm instr pm gs wr :
  is_present pm = true
  ∨ existsb (λ keyword, is_infix keyword instr) WEB_RESEARCH_SKIP_KEYWORDS = true →
  generate_prompt py_str settings rnd research llm instr pm gs wr
  = generate_prompt py_str settings rnd research' llm instr pm gs false.
Proof.
  intros H. unfold generate_prompt.
  destruct wr; [|done]. cbn [andb].
  destruct H as [H|H].
  - by rewrite H.
  - destruct (negb (is_present pm)); [|done].
    unfold _perform_web_research. by rewrite H.
Qed.

(** The theorem on an instruction that asks for no research. *)
Lemma research_is_skipped_witness :
  generate_prompt Samples.no_text Samples.app_settings 0
    Samples.research_times_out Samples.llm_fixed "a red fox, リサーチなし" None None true
  = generate_prompt Samples.no_text Samples.app_settings 0
      (λ _, ret None) Samples.llm_fixed "a red fox, リサーチなし" None None false.
Proof.
  apply research_is_skipped. right. vm_compute. reflexivity.
Defined.

(** What holds of a prompt that was generated: the entries that the
    queue manager subscripts are there, the numeric ones and the prompt are
    not [None]. *)
Lemma generated_prompt_filled py_str settings rnd research llm instr pm gs wr out :
  generate_prompt py_str settings rnd research llm instr pm gs wr = inr out →
  (∀ key, key ∈ ["prompt"; "steps"; "cfg_scale"; "sampler"; "seed"; "width"; "height"] →
          is_Some (out !! key))
  ∧ (∀ key, key ∈ ["steps"; "cfg_scale"; "width"; "height"] →
            is_none (Py.get out key) = false)
  ∧ is_none (Py.get out "prompt") = false.
Proof.
  unfold generate_prompt.
  set (research_step := if wr && negb (is_present pm) then _ else _).
  destruct research_step as [e|rr]; cbn [bind try_except].
  { by destruct (is_LLMAPIError e). }
  destruct (llm instr pm gs rr) as [e|result]; cbn [bind try_except].
  { by destruct (is_LLMAPIError e). }
  destruct (_apply_defaults py_str settings rnd result pm gs rr) as [e|out0] eqn:Hcomplete;
    cbn [bind try_except].
  { by destruct (is_LLMAPIError e). }
  apply _apply_defaults_filled in Hcomplete.
  match goal with
  | |- context [subscript ?d "prompt"] => set (out1 := d)
  end.
  destruct (subscript out1 "prompt") as [e|p] eqn:Hsub; cbn [bind try_except].
  { by destruct (is_LLMAPIError e). }
  destruct (len_defined p) as [e|[]] eqn:Hlen; cbn [bind try_except ret].
  { by destruct (is_LLMAPIError e). }
  intros [= <-].
  destruct Hcomplete as (Hkeys & Hnum & _ & Hseed).
  assert (∀ key, key ≠ "web_research" → out1 !! key = out0 !! key) as Hout.
  { intros key Hkey. unfold out1. destruct rr as [m|]; [|done].
    destruct (truthy_opt _); [|done]. by rewrite lookup_insert_ne. }
  assert (out1 !! "prompt" = Some p) as Hp.
  { revert Hsub. unfold subscript. destruct (out1 !! "prompt"); [by intros [= ->]|done]. }
  split; [|split].
  - intros key Hkey.
    destruct (decide (key = "prompt")) as [->|Hnp]; [by eexists|].
    assert (key ≠ "web_research") as Hne.
    { intros ->. revert Hkey. rewrite !elem_of_cons, elem_of_nil. intuition discriminate. }
    rewrite (Hout key Hne).
    destruct (decide (key = "seed")) as [->|Hs]; [exact Hseed|].
    apply Hkeys. revert Hkey. unfold _SD_PARAM_KEYS.
    rewrite !elem_of_cons, !elem_of_nil. tauto.
  - intros key Hkey. unfold Py.get. rewrite Hout; [by apply Hnum|].
    intros ->. revert Hkey. rewrite !elem_of_cons, elem_of_nil. intuition discriminate.
  - unfold Py.get. rewrite Hp. cbn [default]. by destruct p.
Qed.

(** X8. What [generate_prompt] returns always carries the seven
    entries that the queue manager subscripts when it builds the
    GenerationMetadata row (prompt, steps, cfg_scale, sampler, seed, width,
    height), so building the row raises no KeyError, and the row holds those
    values. *)
Theorem generated_prompt_fits_metadata
    py_str settings rnd research llm instr pm gs wr request :
  match generate_prompt py_str settings rnd research llm instr pm gs wr with
  | inl _ => True
  | inr out =>
      ∃ metadata,
        SettingsFlow.metadata_kwargs request gs out = inr metadata
        ∧ ∀ key, key ∈ ["prompt"; "steps"; "cfg_scale"; "sampler"; "seed"; "width"; "height"] →
                 is_Some (out !! key) ∧ metadata !! key = out !! key
  end.
Proof.
  unfold generate_prompt.
  set (research_step := if wr && negb (is_present pm) then _ else _).
  destruct research_step as [e|rr]; cbn [bind try_except].
  { by destruct (is_LLMAPIError e). }
  destruct (llm instr pm gs rr) as [e|result]; cbn [bind try_except].
  { by destruct (is_LLMAPIError e). }
  destruct (_apply_defaults py_str settings rnd result pm gs rr) as [e|out0] eqn:Hcomplete;
    cbn [bind try_except].
  { by destruct (is_LLMAPIError e). }
  apply _apply_defaults_filled in Hcomplete.
  match goal with
  | |- context [subscript ?d "prompt"] => set (out := d)
  end.
  destruct (subscript out "prompt") as [e|p] eqn:Hsub; cbn [bind try_except].
  { by destruct (is_LLMAPIError e). }
  destruct (len_defined p) as [e|[]]; cbn [bind try_except].
  { by destruct (is_LLMAPIError e). }
  destruct Hcomplete as (Hkeys & _ & _ & Hseed).
  assert (∀ key, key ≠ "web_research" → out !! key = out0 !! key) as Hout.
  { intros key Hkey. unfold out. destruct rr as [m|]; [|done].
    destruct (truthy_opt _); [|done]. by rewrite lookup_insert_ne. }
  assert (∀ key, key ∈ ["steps"; "cfg_scale"; "sampler"; "seed"; "width"; "height"] →
                 ∃ v, out !! key = Some v) as Hall.
  { intros key Hkey.
    assert (key ≠ "web_research") as Hne.
    { intros ->. revert Hkey. rewrite !elem_of_cons, elem_of_nil. intuition discriminate. }
    rewrite (Hout key Hne).
    destruct (decide (key = "seed")) as [->|Hs]; [exact Hseed|].
    apply Hkeys. revert Hkey. unfold _SD_PARAM_KEYS.
    rewrite !elem_of_cons, !elem_of_nil. tauto. }
  assert (out !! "prompt" = Some p) as Hp.
  { revert Hsub. unfold subscript. destruct (out !! "prompt"); [by intros [= ->]|done]. }
  destruct (Hall "steps") as [v1 H1]; [by repeat constructor|].
  destruct (Hall "cfg_scale") as [v2 H2]; [by repeat constructor|].
  destruct (Hall "sampler") as [v3 H3]; [by repeat constructor|].
  destruct (Hall "seed") as [v4 H4]; [by repeat constructor|].
  destruct (Hall "width") as [v5 H5]; [by repeat constructor|].
  destruct (Hall "height") as [v6 H6]; [by repeat constructor|].
  cbn [try_except ret].
  unfold SettingsFlow.metadata_kwargs, subscript.
  rewrite Hp, H1, H2, H3, H4, H5, H6. cbn [bind ret].
  eexists. split; [reflexivity|].
  intros key Hkey. revert Hkey. rewrite !elem_of_cons, elem_of_nil.
  intros [->|[->|[->|[->|[->|[->|[->|[]]]]]]]];
    (split; [by eexists|]);
    repeat (rewrite lookup_insert_ne by discriminate);
    by rewrite lookup_insert_eq.
Qed.

End AgentMore.

(* ===================================================================== *)
(** ** Properties of the heap operations *)
(* ===================================================================== *)

Module HeapProps.
Import Heapq.

Section Perm.

Context {A : Type}.
Variable lt : A → A → bool.

(** Exchanging the head with the element at index [j]. *)
Lemma cons_insert_perm (l : list A) j a x :
  j < length l → a :: <[j := x]> l ≡ₚ x :: <[j := a]> l.
Proof.
  revert j. induction l as [|y l IH]; intros j Hj; simpl in Hj; [lia|].
  destruct j as [|j]; simpl.
  - apply perm_swap.
  - rewrite (perm_swap y a), (perm_swap y x). f_equiv. apply IH. lia.
Qed.

(** Moving [b] from index [i] into index [j] and writing [a] in its place
    holds the same items as writing [a] at [j]. *)
Lemma insert_move_perm (l : list A) i j a b :
  l !! i = Some b → j < length l → i ≠ j →
  <[i := a]> (<[j := b]> l) ≡ₚ <[j := a]> l.
Proof.
  revert i j. induction l as [|y l IH]; intros i j Hi Hj Hij; [done|].
  destruct i as [|i], j as [|j]; simpl in *; try done.
  - injection Hi as ->. apply cons_insert_perm. lia.
  - rewrite <- (list_insert_id l i b) at 2 by done.
    symmetry. apply cons_insert_perm. by eapply lookup_lt_Some.
  - f_equiv. apply IH; [done|lia|congruence].
Qed.

Lemma div2_pred_lt pos : 0 < pos → Nat.div2 (pos - 1) < pos.
Proof.
  intros Hpos. destruct pos as [|n]; [lia|].
  replace (S n - 1) with n by lia.
  destruct n as [|n]; [simpl; lia|].
  pose proof (Nat.lt_div2 (S n)). lia.
Qed.

(** The loop of [_siftdown] keeps the items, once [newitem] is put into
    the hole it leaves. *)
Lemma _siftdown_loop_perm rounds (heap : list A) newitem startpos pos heap' pos' :
  pos < length heap →
  _siftdown_loop lt rounds heap newitem startpos pos = (heap', pos') →
  <[pos' := newitem]> heap' ≡ₚ <[pos := newitem]> heap.
Proof.
  revert heap pos. induction rounds as [|rounds IH]; intros heap pos Hpos; simpl.
  { by intros [= <- <-]. }
  destruct (Nat.ltb_spec startpos pos) as [Hlt|Hlt]; [|by intros [= <- <-]].
  destruct (heap !! Nat.div2 (pos - 1)) as [parent|] eqn:Hparent; [|by intros [= <- <-]].
  destruct (lt newitem parent); [|by intros [= <- <-]].
  intros Hloop. apply IH in Hloop.
  - rewrite Hloop. apply insert_move_perm; [done|done|].
    pose proof (div2_pred_lt pos). lia.
  - rewrite length_insert. pose proof (div2_pred_lt pos). lia.
Qed.

Lemma _siftdown_perm (heap : list A) startpos pos :
  _siftdown lt heap startpos pos ≡ₚ heap.
Proof.
  unfold _siftdown. destruct (heap !! pos) as [newitem|] eqn:Hnew; [|done].
  destruct (_siftdown_loop lt pos heap newitem startpos pos) as [heap' pos'] eqn:Hloop.
  apply _siftdown_loop_perm in Hloop; [|by eapply lookup_lt_Some].
  rewrite Hloop. by rewrite list_insert_id.
Qed.

(** [heappush] adds the item and nothing else. *)
Lemma heappush_perm (heap : list A) item :
  heappush lt heap item ≡ₚ heap ++ [item].
Proof. apply _siftdown_perm. Qed.

Lemma foldl_heappush_perm {B : Type} (f : B → A) (heap : list A) (l : list B) :
  foldl (λ h x, heappush lt h (f x)) heap l ≡ₚ heap ++ map f l.
Proof.
  revert heap. induction l as [|x l IH]; intros heap; simpl.
  - by rewrite app_nil_r.
  - rewrite IH, heappush_perm, <- app_assoc. done.
Qed.

(** Four items pushed in the order [t1, t2, t3, t4], where [t4] is below
    all others and [t2] above all others, pop as [t4], then [t1] and [t3]
    (the first-pushed [t1] first only when it is strictly smaller), then
    [t2]. *)
Lemma push4_pop4 (t1 t2 t3 t4 : A) :
  lt t4 t1 = true → lt t4 t2 = true → lt t4 t3 = true →
  lt t1 t2 = true → lt t3 t2 = true →
  lt t2 t1 = false → lt t2 t3 = false →
  (lt t1 t3 = true → lt t3 t1 = false) →
  let lo := if lt t1 t3 then t1 else t3 in
  let hi := if lt t1 t3 then t3 else t1 in
  ∃ h3 h2 h1,
    heappop lt (heappush lt (heappush lt (heappush lt (heappush lt [] t1) t2) t3) t4)
    = Some (t4, h3)
    ∧ heappop lt h3 = Some (lo, h2)
    ∧ heappop lt h2 = Some (hi, h1)
    ∧ heappop lt h1 = Some (t2, []).
Proof.
  intros H41 H42 H43 H12 H32 H21 H23 Hasym.
  assert (heappush lt [] t1 = [t1]) as E1 by reflexivity.
  assert (heappush lt [t1] t2 = [t1; t2]) as E2 by (cbv; rewrite H21; reflexivity).
  rewrite E1, E2. clear E1 E2.
  destruct (lt t1 t3) eqn:H13; destruct (lt t3 t1) eqn:H31;
    try (specialize (Hasym eq_refl); discriminate Hasym); clear Hasym.
  - assert (heappush lt [t1; t2] t3 = [t1; t2; t3]) as E3
      by (cbv; rewrite H31; reflexivity).
    assert (heappush lt [t1; t2; t3] t4 = [t4; t1; t3; t2]) as E4
      by (cbv; rewrite H42; cbv; rewrite H41; reflexivity).
    rewrite E3, E4. exists [t1; t2; t3], [t3; t2], [t2].
    repeat split;
      repeat (cbv; progress rewrite ?H13, ?H31, ?H21, ?H23, ?H12, ?H32); reflexivity.
  - assert (heappush lt [t1; t2] t3 = [t3; t2; t1]) as E3
      by (cbv; rewrite H31; reflexivity).
    assert (heappush lt [t3; t2; t1] t4 = [t4; t3; t1; t2]) as E4
      by (cbv; rewrite H42; cbv; rewrite H43; reflexivity).
    rewrite E3, E4. exists [t3; t2; t1], [t1; t2], [t2].
    repeat split;
      repeat (cbv; progress rewrite ?H13, ?H31, ?H21, ?H23, ?H12, ?H32); reflexivity.
  - assert (heappush lt [t1; t2] t3 = [t1; t2; t3]) as E3
      by (cbv; rewrite H31; reflexivity).
    assert (heappush lt [t1; t2; t3] t4 = [t4; t1; t3; t2]) as E4
      by (cbv; rewrite H42; cbv; rewrite H41; reflexivity).
    rewrite E3, E4. exists [t3; t1; t2], [t1; t2], [t2].
    repeat split;
      repeat (cbv; progress rewrite ?H13, ?H31, ?H21, ?H23, ?H12, ?H32); reflexivity.
Qed.

End Perm.

End HeapProps.

(* ===================================================================== *)
(** ** The heap invariant *)
(* ===================================================================== *)

Module HeapOrder.
Import Heapq Invariants HeapProps.
Local Close Scope string_scope.

(** *** Parents and children *)

Lemma parent_children i p : 0 < i → Nat.div2 (i - 1) = p → i = 2 * p + 1 ∨ i = 2 * p + 2.
Proof.
  rewrite Nat.div2_div. intros Hi <-.
  pose proof (Nat.div_mod_eq (i - 1) 2). pose proof (Nat.mod_upper_bound (i - 1) 2). lia.
Qed.

Lemma parent_left p : Nat.div2 (2 * p + 1 - 1) = p.
Proof.
  rewrite Nat.div2_div.
  pose proof (Nat.div_mod_eq (2 * p + 1 - 1) 2).
  pose proof (Nat.mod_upper_bound (2 * p + 1 - 1) 2). lia.
Qed.

Lemma parent_right p : Nat.div2 (2 * p + 2 - 1) = p.
Proof.
  rewrite Nat.div2_div.
  pose proof (Nat.div_mod_eq (2 * p + 2 - 1) 2).
  pose proof (Nat.mod_upper_bound (2 * p + 2 - 1) 2). lia.
Qed.

Lemma last_removelast {A : Type} (h : list A) x : last h = Some x → h = removelast h ++ [x].
Proof.
  induction h as [|a h IH]; [done|]. destruct h as [|b h]; simpl in *.
  - by intros [= ->].
  - intros H. f_equal. by apply IH.
Qed.

Section Order.

Context {A : Type}.
Variable lt : A → A → bool.
Hypothesis lt_asym : ∀ a b, lt a b = true → lt b a = false.
Hypothesis le_trans : ∀ a b c, lt b a = false → lt c b = false → lt c a = false.

Lemma lt_irrefl a : lt a a = false.
Proof. destruct (lt a a) eqn:E; [|done]. pose proof (lt_asym a a E). congruence. Qed.

(** *** [_siftdown] *)

(** Putting [newitem] into the hole closes the heap, when it is not
    below the parent of the hole. *)
Lemma close_hole (heap : list A) pos newitem :
  pos < length heap →
  heap_ok_except lt heap pos → children_above lt heap pos newitem →
  (pos = 0 ∨ ∃ parent, heap !! Nat.div2 (pos - 1) = Some parent ∧ lt newitem parent = false) →
  heap_ok lt (<[pos := newitem]> heap).
Proof.
  intros Hpos [H1 _] H2 Hparent i c p Hi Hc Hp.
  pose proof (div2_pred_lt i Hi) as Hlt.
  destruct (decide (i = pos)) as [->|Hne].
  - rewrite list_lookup_insert_eq in Hc by done. injection Hc as <-.
    rewrite list_lookup_insert_ne in Hp by lia.
    destruct Hparent as [->|(parent & Hparent & Hle)]; [lia|]. congruence.
  - rewrite list_lookup_insert_ne in Hc by done.
    destruct (decide (Nat.div2 (i - 1) = pos)) as [Hpar|Hpar].
    + rewrite Hpar, list_lookup_insert_eq in Hp by done. injection Hp as <-.
      by apply (H2 i).
    + rewrite list_lookup_insert_ne in Hp by done. by apply (H1 i).
Qed.

(** One round of the loop keeps the invariant, one level up. *)
Lemma _siftdown_round (heap : list A) pos newitem parent :
  0 < pos → pos < length heap →
  heap !! Nat.div2 (pos - 1) = Some parent → lt newitem parent = true →
  heap_ok_except lt heap pos → children_above lt heap pos newitem →
  heap_ok_except lt (<[pos := parent]> heap) (Nat.div2 (pos - 1))
  ∧ children_above lt (<[pos := parent]> heap) (Nat.div2 (pos - 1)) newitem.
Proof.
  intros Hpos Hlen Hparent Hlt [H1 H3] H2.
  pose proof (div2_pred_lt pos Hpos) as Hpp.
  set (pp := Nat.div2 (pos - 1)) in *.
  assert (lt parent newitem = false) as Hle by by apply lt_asym.
  assert (∀ i c, 0 < i → i ≠ pos → Nat.div2 (i - 1) = pp → heap !! i = Some c →
                 lt c parent = false) as Hsibling.
  { intros i c Hi Hne Hpar Hc. apply (H1 i); try done; [lia|]. by rewrite Hpar. }
  split; [split|].
  - intros i c p Hi Hne Hpar Hc Hp.
    assert (i ≠ pos) as Hne' by (intros ->; done).
    rewrite list_lookup_insert_ne in Hc by done.
    destruct (decide (Nat.div2 (i - 1) = pos)) as [E|E].
    + rewrite E, list_lookup_insert_eq in Hp by done. injection Hp as <-.
      by apply (H3 i).
    + rewrite list_lookup_insert_ne in Hp by done. by apply (H1 i).
  - intros i c g Hpp0 Hi Hpar Hc Hg.
    pose proof (div2_pred_lt pp Hpp0) as Hgp.
    rewrite list_lookup_insert_ne in Hg by lia.
    assert (lt parent g = false) as Hpg.
    { apply (H1 pp); try done; lia. }
    destruct (decide (i = pos)) as [->|Hne].
    + rewrite list_lookup_insert_eq in Hc by done. by injection Hc as <-.
    + rewrite list_lookup_insert_ne in Hc by done.
      apply (le_trans g parent c); [done|]. by apply (Hsibling i).
  - intros i c Hi Hpar Hc.
    destruct (decide (i = pos)) as [->|Hne].
    + rewrite list_lookup_insert_eq in Hc by done. by injection Hc as <-.
    + rewrite list_lookup_insert_ne in Hc by done.
      apply (le_trans newitem parent c); [done|]. by apply (Hsibling i).
Qed.

Lemma _siftdown_loop_ok rounds (heap : list A) newitem pos :
  pos ≤ rounds → pos < length heap →
  heap_ok_except lt heap pos → children_above lt heap pos newitem →
  heap_ok lt (<[(_siftdown_loop lt rounds heap newitem 0 pos).2 := newitem]>
                (_siftdown_loop lt rounds heap newitem 0 pos).1).
Proof.
  revert heap pos. induction rounds as [|rounds IH]; intros heap pos Hr Hlen Hex Hab.
  { simpl. apply close_hole; try done. left. lia. }
  simpl. destruct (Nat.ltb_spec 0 pos) as [Hpos|Hpos].
  2:{ simpl. apply close_hole; try done. left. lia. }
  pose proof (div2_pred_lt pos Hpos) as Hpp.
  destruct (heap !! Nat.div2 (pos - 1)) as [parent|] eqn:Hparent.
  2:{ apply lookup_ge_None in Hparent. lia. }
  destruct (lt newitem parent) eqn:Hlt.
  - destruct (_siftdown_round heap pos newitem parent) as [Hex' Hab']; try done.
    apply IH; try done; [lia|]. rewrite length_insert. lia.
  - simpl. apply close_hole; try done. right. by exists parent.
Qed.

Lemma heap_ok_except_insert (heap : list A) pos x :
  heap_ok_except lt heap pos → heap_ok_except lt (<[pos := x]> heap) pos.
Proof.
  intros [H1 H3]. split.
  - intros i c p Hi Hne Hpar Hc Hp.
    rewrite list_lookup_insert_ne in Hc, Hp by done. by apply (H1 i).
  - intros i c g Hpos Hi Hpar Hc Hg.
    pose proof (div2_pred_lt pos Hpos). pose proof (div2_pred_lt i Hi).
    rewrite list_lookup_insert_ne in Hc, Hg by lia. by apply (H3 i).
Qed.

Lemma _siftdown_ok (heap : list A) pos newitem :
  heap !! pos = Some newitem →
  heap_ok_except lt heap pos → children_above lt heap pos newitem →
  heap_ok lt (_siftdown lt heap 0 pos).
Proof.
  intros Hnew Hex Hab. unfold _siftdown. rewrite Hnew.
  pose proof (_siftdown_loop_ok pos heap newitem pos) as H.
  destruct (_siftdown_loop lt pos heap newitem 0 pos) as [heap' pos'].
  apply H; try done. by eapply lookup_lt_Some.
Qed.

(** *** [heappush] *)

Lemma heappush_ok (heap : list A) item :
  heap_ok lt heap → heap_ok lt (heappush lt heap item).
Proof.
  intros Hok. unfold heappush.
  assert (∀ i c, 0 < i → Nat.div2 (i - 1) = length heap →
                 (heap ++ [item]) !! i = Some c → False) as Hleaf.
  { intros i c Hi Hpar Hc. apply lookup_lt_Some in Hc.
    rewrite length_app in Hc. simpl in Hc.
    destruct (parent_children i _ Hi Hpar); lia. }
  apply (_siftdown_ok _ _ item).
  - rewrite lookup_app_r by lia. by rewrite Nat.sub_diag.
  - split.
    + intros i c p Hi Hne Hpar Hc Hp.
      assert (i < length heap) as Hlt.
      { apply lookup_lt_Some in Hc. rewrite length_app in Hc. simpl in Hc. lia. }
      pose proof (div2_pred_lt i Hi).
      rewrite lookup_app_l in Hc, Hp by lia. by apply (Hok i).
    + intros i c g _ Hi Hpar Hc _. by destruct (Hleaf i c).
  - intros i c Hi Hpar Hc. by destruct (Hleaf i c).
Qed.

(** *** [_siftup] *)

(** The child that the loop moves up. *)
Lemma chosen_child (heap : list A) pos :
  2 * pos + 1 < length heap →
  ∃ child,
    heap !! match heap !! (2 * pos + 1), heap !! (2 * pos + 1 + 1) with
            | Some c, Some r =>
                if (2 * pos + 1 + 1 <? length heap)%nat && negb (lt c r)
                then 2 * pos + 1 + 1 else 2 * pos + 1
            | _, _ => 2 * pos + 1
            end = Some child
    ∧ (match heap !! (2 * pos + 1), heap !! (2 * pos + 1 + 1) with
       | Some c, Some r =>
           if (2 * pos + 1 + 1 <? length heap)%nat && negb (lt c r)
           then 2 * pos + 1 + 1 else 2 * pos + 1
       | _, _ => 2 * pos + 1
       end = 2 * pos + 1
       ∨ match heap !! (2 * pos + 1), heap !! (2 * pos + 1 + 1) with
         | Some c, Some r =>
             if (2 * pos + 1 + 1 <? length heap)%nat && negb (lt c r)
             then 2 * pos + 1 + 1 else 2 * pos + 1
         | _, _ => 2 * pos + 1
         end = 2 * pos + 2)
    ∧ ∀ i c, 0 < i → Nat.div2 (i - 1) = pos →
             i ≠ match heap !! (2 * pos + 1), heap !! (2 * pos + 1 + 1) with
                 | Some c, Some r =>
                     if (2 * pos + 1 + 1 <? length heap)%nat && negb (lt c r)
                     then 2 * pos + 1 + 1 else 2 * pos + 1
                 | _, _ => 2 * pos + 1
                 end →
             heap !! i = Some c → lt c child = false.
Proof.
  intros Hlen.
  destruct (lookup_lt_is_Some_2 heap (2 * pos + 1) Hlen) as [cl Hcl].
  rewrite Hcl.
  destruct (heap !! (2 * pos + 1 + 1)) as [r|] eqn:Hr.
  - pose proof (lookup_lt_Some _ _ _ Hr) as Hrlen.
    destruct (Nat.ltb_spec (2 * pos + 1 + 1) (length heap)) as [_|?]; [|lia]. cbn [andb].
    destruct (lt cl r) eqn:Hlt; cbn [negb].
    + exists cl. split; [done|]. split; [by left|].
      intros i c Hi Hpar Hne Hc.
      destruct (parent_children i pos Hi Hpar) as [->| ->]; [done|].
      replace (2 * pos + 2) with (2 * pos + 1 + 1) in Hc by lia.
      rewrite Hr in Hc. injection Hc as <-. by apply lt_asym.
    + exists r. split; [done|]. split; [right; lia|].
      intros i c Hi Hpar Hne Hc.
      destruct (parent_children i pos Hi Hpar) as [->| ->].
      * rewrite Hcl in Hc. by injection Hc as <-.
      * exfalso. apply Hne. lia.
  - exists cl. split; [done|]. split; [by left|].
    intros i c Hi Hpar Hne Hc.
    destruct (parent_children i pos Hi Hpar) as [->| ->]; [done|].
    replace (2 * pos + 2) with (2 * pos + 1 + 1) in Hc by lia.
    congruence.
Qed.

(** One round of the loop keeps the invariant, one level down. *)
Lemma _siftup_round (heap : list A) pos chosen child :
  pos < length heap →
  heap !! chosen = Some child →
  chosen = 2 * pos + 1 ∨ chosen = 2 * pos + 2 →
  (∀ i c, 0 < i → Nat.div2 (i - 1) = pos → i ≠ chosen → heap !! i = Some c →
          lt c child = false) →
  heap_ok_except lt heap pos →
  heap_ok_except lt (<[pos := child]> heap) chosen.
Proof.
  intros Hlen Hchild Hchosen Hother [H1 H3].
  assert (Nat.div2 (chosen - 1) = pos) as Hpar.
  { destruct Hchosen as [->| ->]; [apply parent_left|apply parent_right]. }
  assert (0 < chosen ∧ pos < chosen) as [Hc0 Hcp] by lia.
  split.
  - intros i c p Hi Hne Hnp Hc Hp.
    pose proof (div2_pred_lt i Hi) as Hlt.
    destruct (decide (i = pos)) as [->|Hne'].
    + rewrite list_lookup_insert_eq in Hc by done. injection Hc as <-.
      rewrite list_lookup_insert_ne in Hp by lia.
      by apply (H3 chosen).
    + rewrite list_lookup_insert_ne in Hc by done.
      destruct (decide (Nat.div2 (i - 1) = pos)) as [E|E].
      * rewrite E, list_lookup_insert_eq in Hp by done. injection Hp as <-.
        by apply (Hother i).
      * rewrite list_lookup_insert_ne in Hp by done. by apply (H1 i).
  - intros i c g _ Hi Hip Hc Hg.
    pose proof (div2_pred_lt i Hi) as Hlt.
    rewrite Hpar, list_lookup_insert_eq in Hg by done. injection Hg as <-.
    rewrite list_lookup_insert_ne in Hc by lia.
    apply (H1 i); try done; try lia. by rewrite Hip.
Qed.

Lemma _siftup_loop_ok rounds (heap : list A) pos heap' pos' :
  length heap - pos ≤ rounds → pos < length heap →
  heap_ok_except lt heap pos →
  _siftup_loop lt rounds heap (length heap) pos (2 * pos + 1) = (heap', pos') →
  heap_ok_except lt heap' pos' ∧ pos' < length heap' ∧ length heap' ≤ 2 * pos' + 1.
Proof.
  revert heap pos. induction rounds as [|rounds IH]; intros heap pos Hr Hlen Hex; [lia|].
  cbn [_siftup_loop].
  destruct (Nat.ltb_spec (2 * pos + 1) (length heap)) as [Hchild|Hleaf].
  2:{ by intros [= <- <-]. }
  destruct (chosen_child heap pos Hchild) as (child & Hc & Hchosen & Hother).
  match type of Hc with
  | heap !! ?x = _ => set (chosen := x) in *
  end.
  rewrite Hc. intros Hloop.
  assert (chosen < length heap) as Hclen by by eapply lookup_lt_Some.
  rewrite <- (length_insert heap pos child) in Hloop.
  apply IH in Hloop; [done| | |].
  - rewrite length_insert. lia.
  - rewrite length_insert. lia.
  - apply _siftup_round; try done.
Qed.

Lemma _siftup_loop_perm rounds (heap : list A) endpos pos childpos heap' pos' newitem :
  pos < length heap → pos < childpos →
  _siftup_loop lt rounds heap endpos pos childpos = (heap', pos') →
  <[pos' := newitem]> heap' ≡ₚ <[pos := newitem]> heap.
Proof.
  revert heap pos childpos.
  induction rounds as [|rounds IH]; intros heap pos childpos Hlen Hchild;
    cbn [_siftup_loop].
  { by intros [= <- <-]. }
  destruct (childpos <? endpos)%nat; [|by intros [= <- <-]].
  match goal with
  | |- context [heap !! ?x] =>
      lazymatch x with
      | match _ with _ => _ end => set (chosen := x)
      end
  end.
  assert (pos < chosen) as Hchosen.
  { unfold chosen. destruct (heap !! childpos), (heap !! (childpos + 1)); try lia.
    destruct (_ && _); lia. }
  destruct (heap !! chosen) as [child|] eqn:Hc; [|by intros [= <- <-]].
  intros Hloop. apply IH in Hloop; [|rewrite length_insert; by eapply lookup_lt_Some|lia].
  rewrite Hloop. apply insert_move_perm; [done|done|lia].
Qed.

Lemma _siftup_perm (heap : list A) pos : _siftup lt heap pos ≡ₚ heap.
Proof.
  unfold _siftup. destruct (heap !! pos) as [newitem|] eqn:Hnew; [|done].
  destruct (_siftup_loop lt (length heap) heap (length heap) pos (2 * pos + 1))
    as [heap' pos'] eqn:Hloop.
  rewrite _siftdown_perm.
  assert (pos < 2 * pos + 1) as Hchild by lia.
  rewrite (_siftup_loop_perm _ _ _ _ _ _ _ newitem (lookup_lt_Some _ _ _ Hnew) Hchild Hloop).
  by rewrite list_insert_id.
Qed.

Lemma _siftup_ok (heap : list A) :
  heap_ok_except lt heap 0 → heap_ok lt (_siftup lt heap 0).
Proof.
  intros Hex. unfold _siftup.
  destruct (heap !! 0) as [newitem|] eqn:Hnew.
  2:{ destruct heap; [|done]. intros i c p Hi Hc. done. }
  destruct (_siftup_loop lt (length heap) heap (length heap) 0 (2 * 0 + 1))
    as [heap' pos'] eqn:Hloop.
  apply _siftup_loop_ok in Hloop as (Hex' & Hlen' & Hleaf);
    [|lia|by eapply lookup_lt_Some|done].
  apply (_siftdown_ok _ _ newitem).
  - by apply list_lookup_insert_eq.
  - by apply heap_ok_except_insert.
  - intros i c Hi Hpar Hc. apply lookup_lt_Some in Hc. rewrite length_insert in Hc.
    destruct (parent_children i pos' Hi Hpar); lia.
Qed.

(** *** [heappop] *)

(** The root of a heap is below no item. *)
Lemma root_is_least (heap : list A) root :
  heap_ok lt heap → heap !! 0 = Some root →
  ∀ i x, heap !! i = Some x → lt x root = false.
Proof.
  intros Hok Hroot i. induction i as [i IH] using lt_wf_ind. intros x Hx.
  destruct (decide (i = 0)) as [->|Hi].
  { rewrite Hroot in Hx. injection Hx as <-. apply lt_irrefl. }
  pose proof (div2_pred_lt i ltac:(lia)) as Hlt.
  destruct (lookup_lt_is_Some_2 heap (Nat.div2 (i - 1))) as [p Hp].
  { apply lookup_lt_Some in Hx. lia. }
  apply (le_trans root p x).
  - by apply (IH (Nat.div2 (i - 1))).
  - apply (Hok i); [lia|done|done].
Qed.

Lemma heappop_ok (heap heap' : list A) item :
  heap_ok lt heap → heappop lt heap = Some (item, heap') →
  heap_ok lt heap' ∧ item :: heap' ≡ₚ heap ∧ ∀ x, x ∈ heap' → lt x item = false.
Proof.
  intros Hok. unfold heappop.
  destruct (last heap) as [lastelt|] eqn:Hlast; [|done].
  pose proof (last_removelast heap lastelt Hlast) as Hsplit.
  destruct (removelast heap) as [|returnitem rest] eqn:Hrest.
  - intros [= <- <-]. split; [by intros i c p Hi Hc|]. split; [by rewrite Hsplit|].
    intros x Hx. by apply elem_of_nil in Hx.
  - intros [= <- <-].
    assert (returnitem :: _siftup lt (<[0 := lastelt]> (returnitem :: rest)) 0 ≡ₚ heap)
      as Hperm.
    { rewrite _siftup_perm, Hsplit. simpl. f_equiv.
      apply (Permutation_app_comm [lastelt] rest). }
    split; [|split; [done|]].
    + apply _siftup_ok. split; [|intros; lia].
      intros i c p Hi Hne Hpar Hc Hp.
      assert (∀ j x, j ≠ 0 → (<[0 := lastelt]> (returnitem :: rest)) !! j = Some x →
                     heap !! j = Some x) as Hsame.
      { intros j x Hj Hx. destruct j as [|j]; [done|]. simpl in Hx.
        rewrite Hsplit. simpl. rewrite lookup_app_l; [done|by eapply lookup_lt_Some]. }
      apply (Hok i); [done|by apply Hsame|by apply Hsame].
    + intros x Hx.
      assert (x ∈ heap) as Hin by (rewrite <- Hperm; by right).
      apply list_elem_of_lookup in Hin as [i Hi].
      apply (root_is_least heap returnitem Hok) with i; [|done].
      by rewrite Hsplit.
Qed.

Lemma heappop_None (heap : list A) : heappop lt heap = None ↔ heap = [].
Proof.
  unfold heappop. split; [|by intros ->].
  destruct (last heap) eqn:Hlast.
  - by destruct (removelast heap).
  - intros _. by apply last_None.
Qed.

End Order.

End HeapOrder.

(* ===================================================================== *)
(** ** The metadata row and the request built from it *)
(* ===================================================================== *)

Module RequestProps.
Import PromptAgent Notions Invariants SettingsFlow.

(** *** The dict of a settings row *)

Lemma extract_lookup row k :
  k ∈ settings_keys → _extract_global_settings row !! k = Some (SettingsFlow.getattr row k).
Proof.
  unfold settings_keys, _extract_global_settings, _EXTRA_SETTINGS_PARAMS.
  cbn [foldl app]. rewrite !elem_of_cons, elem_of_nil.
  intros H.
  repeat (destruct H as [->|H];
          [repeat (rewrite lookup_insert_ne by discriminate);
           rewrite lookup_insert_eq; reflexivity|]).
  done.
Qed.

Lemma extract_truthy row : truthy_opt (Some (_extract_global_settings row)) = true.
Proof.
  unfold truthy_opt. rewrite bool_decide_eq_false_2; [done|].
  intros Hempty.
  pose proof (extract_lookup row "seed") as H. rewrite Hempty, lookup_empty in H.
  assert ("seed" ∈ settings_keys) as Hin by (by repeat constructor).
  by specialize (H Hin).
Qed.

Lemma extract_get row k :
  k ∈ settings_keys → Py.get (_extract_global_settings row) k = SettingsFlow.getattr row k.
Proof. intros Hk. unfold Py.get. by rewrite extract_lookup. Qed.

(** *** The request to the image server *)

(** A key that differs from every key of a list of literals. *)
Ltac not_in_keys :=
  rewrite !not_elem_of_cons; repeat split;
  first [apply not_elem_of_nil | let H := fresh in intros H; discriminate H].

Lemma lookup_if_insert (c : bool) (m : dict) a v k :
  k ≠ a → (if c then <[a := v]> m else m) !! k = m !! k.
Proof. intros Hk. destruct c; [by rewrite lookup_insert_ne|done]. Qed.

Lemma lookup_if_insert_eq (c : bool) (m : dict) a v :
  (if c then <[a := v]> m else m) !! a = if c then Some v else m !! a.
Proof. destruct c; [apply lookup_insert_eq|done]. Qed.

Lemma lookup_if_insert2 (c : bool) (m : dict) a1 v1 a2 v2 k :
  k ≠ a1 → k ≠ a2 → (if c then <[a1 := v1]> (<[a2 := v2]> m) else m) !! k = m !! k.
Proof. intros H1 H2. destruct c; [by rewrite !lookup_insert_ne|done]. Qed.

(** The keys that [_apply_global_settings_to_sd_params] may write. *)
Lemma sd_params_frame gs (kw : dict) k :
  k ∉ ["hr_upscaler"; "hr_second_pass_steps"; "denoising_strength"; "hr_scale";
       "enable_hr"; "refiner_checkpoint"; "refiner_switch_at"] →
  _apply_global_settings_to_sd_params gs kw !! k = kw !! k.
Proof.
  rewrite !not_elem_of_cons. intros (H1 & H2 & H3 & H4 & H5 & H6 & H7 & _).
  unfold _apply_global_settings_to_sd_params.
  destruct gs as [g|]; [|done]. destruct (negb (truthy_opt (Some g))); [done|].
  cbv zeta.
  rewrite !lookup_if_insert by done.
  rewrite lookup_if_insert2 by done.
  by rewrite !lookup_if_insert by done.
Qed.

(** What it writes, read off the settings dict of a row. *)
Lemma sd_params_hires row (kw : dict) :
  kw !! "enable_hr" = None → kw !! "hr_scale" = None →
  kw !! "hr_second_pass_steps" = None → kw !! "hr_upscaler" = None →
  let kw' := _apply_global_settings_to_sd_params (Some (_extract_global_settings row)) kw in
  kw' !! "enable_hr"
  = match upscale_by row with Some _ => Some (VBool true) | None => None end
  ∧ kw' !! "hr_scale" = VFloat <$> upscale_by row
  ∧ kw' !! "hr_second_pass_steps" = VInt <$> hires_steps row
  ∧ kw' !! "hr_upscaler"
    = match hires_upscaler row with
      | Some s => if String.eqb s "" then None else Some (VStr s)
      | None => None
      end.
Proof.
  intros He Hs Hp Hu kw'. unfold kw', _apply_global_settings_to_sd_params.
  rewrite extract_truthy. cbn [negb]. cbv zeta.
  rewrite !extract_get by (by repeat constructor).
  change (SettingsFlow.getattr row "hires_upscaler") with (of_opt_str (hires_upscaler row)).
  change (SettingsFlow.getattr row "hires_steps") with (of_opt_int (hires_steps row)).
  change (SettingsFlow.getattr row "upscale_by") with (of_opt_float (upscale_by row)).
  repeat split.
  - rewrite !lookup_if_insert by done.
    destruct (upscale_by row); cbn [of_opt_float is_none negb].
    + apply lookup_insert_eq.
    + by rewrite !lookup_if_insert by done.
  - rewrite !lookup_if_insert by done.
    destruct (upscale_by row); cbn [of_opt_float is_none negb fmap option_fmap option_map].
    + rewrite lookup_insert_ne by done. apply lookup_insert_eq.
    + by rewrite !lookup_if_insert by done.
  - rewrite !lookup_if_insert by done.
    rewrite lookup_if_insert2 by done.
    rewrite lookup_if_insert by done.
    rewrite lookup_if_insert_eq.
    destruct (hires_steps row); cbn [of_opt_int is_none negb fmap option_fmap option_map];
      [done|].
    by rewrite lookup_if_insert by done.
  - rewrite !lookup_if_insert by done.
    rewrite lookup_if_insert2 by done.
    rewrite !lookup_if_insert by done.
    rewrite lookup_if_insert_eq.
    destruct (hires_upscaler row) as [s|]; cbn [of_opt_str truthy]; [|done].
    by destruct (String.eqb s "").
Qed.

Lemma batch_size_of_row settings row :
  batch_size_of settings (Some (_extract_global_settings row))
  = VInt (default (default_image_count settings) (batch_size row)).
Proof.
  unfold batch_size_of. rewrite extract_truthy.
  rewrite extract_get by (by repeat constructor).
  change (SettingsFlow.getattr row "batch_size") with (of_opt_int (batch_size row)).
  by destruct (batch_size row).
Qed.

(** The metadata, when it can be built. *)
Lemma metadata_kwargs_inr request gs (prompt_result metadata : dict) :
  metadata_kwargs request gs prompt_result = inr metadata →
  (∀ key, key ∈ ["prompt"; "steps"; "cfg_scale"; "sampler"; "seed"; "width"; "height"] →
          is_Some (prompt_result !! key)
          ∧ Py.get metadata key = Py.get prompt_result key)
  ∧ Py.get metadata "negative_prompt" = get_or prompt_result "negative_prompt" (VStr "")
  ∧ Py.get metadata "scheduler" = Py.get prompt_result "scheduler".
Proof.
  unfold metadata_kwargs, subscript.
  destruct (prompt_result !! "prompt") as [p|] eqn:Hp; cbn [bind]; [|done].
  destruct (prompt_result !! "steps") as [v1|] eqn:H1; cbn [bind]; [|done].
  destruct (prompt_result !! "cfg_scale") as [v2|] eqn:H2; cbn [bind]; [|done].
  destruct (prompt_result !! "sampler") as [v3|] eqn:H3; cbn [bind]; [|done].
  destruct (prompt_result !! "seed") as [v4|] eqn:H4; cbn [bind]; [|done].
  destruct (prompt_result !! "width") as [v5|] eqn:H5; cbn [bind]; [|done].
  destruct (prompt_result !! "height") as [v6|] eqn:H6; cbn [bind]; [|done].
  intros [= <-]. unfold Py.get. split; [|split].
  - intros key. rewrite !elem_of_cons, elem_of_nil.
    intros [->|[->|[->|[->|[->|[->|[->|[]]]]]]]];
      (split; [by eexists|]);
      repeat (rewrite lookup_insert_ne by discriminate);
      rewrite lookup_insert_eq; by rewrite ?Hp, ?H1, ?H2, ?H3, ?H4, ?H5, ?H6.
  - repeat (rewrite lookup_insert_ne by discriminate). by rewrite lookup_insert_eq.
  - repeat (rewrite lookup_insert_ne by discriminate). by rewrite lookup_insert_eq.
Qed.

(** The lookups in the keyword arguments of [SDGenerationParams]. *)
Lemma sd_params_kwargs_base settings gs (metadata : dict) key :
  key ∈ ["prompt"; "negative_prompt"; "steps"; "cfg_scale"; "sampler"; "seed"; "width";
         "height"] →
  sd_params_kwargs settings gs metadata !! key = Some (Py.get metadata key).
Proof.
  unfold sd_params_kwargs. rewrite !elem_of_cons, elem_of_nil.
  intros [->|[->|[->|[->|[->|[->|[->|[->|[]]]]]]]]];
    (rewrite sd_params_frame
       by (rewrite !not_elem_of_cons; repeat split; try discriminate;
           apply not_elem_of_nil));
    repeat (rewrite lookup_insert_ne by discriminate); by rewrite lookup_insert_eq.
Qed.

Lemma sd_params_kwargs_batch_size settings gs (metadata : dict) :
  sd_params_kwargs settings gs metadata !! "batch_size"
  = Some (batch_size_of settings gs).
Proof.
  unfold sd_params_kwargs. rewrite sd_params_frame.
  - apply lookup_insert_eq.
  - rewrite !not_elem_of_cons. repeat split; try discriminate. apply not_elem_of_nil.
Qed.

Lemma sd_params_kwargs_other settings gs (metadata : dict) key :
  key ∉ ["prompt"; "negative_prompt"; "steps"; "cfg_scale"; "sampler"; "seed"; "width";
         "height"; "batch_size"; "hr_upscaler"; "hr_second_pass_steps";
         "denoising_strength"; "hr_scale"; "enable_hr"; "refiner_checkpoint";
         "refiner_switch_at"] →
  sd_params_kwargs settings gs metadata !! key = None.
Proof.
  rewrite !not_elem_of_cons.
  intros (H1 & H2 & H3 & H4 & H5 & H6 & H7 & H8 & H9 & H10 & H11 & H12 & H13 & H14
          & H15 & H16 & _).
  unfold sd_params_kwargs. rewrite sd_params_frame.
  - rewrite !lookup_insert_ne by done. apply lookup_empty.
  - rewrite !not_elem_of_cons. repeat split; try done. apply not_elem_of_nil.
Qed.

(** The lookups in the dict that [to_dict] builds. *)
Lemma to_dict_base (kwargs : dict) self key dflt :
  SDClient.__init__ kwargs = inr self →
  (key, dflt) ∈ [("prompt", VNone); ("negative_prompt", VStr ""); ("steps", VInt 20);
                 ("cfg_scale", VFloat SDClient.float_7); ("seed", VInt (-1));
                 ("width", VInt 512); ("height", VInt 512); ("batch_size", VInt 1)] →
  SDClient.to_dict self !! key = Some (get_or kwargs key dflt).
Proof.
  unfold SDClient.__init__.
  destruct (kwargs !! "prompt") as [p|] eqn:Hp; [|done].
  intros [= <-] Hkey. unfold SDClient.to_dict.
  cbn [SDClient.extra_params SDClient.prompt SDClient.negative_prompt SDClient.steps
         SDClient.cfg_scale SDClient.sampler SDClient.scheduler SDClient.seed
         SDClient.width SDClient.height SDClient.batch_size].
  rewrite lookup_union_r.
  2:{ change (foldr delete kwargs SDClient.named_parameters !! key = None).
      apply lookup_foldr_delete.
      revert Hkey. unfold SDClient.named_parameters.
      rewrite !elem_of_cons, !elem_of_nil.
      intros H. repeat (destruct H as [[= -> _]|H]; [tauto|]). done. }
  revert Hkey. rewrite !elem_of_cons, elem_of_nil. intros H.
  repeat (destruct H as [[= -> ->]|H];
          [rewrite !lookup_if_insert by discriminate;
           repeat (rewrite lookup_insert_ne by discriminate);
           rewrite lookup_insert_eq; unfold get_or; by rewrite ?Hp|]).
  done.
Qed.

Lemma to_dict_other (kwargs : dict) self key :
  SDClient.__init__ kwargs = inr self →
  key ∉ ["prompt"; "negative_prompt"; "steps"; "cfg_scale"; "seed"; "width"; "height";
         "batch_size"; "sampler_name"; "scheduler"] →
  SDClient.to_dict self !! key
  = if bool_decide (key ∈ SDClient.named_parameters) then None else kwargs !! key.
Proof.
  unfold SDClient.__init__.
  destruct (kwargs !! "prompt") as [p|] eqn:Hp; [|done].
  intros [= <-]. rewrite !not_elem_of_cons.
  intros (H1 & H2 & H3 & H4 & H5 & H6 & H7 & H8 & H9 & H10 & _).
  unfold SDClient.to_dict.
  cbn [SDClient.extra_params SDClient.prompt SDClient.negative_prompt SDClient.steps
         SDClient.cfg_scale SDClient.sampler SDClient.scheduler SDClient.seed
         SDClient.width SDClient.height SDClient.batch_size].
  rewrite lookup_union_l.
  2:{ rewrite !lookup_if_insert by done. rewrite !lookup_insert_ne by done.
      apply lookup_empty. }
  change (foldr delete kwargs SDClient.named_parameters !! key
          = if bool_decide (key ∈ SDClient.named_parameters) then None else kwargs !! key).
  case_bool_decide as Hnamed.
  - by apply lookup_foldr_delete.
  - by apply lookup_foldr_delete_not_elem_of.
Qed.

Lemma to_dict_sampler_and_scheduler (kwargs : dict) self :
  SDClient.__init__ kwargs = inr self →
  kwargs !! "sampler_name" = None →
  SDClient.to_dict self !! "sampler_name"
  = (if truthy (get_or kwargs "sampler" VNone) then Some (get_or kwargs "sampler" VNone)
     else None)
  ∧ SDClient.to_dict self !! "scheduler"
    = (if truthy (get_or kwargs "scheduler" VNone)
       then Some (get_or kwargs "scheduler" VNone) else None).
Proof.
  unfold SDClient.__init__.
  destruct (kwargs !! "prompt") as [p|] eqn:Hp; [|done].
  intros [= <-] Hname. unfold SDClient.to_dict.
  cbn [SDClient.extra_params SDClient.prompt SDClient.negative_prompt SDClient.steps
         SDClient.cfg_scale SDClient.sampler SDClient.scheduler SDClient.seed
         SDClient.width SDClient.height SDClient.batch_size].
  split.
  - rewrite lookup_union_r.
    2:{ change (foldr delete kwargs SDClient.named_parameters !! "sampler_name" = None).
        rewrite lookup_foldr_delete_not_elem_of; [done|].
        unfold SDClient.named_parameters. rewrite !not_elem_of_cons.
        repeat split; try discriminate. apply not_elem_of_nil. }
    rewrite lookup_if_insert by discriminate.
    rewrite lookup_if_insert_eq.
    destruct (truthy (get_or kwargs "sampler" VNone)); [done|].
    rewrite !lookup_insert_ne by discriminate. apply lookup_empty.
  - rewrite lookup_union_r.
    2:{ change (foldr delete kwargs SDClient.named_parameters !! "scheduler" = None).
        apply lookup_foldr_delete.
        unfold SDClient.named_parameters. by repeat constructor. }
    rewrite lookup_if_insert_eq.
    destruct (truthy (get_or kwargs "scheduler" VNone)); [done|].
    rewrite lookup_if_insert by discriminate.
    rewrite !lookup_insert_ne by discriminate. apply lookup_empty.
Qed.


Lemma named_cases key :
  key ∈ SDClient.named_parameters →
  key ∈ ["prompt"; "negative_prompt"; "steps"; "cfg_scale"; "seed"; "width"; "height";
         "batch_size"]
  ∨ key = "model_name" ∨ key = "lora_list" ∨ key = "sampler" ∨ key = "scheduler".
Proof.
  unfold SDClient.named_parameters. rewrite !elem_of_cons, !elem_of_nil. tauto.
Qed.


(** *** Storing the metadata row *)

Lemma metadata_kwargs_returns request gs (prompt_result : dict) :
  (∀ key, key ∈ ["prompt"; "steps"; "cfg_scale"; "sampler"; "seed"; "width"; "height"] →
          is_Some (prompt_result !! key)) →
  ∃ kwargs, metadata_kwargs request gs prompt_result = inr kwargs.
Proof.
  intros Hkeys. unfold metadata_kwargs, subscript.
  destruct (Hkeys "prompt") as [v0 ->]; [by repeat constructor|]. cbn [bind].
  destruct (Hkeys "steps") as [v1 ->]; [by repeat constructor|]. cbn [bind].
  destruct (Hkeys "cfg_scale") as [v2 ->]; [by repeat constructor|]. cbn [bind].
  destruct (Hkeys "sampler") as [v3 ->]; [by repeat constructor|]. cbn [bind].
  destruct (Hkeys "seed") as [v4 ->]; [by repeat constructor|]. cbn [bind].
  destruct (Hkeys "width") as [v5 ->]; [by repeat constructor|]. cbn [bind].
  destruct (Hkeys "height") as [v6 ->]; [by repeat constructor|]. cbn [bind].
  by eexists.
Qed.

Lemma metadata_kwargs_columns request gs (prompt_result kwargs : dict) :
  metadata_kwargs request gs prompt_result = inr kwargs →
  Py.get kwargs "request_id" = VStr (id request)
  ∧ Py.get kwargs "model_name" = model_name_of gs prompt_result.
Proof.
  unfold metadata_kwargs, subscript.
  destruct (prompt_result !! "prompt"); cbn [bind]; [|done].
  destruct (prompt_result !! "steps"); cbn [bind]; [|done].
  destruct (prompt_result !! "cfg_scale"); cbn [bind]; [|done].
  destruct (prompt_result !! "sampler"); cbn [bind]; [|done].
  destruct (prompt_result !! "seed"); cbn [bind]; [|done].
  destruct (prompt_result !! "width"); cbn [bind]; [|done].
  destruct (prompt_result !! "height"); cbn [bind]; [|done].
  intros [= <-]. unfold Py.get. split.
  - repeat (rewrite lookup_insert_ne by discriminate). by rewrite lookup_insert_eq.
  - repeat (rewrite lookup_insert_ne by discriminate). by rewrite lookup_insert_eq.
Qed.

(** The NOT NULL columns of the row, by the resolved parameters: the
    request id is a str, the model name is chosen in lines 258-262, the
    other seven are subscripted from the resolved parameters. *)
Lemma not_null_columns request gs (prompt_result kwargs : dict) :
  metadata_kwargs request gs prompt_result = inr kwargs →
  existsb (λ column, is_none (Py.get kwargs column)) NOT_NULL_COLUMNS
  = is_none (model_name_of gs prompt_result)
    || existsb (λ key, is_none (Py.get prompt_result key))
         ["prompt"; "steps"; "cfg_scale"; "sampler"; "seed"; "width"; "height"].
Proof.
  intros H.
  destruct (metadata_kwargs_inr _ _ _ _ H) as (Hkeys & _ & _).
  destruct (metadata_kwargs_columns _ _ _ _ H) as [Hid Hmodel].
  unfold NOT_NULL_COLUMNS. cbn [existsb]. rewrite Hid, Hmodel.
  destruct (Hkeys "prompt") as [_ ->]; [by repeat constructor|].
  destruct (Hkeys "steps") as [_ ->]; [by repeat constructor|].
  destruct (Hkeys "cfg_scale") as [_ ->]; [by repeat constructor|].
  destruct (Hkeys "sampler") as [_ ->]; [by repeat constructor|].
  destruct (Hkeys "seed") as [_ ->]; [by repeat constructor|].
  destruct (Hkeys "width") as [_ ->]; [by repeat constructor|].
  destruct (Hkeys "height") as [_ ->]; [by repeat constructor|].
  cbn [is_none orb].
  destruct (is_none (model_name_of gs prompt_result));
    destruct (is_none (Py.get prompt_result "prompt")); reflexivity.
Qed.

(** What is known when the request data can be built. *)
Lemma txt2img_request_data_inr settings env request gs (prompt_result data : dict) :
  QueueManager.txt2img_request_data settings env request gs prompt_result = inr data →
  ∃ kwargs metadata self,
    metadata_kwargs request gs prompt_result = inr kwargs
    ∧ existsb (λ column, is_none (Py.get kwargs column)) NOT_NULL_COLUMNS = false
    ∧ QueueManager.store_metadata env kwargs = inr metadata
    ∧ len_defined (Py.get metadata "prompt") = inr tt
    ∧ SDClient.__init__ (sd_params_kwargs settings gs metadata) = inr self
    ∧ data = SDClient.to_dict self.
Proof.
  unfold QueueManager.txt2img_request_data, QueueManager.add_commit_refresh.
  destruct (metadata_kwargs request gs prompt_result) as [e|kwargs];
    cbn [outside db_bind]; [done|].
  destruct (existsb _ NOT_NULL_COLUMNS) eqn:Hnull; cbn [db_bind]; [done|].
  destruct (QueueManager.store_metadata env kwargs) as [failure|metadata] eqn:Hstore;
    cbn [db_bind]; [done|].
  destruct (len_defined (Py.get metadata "prompt")) as [e|[]] eqn:Hlen;
    cbn [outside db_bind]; [done|].
  destruct (SDClient.__init__ _) as [e|self] eqn:Hinit; cbn [outside db_bind db_ret]; [done|].
  intros [= <-]. by exists kwargs, metadata, self.
Qed.

(** The request data is built when the row can be stored and comes back
    with a text prompt. *)
Lemma txt2img_request_data_returns settings env request gs
    (prompt_result kwargs metadata : dict) p :
  metadata_kwargs request gs prompt_result = inr kwargs →
  existsb (λ column, is_none (Py.get kwargs column)) NOT_NULL_COLUMNS = false →
  QueueManager.store_metadata env kwargs = inr metadata →
  Py.get metadata "prompt" = VStr p →
  ∃ data,
    QueueManager.txt2img_request_data settings env request gs prompt_result = inr data.
Proof.
  intros Hkw Hnull Hstore Hp.
  unfold QueueManager.txt2img_request_data, QueueManager.add_commit_refresh.
  rewrite Hkw. cbn [outside db_bind]. rewrite Hnull, Hstore. cbn [db_bind].
  rewrite Hp. cbn [len_defined outside db_bind ret].
  unfold SDClient.__init__.
  rewrite (sd_params_kwargs_base settings gs metadata "prompt") by (by repeat constructor).
  cbn [ret outside db_bind db_ret]. by eexists.
Qed.

(** A [None] in a NOT NULL column: the INSERT is refused and the session
    is left inactive. *)
Lemma txt2img_request_data_refused settings env request gs (prompt_result kwargs : dict) :
  metadata_kwargs request gs prompt_result = inr kwargs →
  existsb (λ column, is_none (Py.get kwargs column)) NOT_NULL_COLUMNS = true →
  QueueManager.txt2img_request_data settings env request gs prompt_result
  = inl (QueueManager.integrity_error env kwargs, Inactive).
Proof.
  intros Hkw Hnull.
  unfold QueueManager.txt2img_request_data, QueueManager.add_commit_refresh.
  rewrite Hkw. cbn [outside db_bind]. by rewrite Hnull.
Qed.

(** *** A new request without stored settings *)

(** The resolver on a new request without stored settings and without
    research: it returns, with the defaults filled in, every other entry
    but the negative prompt as the LLM gave it, and the seed drawn when the
    LLM gave none. *)
Lemma new_request_resolved py_str settings rnd (result : dict) :
  ∃ out,
    _apply_defaults py_str settings rnd result None None None = inr out
    ∧ (∀ key dflt,
         (key, dflt) ∈ base_defaults settings →
         out !! key = Some (if is_none (Py.get result key) then dflt else Py.get result key))
    ∧ (∀ key, key ∉ _SD_PARAM_KEYS → key ≠ "negative_prompt" → key ≠ "seed" →
              out !! key = result !! key)
    ∧ out !! "seed"
      = Some (match result !! "seed" with
              | Some v => if eq_int v (-1) then VInt rnd else v
              | None => VInt rnd
              end).
Proof.
  assert (∀ key w, (key, w) ∈ base_defaults settings → key ∈ _SD_PARAM_KEYS) as Hbase.
  { intros key w. unfold base_defaults, _SD_PARAM_KEYS.
    rewrite !elem_of_cons, !elem_of_nil. intros H.
    repeat (destruct H as [[= -> _]|H]; [tauto|]). done. }
  eexists. split; [reflexivity|]. split; [|split].
  - intros key dflt Hin.
    destruct (ResolverProps.sd_key_other key (Hbase _ _ Hin)) as (Hp & Hn & Hs).
    rewrite ResolverProps.apply_seed_lookup_ne,
      ResolverProps.apply_negative_default_lookup_ne by done.
    cbn [previous_into_result previous_into_defaults].
    apply ResolverMore.fill_defaults_lookup_in; [apply ResolverMore.base_defaults_NoDup|done].
  - intros key Hkey Hn Hs.
    rewrite ResolverProps.apply_seed_lookup_ne,
      ResolverProps.apply_negative_default_lookup_ne by done.
    cbn [previous_into_result previous_into_defaults].
    apply ResolverProps.fill_defaults_lookup_notin. intros w Hw. by apply Hkey, (Hbase _ w).
  - rewrite ResolverMore.apply_seed_seed. cbn [explicit_seed].
    rewrite ResolverProps.apply_negative_default_lookup_ne by done.
    cbn [previous_into_result previous_into_defaults].
    rewrite ResolverProps.fill_defaults_lookup_notin; [done|].
    intros w Hw. apply Hbase in Hw. by apply ResolverProps.sd_key_other in Hw as (_ & _ & ?).
Qed.

(** The default pipeline on such a request, when the settings are read,
    research finds nothing or fails and the LLM answers with a text
    prompt: it gets as far as the metadata row. *)
Lemma image_pipeline_new_request settings env request (result : dict) p :
  QueueManager.load_global_settings env request = inr None →
  (∀ theme, QueueManager.research_best_practices env theme = inr None
            ∨ ∃ e, QueueManager.research_best_practices env theme = inl e) →
  QueueManager.llm_suggest env (original_instruction request) None None None = inr result →
  result !! "prompt" = Some (VStr p) →
  ∃ out,
    _apply_defaults (QueueManager.py_str env) settings (QueueManager.rnd env) result
      None None None = inr out
    ∧ QueueManager.image_pipeline settings env request
      = let+ request_data :=
          QueueManager.txt2img_request_data settings env request None out in
        let+ images := outside (QueueManager.sd_txt2img env request_data) in
        QueueManager.save_images env request images.
Proof.
  intros Hload Hresearch Hllm Hp.
  destruct (new_request_resolved (QueueManager.py_str env) settings (QueueManager.rnd env)
              result) as (out & Hout & _ & Hframe & _).
  exists out. split; [exact Hout|].
  unfold QueueManager.image_pipeline. rewrite Hload. cbn [db_bind].
  rewrite (AgentProps.generate_prompt_returns _ _ _ _ _ _ None _ result out p).
  - reflexivity.
  - intros _. unfold _perform_web_research, try_except.
    destruct (existsb _ _); [done|].
    by destruct (Hresearch (original_instruction request)) as [->|[e ->]].
  - exact Hllm.
  - exact Hout.
  - rewrite Hframe; [done| |done|done].
    unfold _SD_PARAM_KEYS. rewrite !not_elem_of_cons.
    repeat split; try discriminate. apply not_elem_of_nil.
Qed.

(** *** The default pipeline once a prompt is generated *)

Lemma image_pipeline_generated settings env request gs (prompt_result : dict) :
  QueueManager.load_global_settings env request = inr gs →
  generate_prompt (QueueManager.py_str env) settings (QueueManager.rnd env)
    (QueueManager.research_best_practices env) (QueueManager.llm_suggest env)
    (original_instruction request) None gs (web_research request) = inr prompt_result →
  QueueManager.image_pipeline settings env request
  = let+ request_data :=
      QueueManager.txt2img_request_data settings env request gs prompt_result in
    let+ images := outside (QueueManager.sd_txt2img env request_data) in
    QueueManager.save_images env request images.
Proof.
  intros Hload Hgen. unfold QueueManager.image_pipeline.
  rewrite Hload. cbn [db_bind]. rewrite Hgen. reflexivity.
Qed.

(** For a generated prompt the metadata row can be built, and of its NOT
    NULL columns only the model name, the sampler and the seed can be
    [None]. *)
Lemma generated_metadata py_str settings rnd research llm instr pm gs wr request
    (prompt_result : dict) :
  generate_prompt py_str settings rnd research llm instr pm gs wr = inr prompt_result →
  ∃ kwargs,
    metadata_kwargs request gs prompt_result = inr kwargs
    ∧ existsb (λ column, is_none (Py.get kwargs column)) NOT_NULL_COLUMNS
      = is_none (model_name_of gs prompt_result)
        || is_none (Py.get prompt_result "sampler")
        || is_none (Py.get prompt_result "seed").
Proof.
  intros Hgen.
  apply AgentMore.generated_prompt_filled in Hgen as (Hkeys & Hnum & Hprompt).
  destruct (metadata_kwargs_returns request gs prompt_result Hkeys) as [kwargs Hkw].
  exists kwargs. split; [exact Hkw|].
  rewrite (not_null_columns _ _ _ _ Hkw). cbn [existsb].
  rewrite Hprompt.
  rewrite (Hnum "steps"), (Hnum "cfg_scale"), (Hnum "width"), (Hnum "height")
    by (by repeat constructor).
  cbn [orb]. by rewrite orb_false_r, orb_assoc.
Qed.

End RequestProps.

(* ===================================================================== *)
(** ** Properties of the queue manager *)
(* ===================================================================== *)

Module QueueProps.
Import QueueManager Notions.

(** *** The order on tasks *)

Lemma task_lt_priority a b :
  (priority a < priority b)%Z → task_lt a b = true ∧ task_lt b a = false.
Proof.
  intros H. unfold task_lt.
  destruct (Z.eqb_spec (priority a) (priority b)) as [E|_]; [lia|].
  destruct (Z.eqb_spec (priority b) (priority a)) as [E|_]; [lia|].
  simpl. split; [by apply Z.ltb_lt | apply Z.ltb_ge; lia].
Qed.

Lemma string_ltb_asym a b : String.ltb a b = true → String.ltb b a = false.
Proof.
  unfold String.ltb. rewrite (String.compare_antisym a b).
  by destruct (String.compare b a).
Qed.

Lemma task_lt_asym a b : task_lt a b = true → task_lt b a = false.
Proof.
  unfold task_lt.
  rewrite (Z.eqb_sym (priority b)), (String.eqb_sym (request_id b)).
  destruct (Z.eqb_spec (priority a) (priority b)) as [_|_]; simpl.
  2:{ rewrite !Z.ltb_lt, Z.ltb_ge. lia. }
  destruct (String.eqb (request_id a) (request_id b)); simpl.
  2:{ apply string_ltb_asym. }
  destruct (use_gemini a), (use_gemini b), (use_xai a), (use_xai b); done.
Qed.

(** *** The request table *)

Lemma _get_request_id rows request_id r :
  _get_request rows request_id = Some r → id r = request_id.
Proof.
  unfold _get_request. intros H. apply find_some in H as [_ H].
  by apply String.eqb_eq.
Qed.

Lemma _get_request_commit_row rows request_id f :
  (∀ r, id (f r) = id r) →
  _get_request (commit_row request_id f rows) request_id
  = f <$> _get_request rows request_id.
Proof.
  intros Hid. unfold _get_request.
  induction rows as [|r rows IH]; [done|]. simpl.
  destruct (String.eqb (id r) request_id) eqn:E; simpl.
  - by rewrite Hid, E.
  - by rewrite E.
Qed.

Lemma _get_request_commit_row_ne rows request_id other f :
  (∀ r, id (f r) = id r) → other ≠ request_id →
  _get_request (commit_row request_id f rows) other = _get_request rows other.
Proof.
  intros Hid Hne. unfold _get_request.
  induction rows as [|r rows IH]; [done|]. simpl.
  destruct (String.eqb (id r) request_id) eqn:E; simpl.
  - apply String.eqb_eq in E. rewrite Hid.
    destruct (String.eqb (id r) other) eqn:E'; [|done].
    apply String.eqb_eq in E'. congruence.
  - destruct (String.eqb (id r) other); [done|apply IH].
Qed.

(** A commit on the fetched row keeps what holds of every row, when the
    mutation keeps it on that row. *)
Lemma Forall_commit_row (P : GenerationRequest → Prop) rows request_id f :
  Forall P rows →
  (∀ r, _get_request rows request_id = Some r → P r → P (f r)) →
  Forall P (commit_row request_id f rows).
Proof.
  unfold _get_request. induction rows as [|r rows IH]; intros Hall Hf; [done|].
  inversion Hall as [|? ? Hr Hrows]; subst. simpl in *.
  destruct (String.eqb (id r) request_id).
  - constructor; [by apply Hf|done].
  - constructor; [done|by apply IH].
Qed.

(** *** One round of the worker *)

Lemma process_with_not_found env pipeline rows request_id :
  _get_request rows request_id = None →
  process_with env pipeline rows request_id
  = (rows, raise (DatabaseError ("Request not found: " ++ request_id))).
Proof. unfold process_with. by intros ->. Qed.

Lemma process_with_returns env pipeline rows request_id request :
  _get_request rows request_id = Some request →
  pipeline request = inr tt →
  process_with env pipeline rows request_id
  = (commit_row request_id (with_status COMPLETED)
       (commit_row request_id (with_status PROCESSING) rows), ret tt).
Proof. unfold process_with. by intros -> ->. Qed.

Lemma process_with_raises env pipeline rows request_id request e :
  _get_request rows request_id = Some request →
  pipeline request = inl (e, Active) →
  process_with env pipeline rows request_id
  = (commit_row request_id (λ r, with_error_message (failure_text e) (with_status FAILED r))
       (commit_row request_id (with_status PROCESSING) rows), raise e).
Proof. unfold process_with. by intros -> ->. Qed.

Lemma process_with_inactive env pipeline rows request_id request e :
  _get_request rows request_id = Some request →
  pipeline request = inl (e, Inactive) →
  process_with env pipeline rows request_id
  = (commit_row request_id (with_status PROCESSING) rows,
     raise (pending_rollback_error env e)).
Proof. unfold process_with. by intros -> ->. Qed.

(** The round, with the orchestrator named by the task's mode. *)
Lemma worker_iteration_unfold settings env w task q :
  is_running w = true →
  get (queue w) = Some (task, q) →
  worker_iteration settings env w
  = let '(rows, outcome) :=
      process_with env (pipeline_of settings env (mode_of task)) (db w) (request_id task) in
    let w1 :=
      set_db rows (add_log [Dispatched (mode_of task) (request_id task)] (set_queue q w)) in
    match (let* _ := outcome in
           let* q' := task_done (queue w1) in
           ret (add_log [TaskDone] (set_queue q' w1))) with
    | inr w2 => (w2, Continue)
    | inl e =>
        (add_log [LoggedException ("Error in worker loop: " ++ exn_str e);
                  Slept (queue_error_retry_interval settings)] w1,
         Continue)
    end.
Proof.
  intros Hrun Hget. unfold worker_iteration. rewrite Hrun, Hget.
  unfold mode_of, _process_gemini_generation, _process_xai_generation,
    _process_image_generation.
  destruct (use_gemini task), (use_xai task); reflexivity.
Qed.

(** A round in which the pipeline raises. *)
Lemma worker_iteration_raises settings env w task q request e :
  is_running w = true →
  get (queue w) = Some (task, q) →
  _get_request (db w) (request_id task) = Some request →
  pipeline_of settings env (mode_of task) request = inl (e, Active) →
  worker_iteration settings env w
  = ({| is_running := true; worker_task := worker_task w; queue := q;
        db := commit_row (request_id task)
                (λ r, with_error_message (failure_text e) (with_status FAILED r))
                (commit_row (request_id task) (with_status PROCESSING) (db w));
        log := (log w ++ [Dispatched (mode_of task) (request_id task)])
               ++ [LoggedException ("Error in worker loop: " ++ exn_str e);
                   Slept (queue_error_retry_interval settings)] |},
     Continue).
Proof.
  intros Hrun Hget Hreq Hpipe.
  rewrite (worker_iteration_unfold settings env w task q Hrun Hget).
  rewrite (process_with_raises _ _ _ _ request e Hreq Hpipe).
  unfold add_log, set_db, set_queue. simpl. by rewrite Hrun.
Qed.

(** A round in which the pipeline raises and leaves the session inactive:
    the handler's commit raises in its turn. *)
Lemma worker_iteration_inactive settings env w task q request e :
  is_running w = true →
  get (queue w) = Some (task, q) →
  _get_request (db w) (request_id task) = Some request →
  pipeline_of settings env (mode_of task) request = inl (e, Inactive) →
  worker_iteration settings env w
  = ({| is_running := true; worker_task := worker_task w; queue := q;
        db := commit_row (request_id task) (with_status PROCESSING) (db w);
        log := (log w ++ [Dispatched (mode_of task) (request_id task)])
               ++ [LoggedException
                     ("Error in worker loop: " ++ exn_str (pending_rollback_error env e));
                   Slept (queue_error_retry_interval settings)] |},
     Continue).
Proof.
  intros Hrun Hget Hreq Hpipe.
  rewrite (worker_iteration_unfold settings env w task q Hrun Hget).
  rewrite (process_with_inactive _ _ _ _ request e Hreq Hpipe).
  unfold add_log, set_db, set_queue. simpl. by rewrite Hrun.
Qed.

(** A round in which the pipeline returns. *)
Lemma worker_iteration_returns settings env w task q request :
  is_running w = true →
  get (queue w) = Some (task, q) →
  _get_request (db w) (request_id task) = Some request →
  pipeline_of settings env (mode_of task) request = inr tt →
  (0 < _unfinished_tasks q)%Z →
  worker_iteration settings env w
  = ({| is_running := true; worker_task := worker_task w;
        queue := {| _queue := _queue q; _unfinished_tasks := _unfinished_tasks q - 1 |};
        db := commit_row (request_id task) (with_status COMPLETED)
                (commit_row (request_id task) (with_status PROCESSING) (db w));
        log := (log w ++ [Dispatched (mode_of task) (request_id task)]) ++ [TaskDone] |},
     Continue).
Proof.
  intros Hrun Hget Hreq Hpipe Hunf.
  rewrite (worker_iteration_unfold settings env w task q Hrun Hget).
  rewrite (process_with_returns _ _ _ _ request Hreq Hpipe).
  unfold add_log, set_db, set_queue, task_done. simpl.
  destruct (Z.leb_spec (_unfinished_tasks q) 0) as [?|_]; [lia|].
  simpl. by rewrite Hrun.
Qed.

(** Whatever the collaborators answer, a round that finds a task takes it
    off the queue, hands its request to an orchestrator and goes on. *)
Lemma worker_iteration_takes settings env w task q :
  is_running w = true →
  get (queue w) = Some (task, q) →
  let r := worker_iteration settings env w in
  r.2 = Continue ∧ is_running r.1 = true ∧ _queue (queue r.1) = _queue q
  ∧ processed r.1 = (processed w ++ [request_id task])%list.
Proof.
  intros Hrun Hget r. unfold r.
  rewrite (worker_iteration_unfold settings env w task q Hrun Hget).
  destruct (process_with _ _ _ _) as [rows [e|[]]]; simpl.
  - unfold processed. simpl. rewrite !omap_app. simpl.
    by rewrite Hrun, app_nil_r.
  - unfold task_done. destruct (_ <=? 0)%Z; simpl;
      unfold processed; simpl; rewrite !omap_app; simpl;
      by rewrite Hrun, app_nil_r.
Qed.

(** *** The sample collaborators *)

Lemma sample_llm_sampler : Samples.llm_answer !! "sampler" = Some (VStr "DDIM").
Proof.
  unfold Samples.llm_answer.
  repeat (rewrite lookup_insert_ne by discriminate). apply lookup_insert_eq.
Qed.

Lemma sample_llm_other key :
  key ∉ ["prompt"; "negative_prompt"; "steps"; "cfg_scale"; "sampler"; "scheduler";
         "width"; "height"] →
  Samples.llm_answer !! key = None.
Proof.
  rewrite !not_elem_of_cons. intros (H1 & H2 & H3 & H4 & H5 & H6 & H7 & H8 & _).
  unfold Samples.llm_answer. rewrite !lookup_insert_ne by done. apply lookup_empty.
Qed.

(** The sample LLM answer, with its sampler or without, against the
    application defaults: what is resolved for the NOT NULL columns that
    can be [None]. *)
Lemma sample_resolved py_str rnd (result : dict) :
  result = Samples.llm_answer ∨ result = Samples.llm_answer_without_sampler →
  ∃ out,
    PromptAgent._apply_defaults py_str Samples.app_settings rnd result None None None
    = inr out
    ∧ result !! "prompt" = Some (VStr "a red fox in snow")
    ∧ SettingsFlow.model_name_of None out = VStr "default"
    ∧ Py.get out "sampler" = Py.get result "sampler"
    ∧ Py.get out "seed" = VInt rnd.
Proof.
  intros Hresult.
  assert (result !! "prompt" = Some (VStr "a red fox in snow")) as Hprompt.
  { destruct Hresult as [->| ->]; [apply ResolverProps.sample_llm_prompt|].
    unfold Samples.llm_answer_without_sampler. rewrite lookup_insert_ne by discriminate.
    apply ResolverProps.sample_llm_prompt. }
  assert (∀ key, key = "seed" ∨ key = "model_name" → result !! key = None) as Hnone.
  { intros key Hkey.
    assert (Samples.llm_answer !! key = None) as Hllm.
    { apply sample_llm_other. rewrite !not_elem_of_cons.
      destruct Hkey as [->| ->]; repeat split; try discriminate; apply not_elem_of_nil. }
    destruct Hresult as [->| ->]; [exact Hllm|].
    unfold Samples.llm_answer_without_sampler. rewrite lookup_insert_ne; [exact Hllm|].
    destruct Hkey as [->| ->]; discriminate. }
  destruct (RequestProps.new_request_resolved py_str Samples.app_settings rnd result)
    as (out & Hout & Hbase & Hframe & Hseed).
  exists out. split; [exact Hout|]. split; [exact Hprompt|]. split; [|split].
  - unfold SettingsFlow.model_name_of. cbn [SettingsFlow.has].
    rewrite Hframe, Hnone; [done|by right| |done|done].
    unfold PromptAgent._SD_PARAM_KEYS. rewrite !not_elem_of_cons.
    repeat split; try discriminate. apply not_elem_of_nil.
  - unfold Py.get at 1.
    rewrite (Hbase "sampler" VNone).
    2:{ unfold PromptAgent.base_defaults. cbn [default_sampler Samples.app_settings of_opt_str].
        do 2 apply list_elem_of_further. apply list_elem_of_here. }
    cbn [default]. by destruct (is_none (Py.get result "sampler")) eqn:E;
      [destruct (Py.get result "sampler")|].
  - unfold Py.get. rewrite Hseed, Hnone by (by left). reflexivity.
Qed.

(** With the sample LLM, no stored settings and a database that gives the
    row back as stored, the default pipeline gets as far as the provider
    call. *)
Lemma sample_image_pipeline env request :
  llm_suggest env = Samples.llm_fixed →
  load_global_settings env = (λ _, db_ret None) →
  store_metadata env = Samples.stored_as_given →
  (∀ theme, research_best_practices env theme = inr None
            ∨ ∃ e, research_best_practices env theme = inl e) →
  ∃ request_data,
    image_pipeline Samples.app_settings env request
    = let+ images := outside (sd_txt2img env request_data) in
      save_images env request images.
Proof.
  intros Hllm Hload Hstore Hresearch.
  destruct (sample_resolved (py_str env) (rnd env) Samples.llm_answer (or_introl eq_refl))
    as (out & Hout & Hprompt & Hmodel & Hsampler & Hseed).
  destruct (RequestProps.image_pipeline_new_request Samples.app_settings env request
              Samples.llm_answer "a red fox in snow")
    as (out' & Hout' & ->); [by rewrite Hload|done|by rewrite Hllm|done|].
  rewrite Hout in Hout'. injection Hout' as <-.
  destruct (ResolverMore._apply_defaults_filled _ _ _ _ _ _ _ _ Hout)
    as (Hkeys & Hnum & _ & Hs).
  destruct (RequestProps.new_request_resolved (py_str env) Samples.app_settings (rnd env)
              Samples.llm_answer) as (out' & Hout' & _ & Hframe & _).
  rewrite Hout in Hout'. injection Hout' as <-.
  assert (out !! "prompt" = Some (VStr "a red fox in snow")) as Hp.
  { rewrite Hframe; [done| |done|done].
    unfold PromptAgent._SD_PARAM_KEYS. rewrite !not_elem_of_cons.
    repeat split; try discriminate. apply not_elem_of_nil. }
  destruct (RequestProps.metadata_kwargs_returns request None out) as [kwargs Hkw].
  { intros key. rewrite !elem_of_cons, elem_of_nil.
    intros [->|[->|[->|[->|[->|[->|[->|[]]]]]]]]; try done; try (by eexists);
      apply Hkeys; unfold PromptAgent._SD_PARAM_KEYS; by repeat constructor. }
  destruct (RequestProps.txt2img_request_data_returns Samples.app_settings env request None
              out kwargs kwargs "a red fox in snow") as [data ->].
  - exact Hkw.
  - rewrite (RequestProps.not_null_columns _ _ _ _ Hkw). cbn [existsb].
    rewrite Hmodel, Hsampler, Hseed.
    rewrite (Hnum "steps"), (Hnum "cfg_scale"), (Hnum "width"), (Hnum "height")
      by (by repeat constructor).
    unfold Py.get. by rewrite Hp, sample_llm_sampler.
  - by rewrite Hstore.
  - destruct (RequestProps.metadata_kwargs_inr _ _ _ _ Hkw) as (Hk & _ & _).
    destruct (Hk "prompt") as [_ ->]; [by repeat constructor|].
    unfold Py.get. by rewrite Hp.
  - by exists data.
Qed.

Lemma sample_image_pipeline_ok request :
  image_pipeline Samples.app_settings Samples.env_ok request = inr tt.
Proof.
  destruct (sample_image_pipeline Samples.env_ok request) as [data ->];
    try reflexivity.
  intros theme. by left.
Qed.

Lemma sample_image_pipeline_timeout request :
  image_pipeline Samples.app_settings Samples.env_timeout request
  = inl (StableDiffusionTimeoutError "Stable Diffusion API timeout", Active).
Proof.
  destruct (sample_image_pipeline Samples.env_timeout request) as [data ->];
    try reflexivity.
  intros theme. by left.
Qed.

Lemma sample_image_pipeline_research_down request :
  image_pipeline Samples.app_settings Samples.env_research_down request = inr tt.
Proof.
  destruct (sample_image_pipeline Samples.env_research_down request) as [data ->];
    try reflexivity.
  intros theme. right. by eexists.
Qed.

(** With an LLM answer that names no sampler and no default sampler
    configured, the INSERT of the metadata row is refused. *)
Lemma sample_image_pipeline_refused request :
  image_pipeline Samples.app_settings Samples.env_without_sampler request
  = inl (PyException "IntegrityError" "NOT NULL constraint failed", Inactive).
Proof.
  destruct (sample_resolved Samples.no_text 0 Samples.llm_answer_without_sampler
              (or_intror eq_refl)) as (out & Hout & Hprompt & Hmodel & Hsampler & Hseed).
  destruct (RequestProps.image_pipeline_new_request Samples.app_settings
              Samples.env_without_sampler request Samples.llm_answer_without_sampler
              "a red fox in snow")
    as (out' & Hout' & ->); [done|by left|done|done|].
  cbn [py_str rnd Samples.env_without_sampler] in Hout'.
  rewrite Hout in Hout'. injection Hout' as <-.
  destruct (ResolverMore._apply_defaults_filled _ _ _ _ _ _ _ _ Hout)
    as (Hkeys & Hnum & _ & Hs).
  destruct (RequestProps.new_request_resolved Samples.no_text Samples.app_settings 0
              Samples.llm_answer_without_sampler) as (out' & Hout' & _ & Hframe & _).
  rewrite Hout in Hout'. injection Hout' as <-.
  destruct (RequestProps.metadata_kwargs_returns request None out) as [kwargs Hkw].
  { intros key. rewrite !elem_of_cons, elem_of_nil.
    intros [->|[->|[->|[->|[->|[->|[->|[]]]]]]]]; try done;
      try (apply Hkeys; unfold PromptAgent._SD_PARAM_KEYS; by repeat constructor).
    rewrite Hframe; [by eexists| |done|done].
    unfold PromptAgent._SD_PARAM_KEYS. rewrite !not_elem_of_cons.
    repeat split; try discriminate. apply not_elem_of_nil. }
  rewrite (RequestProps.txt2img_request_data_refused _ _ _ _ _ kwargs Hkw).
  - reflexivity.
  - rewrite (RequestProps.not_null_columns _ _ _ _ Hkw). cbn [existsb].
    rewrite Hsampler. unfold Samples.llm_answer_without_sampler, Py.get at 4.
    rewrite lookup_insert_eq. cbn [default is_none]. by rewrite !orb_true_r.
Qed.

(** The prompt that is generated from that answer has no sampler. *)
Lemma sample_generated_without_sampler instr wr :
  ∃ out,
    PromptAgent.generate_prompt Samples.no_text Samples.app_settings 0 (λ _, ret None)
      (λ _ _ _ _, ret Samples.llm_answer_without_sampler) instr None None wr = inr out
    ∧ Py.get out "sampler" = VNone.
Proof.
  destruct (sample_resolved Samples.no_text 0 Samples.llm_answer_without_sampler
              (or_intror eq_refl)) as (out & Hout & Hprompt & _ & Hsampler & _).
  destruct (RequestProps.new_request_resolved Samples.no_text Samples.app_settings 0
              Samples.llm_answer_without_sampler) as (out' & Hout' & _ & Hframe & _).
  rewrite Hout in Hout'. injection Hout' as <-.
  exists out. split.
  - eapply AgentProps.generate_prompt_returns; [|reflexivity|exact Hout|].
    + intros _. unfold PromptAgent._perform_web_research, try_except.
      by destruct (existsb _ _).
    + rewrite Hframe; [exact Hprompt| |done|done].
      unfold PromptAgent._SD_PARAM_KEYS. rewrite !not_elem_of_cons.
      repeat split; try discriminate. apply not_elem_of_nil.
  - rewrite Hsampler. unfold Samples.llm_answer_without_sampler, Py.get.
    by rewrite lookup_insert_eq.
Qed.

(** *** Enqueueing and the order of service *)

Lemma task_lt_total a b : task_lt a b = false → task_lt b a = false → a = b.
Proof.
  unfold task_lt.
  rewrite (Z.eqb_sym (priority b)), (String.eqb_sym (request_id b)).
  destruct a as [pa ra ga xa], b as [pb rb gb xb]; cbn [priority request_id use_gemini use_xai].
  destruct (Z.eqb_spec pa pb) as [->|Hp]; cbn [negb].
  2:{ rewrite !Z.ltb_ge. intros ? ?. exfalso. lia. }
  destruct (String.eqb_spec ra rb) as [->|Hr]; cbn [negb].
  2:{ unfold String.ltb. rewrite (String.compare_antisym ra rb).
      destruct (String.compare rb ra) eqn:E; cbn [CompOpp]; intros H1 H2;
        try discriminate.
      apply String.compare_eq_iff in E. congruence. }
  destruct ga, gb, xa, xb; done.
Qed.

Lemma enqueue_as_spec mode request_id priority w :
  enqueue_as mode request_id priority w
  = set_queue (put (queue w) (task_of mode request_id priority)) w.
Proof. by destruct mode. Qed.

(** A round of the worker loop on a running manager with a task at hand. *)
Lemma worker_loop_round settings env envs w task heap :
  is_running w = true →
  Heapq.heappop task_lt (_queue (queue w)) = Some (task, heap) →
  ∃ w', _worker_loop settings (env :: envs) w = _worker_loop settings envs w'
        ∧ is_running w' = true
        ∧ _queue (queue w') = heap
        ∧ processed w' = (processed w ++ [request_id task])%list.
Proof.
  intros Hrun Hpop.
  assert (get (queue w)
          = Some (task, {| _queue := heap;
                           _unfinished_tasks := _unfinished_tasks (queue w) |})) as Hget.
  { unfold get. by rewrite Hpop. }
  destruct (worker_iteration_takes settings env w _ _ Hrun Hget) as (Hst & Hrun' & Hq & Hp).
  cbn [_worker_loop].
  destruct (worker_iteration settings env w) as [w' st]. cbn [fst snd] in *. subst st.
  by exists w'.
Qed.

(** *** Crash recovery *)

Lemma filter_perm {A : Type} (f : A → bool) (l l' : list A) :
  l ≡ₚ l' → List.filter f l ≡ₚ List.filter f l'.
Proof.
  induction 1 as [|x l l' _ IH|x y l|l l1 l2 _ IH1 _ IH2]; simpl.
  - done.
  - destruct (f x); [by f_equiv|done].
  - destruct (f x), (f y); try done. apply perm_swap.
  - by rewrite IH1.
Qed.

Lemma foldl_put_queue (l : list GenerationRequest) q :
  _queue (foldl (λ q request, put q (restored_task request)) q l)
  = foldl (λ h request, Heapq.heappush task_lt h (restored_task request)) (_queue q) l.
Proof. revert q. induction l as [|r l IH]; intros q; [done|]. simpl. by rewrite IH. Qed.

Lemma foldl_put_count (l : list GenerationRequest) q :
  _unfinished_tasks (foldl (λ q request, put q (restored_task request)) q l)
  = (_unfinished_tasks q + Z.of_nat (length l))%Z.
Proof.
  revert q. induction l as [|r l IH]; intros q; simpl; [lia|].
  rewrite IH. simpl. lia.
Qed.

(** What [start] does on a manager that is not running. *)
Lemma start_spec w :
  is_running w = false →
  is_running (start w) = true
  ∧ worker_task (start w) = Some true
  ∧ log (start w) = log w
  ∧ db (start w) = map (λ r, if unfinished r then with_status PENDING r else r) (db w)
  ∧ _queue (queue (start w))
    ≡ₚ _queue (queue w) ++ map restored_task (List.filter unfinished (db w))
  ∧ _unfinished_tasks (queue (start w))
    = (_unfinished_tasks (queue w)
       + Z.of_nat (length (List.filter unfinished (db w))))%Z.
Proof.
  intros Hrun. unfold start. rewrite Hrun.
  cbn [is_running worker_task log db queue _restore_pending_requests set_db set_queue].
  repeat split.
  - rewrite foldl_put_queue. apply HeapProps.foldl_heappush_perm.
  - apply foldl_put_count.
Qed.

(** *** The invariant on error messages *)

Lemma enqueue_as_db mode request_id priority w :
  db (enqueue_as mode request_id priority w) = db w.
Proof. by destruct mode. Qed.

Lemma start_db w :
  db (start w) = db w
  ∨ db (start w) = map (λ r, if unfinished r then with_status PENDING r else r) (db w).
Proof. unfold start. destruct (is_running w); [by left|by right]. Qed.

Lemma stop_db w : db (stop w) = db w.
Proof. unfold stop. by destruct (negb _). Qed.

(** The table after a round: that of the orchestrator, if one ran. *)
Lemma worker_iteration_db settings env w :
  db (worker_iteration settings env w).1 = db w
  ∨ ∃ task q,
      get (queue w) = Some (task, q)
      ∧ db (worker_iteration settings env w).1
        = (process_with env (pipeline_of settings env (mode_of task)) (db w)
             (request_id task)).1.
Proof.
  destruct (is_running w) eqn:Hrun.
  2:{ left. unfold worker_iteration. by rewrite Hrun. }
  destruct (get (queue w)) as [[task q]|] eqn:Hget.
  2:{ left. unfold worker_iteration. by rewrite Hrun, Hget. }
  right. exists task, q. split; [done|].
  rewrite (worker_iteration_unfold settings env w task q Hrun Hget).
  destruct (process_with _ _ _ _) as [rows [e|[]]]; cbn [bind fst]; [done|].
  by destruct (task_done _).
Qed.

Lemma process_with_keeps (P : GenerationRequest → Prop) env pipeline rows request_id :
  Forall P rows →
  (∀ r, _get_request rows request_id = Some r →
        P (with_status PROCESSING r)
        ∧ P (with_status COMPLETED r)
        ∧ ∀ msg, P (with_error_message msg (with_status FAILED r))) →
  Forall P (process_with env pipeline rows request_id).1.
Proof.
  intros Hall HP. unfold process_with.
  destruct (_get_request rows request_id) as [request|] eqn:Hreq; [|done].
  destruct (HP request eq_refl) as (Hproc & Hcomp & Hfail).
  assert (Forall P (commit_row request_id (with_status PROCESSING) rows)) as Hall1.
  { apply Forall_commit_row; [done|]. intros r Hr _. congruence. }
  assert (_get_request (commit_row request_id (with_status PROCESSING) rows) request_id
          = Some (with_status PROCESSING request)) as Hreq1.
  { rewrite _get_request_commit_row by done. by rewrite Hreq. }
  destruct (pipeline request) as [[e []]|u]; cbn [fst]; [|exact Hall1|];
    (apply Forall_commit_row; [done|]); intros r Hr _;
    rewrite Hreq1 in Hr; injection Hr as <-; [apply Hfail|apply Hcomp].
Qed.

Lemma step_keeps_failed_has_message settings guard w w' :
  step settings guard w w' →
  Forall failed_has_message (db w) → Forall failed_has_message (db w').
Proof.
  intros Hstep Hall. destruct Hstep as [w r Hst Hmsg Hfresh|w mode rid prio|w|w|w env Hguard].
  - cbn [set_db db]. apply Forall_app. split; [done|].
    constructor; [|done]. unfold failed_has_message. congruence.
  - by rewrite enqueue_as_db.
  - destruct (start_db w) as [->| ->]; [done|].
    apply Forall_map. eapply Forall_impl; [exact Hall|].
    intros r Hr. destruct (unfinished r); [|done]. by intros [=].
  - by rewrite stop_db.
  - destruct (worker_iteration_db settings env w) as [->|(task & q & _ & ->)]; [done|].
    apply process_with_keeps; [done|]. intros r _. repeat split; try by intros [=].
    intros msg _. by eexists.
Qed.

Lemma step_keeps_message_iff_failed settings w w' :
  step settings next_never_failed w w' →
  Forall message_iff_failed (db w) → Forall message_iff_failed (db w').
Proof.
  intros Hstep Hall. destruct Hstep as [w r Hst Hmsg Hfresh|w mode rid prio|w|w|w env Hguard].
  - cbn [set_db db]. apply Forall_app. split; [done|].
    constructor; [|done]. unfold message_iff_failed. rewrite Hst, Hmsg.
    split; [by intros [? [=]]|by intros [=]].
  - by rewrite enqueue_as_db.
  - destruct (start_db w) as [->| ->]; [done|].
    apply Forall_map. eapply Forall_impl; [exact Hall|].
    intros r Hr. destruct (unfinished r) eqn:Hu; [|exact Hr].
    unfold message_iff_failed in *. cbn [with_status status error_message].
    split; [|by intros [=]].
    intros Hsome. apply Hr in Hsome. unfold unfinished in Hu.
    rewrite Hsome in Hu. discriminate.
  - by rewrite stop_db.
  - destruct (worker_iteration_db settings env w) as [->|(task & q & Hget & ->)]; [done|].
    apply process_with_keeps; [done|]. intros r Hr.
    pose proof (Hguard task q r Hget Hr) as Hnone.
    unfold message_iff_failed. cbn [with_status with_error_message status error_message].
    rewrite Hnone. repeat split; try (by intros [? [=]]); by intros [=].
Qed.

(** *** Main results on the queue manager *)

(** C6 fails on the code. A round of the worker in which the orchestrator
    raises leaves the loop through the exception handler: the log shows the
    error and the sleep but no [task_done], and the queue still counts the
    task as unfinished. The same round with collaborators that answer does
    call [task_done]. *)
Lemma task_done_skipped_when_pipeline_raises :
  let w := start (init [Samples.request_1]) in
  let failed := (worker_iteration Samples.app_settings Samples.env_timeout w).1 in
  let succeeded := (worker_iteration Samples.app_settings Samples.env_ok w).1 in
  _unfinished_tasks (queue w) = 1%Z
  ∧ log failed
    = [Dispatched DefaultSD "req-1";
       LoggedException "Error in worker loop: Stable Diffusion API timeout";
       Slept Samples.f5]
  ∧ _unfinished_tasks (queue failed) = 1%Z
  ∧ log succeeded = [Dispatched DefaultSD "req-1"; TaskDone]
  ∧ _unfinished_tasks (queue succeeded) = 0%Z.
Proof.
  intros w failed succeeded.
  assert (get (queue w)
          = Some (restored_task Samples.request_1,
                  {| _queue := []; _unfinished_tasks := 1 |})) as Hget by reflexivity.
  assert (_get_request (db w) "req-1" = Some Samples.request_1) as Hreq by reflexivity.
  unfold failed, succeeded.
  rewrite (worker_iteration_raises Samples.app_settings Samples.env_timeout w _ _
             Samples.request_1
             (StableDiffusionTimeoutError "Stable Diffusion API timeout")
             eq_refl Hget Hreq (sample_image_pipeline_timeout _)).
  rewrite (worker_iteration_returns Samples.app_settings Samples.env_ok w _ _
             Samples.request_1 eq_refl Hget Hreq (sample_image_pipeline_ok _) eq_refl).
  repeat split.
Qed.

(** C7 fails on the code. The handlers of the orchestrators commit on the
    session of the [try] block without a [rollback()]. With the configured
    defaults (no default sampler) and an LLM answer that names no sampler,
    the INSERT of the metadata row violates the NOT NULL constraint on
    [sampler]; the flush raises and leaves the session inactive, so the
    handler's [commit()] raises in its turn: the request is not marked
    FAILED, it stays PROCESSING without an error message, and the exception
    that reaches the worker loop is the one of the handler's commit. The
    same request with a provider that times out is marked FAILED. *)
Lemma flush_error_leaves_the_request_processing :
  let w := start (init [Samples.request_1]) in
  let stuck := (worker_iteration Samples.app_settings Samples.env_without_sampler w).1 in
  let failed := (worker_iteration Samples.app_settings Samples.env_timeout w).1 in
  db stuck = [with_status PROCESSING Samples.request_1]
  ∧ log stuck
    = [Dispatched DefaultSD "req-1";
       LoggedException
         ("Error in worker loop: "
          ++ exn_str (Samples.commit_refused
                        (PyException "IntegrityError" "NOT NULL constraint failed")));
       Slept Samples.f5]
  ∧ db failed
    = [with_error_message "Stable Diffusion API timeout"
         (with_status FAILED Samples.request_1)].
Proof.
  intros w stuck failed.
  assert (get (queue w)
          = Some (restored_task Samples.request_1,
                  {| _queue := []; _unfinished_tasks := 1 |})) as Hget by reflexivity.
  assert (_get_request (db w) "req-1" = Some Samples.request_1) as Hreq by reflexivity.
  unfold stuck, failed.
  rewrite (worker_iteration_inactive Samples.app_settings Samples.env_without_sampler w _ _
             Samples.request_1
             (PyException "IntegrityError" "NOT NULL constraint failed")
             eq_refl Hget Hreq (sample_image_pipeline_refused _)).
  rewrite (worker_iteration_raises Samples.app_settings Samples.env_timeout w _ _
             Samples.request_1
             (StableDiffusionTimeoutError "Stable Diffusion API timeout")
             eq_refl Hget Hreq (sample_image_pipeline_timeout _)).
  repeat split.
Qed.

(** X28. When the pipeline of the task at the head of the queue raises an
    exception that leaves the session usable (an error of a provider or of
    the prompt agent, not a failed flush), the orchestrator commits FAILED
    with the exception's message on the request and raises again; the
    worker logs the error, sleeps [queue_error_retry_interval] and goes on
    with the loop, still running. A task enqueued afterwards for another
    request is then processed by the same worker, to COMPLETED when its
    pipeline returns, and the failed request stays as recorded. *)
Theorem failure_is_recorded_and_worker_goes_on
    settings env env2 w task q request e id2 priority2 request2 :
  is_running w = true →
  (0 ≤ _unfinished_tasks (queue w))%Z →
  get (queue w) = Some (task, q) →
  _get_request (db w) (request_id task) = Some request →
  pipeline_of settings env (mode_of task) request = inl (e, Active) →
  let failed := with_error_message (failure_text e) (with_status FAILED request) in
  let w1 := (worker_iteration settings env w).1 in
  (worker_iteration settings env w).2 = Continue
  ∧ _get_request (db w1) (request_id task) = Some failed
  ∧ log w1 = (log w ++ [Dispatched (mode_of task) (request_id task);
                        LoggedException ("Error in worker loop: " ++ exn_str e);
                        Slept (queue_error_retry_interval settings)])%list
  ∧ is_running w1 = true
  ∧ worker_task w1 = worker_task w
  ∧ (_queue q = [] →
     id2 ≠ request_id task →
     _get_request (db w) id2 = Some request2 →
     image_pipeline settings env2 request2 = inr tt →
     let w2 := enqueue_generation id2 priority2 w1 in
     let w3 := (worker_iteration settings env2 w2).1 in
     (worker_iteration settings env2 w2).2 = Continue
     ∧ _get_request (db w3) id2 = Some (with_status COMPLETED request2)
     ∧ _get_request (db w3) (request_id task) = Some failed
     ∧ log w3 = (log w1 ++ [Dispatched DefaultSD id2; TaskDone])%list
     ∧ worker_task w3 = worker_task w).
Proof.
  intros Hrun Hunf Hget Hreq Hpipe failed w1. unfold w1.
  rewrite (worker_iteration_raises settings env w task q request e Hrun Hget Hreq Hpipe).
  cbn [fst snd db log is_running worker_task].
  assert (∀ msg r, id (with_error_message msg (with_status FAILED r)) = id r) as Hid1 by done.
  assert (∀ st r, id (with_status st r) = id r) as Hid2 by done.
  split; [done|]. split.
  { rewrite _get_request_commit_row by apply Hid1.
    rewrite _get_request_commit_row by apply Hid2. by rewrite Hreq. }
  split; [by rewrite <- app_assoc|]. split; [done|]. split; [done|].
  intros Hq Hne Hreq2 Hpipe2.
  match goal with
  | |- context [worker_iteration settings env2 ?x] => set (w2 := x)
  end.
  assert (_unfinished_tasks q = _unfinished_tasks (queue w)) as Hcount.
  { unfold get in Hget. destruct (Heapq.heappop _ _) as [[? ?]|]; [|done].
    by injection Hget as _ <-. }
  set (t2 := {| priority := - priority2; request_id := id2;
                use_gemini := false; use_xai := false |}).
  set (q2 := {| _queue := []; _unfinished_tasks := _unfinished_tasks q + 1 |}).
  assert (get (queue w2) = Some (t2, q2)) as Hget2.
  { unfold w2, enqueue_generation, set_queue, get, put. cbn [queue _queue].
    rewrite Hq. reflexivity. }
  assert (_get_request (db w2) (request_id t2) = Some request2) as Hreq2'.
  { unfold w2. cbn [enqueue_generation set_queue db request_id t2].
    rewrite _get_request_commit_row_ne by (apply Hid1 || done).
    rewrite _get_request_commit_row_ne by (apply Hid2 || done). done. }
  rewrite (worker_iteration_returns settings env2 w2 t2 q2 request2 eq_refl Hget2 Hreq2'
             Hpipe2); [|cbn; lia].
  cbn [fst snd db log is_running worker_task].
  split; [done|]. split.
  { unfold w2. cbn [enqueue_generation set_queue db request_id t2].
    rewrite _get_request_commit_row by apply Hid2.
    rewrite _get_request_commit_row by apply Hid2.
    rewrite _get_request_commit_row_ne by (apply Hid1 || done).
    rewrite _get_request_commit_row_ne by (apply Hid2 || done).
    by rewrite Hreq2. }
  split.
  { unfold w2. cbn [enqueue_generation set_queue db request_id t2].
    rewrite _get_request_commit_row_ne by (apply Hid2 || done).
    rewrite _get_request_commit_row_ne by (apply Hid2 || done).
    rewrite _get_request_commit_row by apply Hid1.
    rewrite _get_request_commit_row by apply Hid2. by rewrite Hreq. }
  split; [by rewrite <- app_assoc|done].
Qed.

(** The scenario of the design document: the provider times out on
    [req-1], which ends FAILED with the timeout message; [req-2], enqueued
    afterwards, is completed by the same worker. *)
Lemma failure_is_recorded_and_worker_goes_on_witness :
  let w := set_db [Samples.request_1; Samples.request_2]
             (enqueue_generation "req-1" 0 (start (init []))) in
  let w1 := (worker_iteration Samples.app_settings Samples.env_timeout w).1 in
  let w3 := (worker_iteration Samples.app_settings Samples.env_ok
               (enqueue_generation "req-2" 0 w1)).1 in
  (status <$> _get_request (db w1) "req-1") = Some FAILED
  ∧ (error_message <$> _get_request (db w1) "req-1")
    = Some (Some "Stable Diffusion API timeout")
  ∧ (status <$> _get_request (db w3) "req-2") = Some COMPLETED
  ∧ is_running w3 = true.
Proof.
  intros w w1 w3.
  destruct (failure_is_recorded_and_worker_goes_on
              Samples.app_settings Samples.env_timeout Samples.env_ok w
              {| priority := - 0; request_id := "req-1";
                 use_gemini := false; use_xai := false |}
              {| _queue := []; _unfinished_tasks := 1 |}
              Samples.request_1
              (StableDiffusionTimeoutError "Stable Diffusion API timeout")
              "req-2" 0%Z Samples.request_2)
    as (_ & Hfailed & _ & Hrun & _ & Hnext).
  - reflexivity.
  - cbn. lia.
  - reflexivity.
  - reflexivity.
  - apply sample_image_pipeline_timeout.
  - destruct Hnext as (_ & Hdone & _ & _ & _).
    + reflexivity.
    + discriminate.
    + reflexivity.
    + apply sample_image_pipeline_ok.
    + fold w1 in Hfailed, Hdone. fold w3 in Hdone.
      cbn [request_id] in Hfailed. rewrite Hfailed, Hdone.
      split; [reflexivity|]. split; [reflexivity|]. split; [reflexivity|].
      unfold w3.
      rewrite (worker_iteration_returns Samples.app_settings Samples.env_ok
                 (enqueue_generation "req-2" 0 w1)
                 {| priority := - 0; request_id := "req-2";
                    use_gemini := false; use_xai := false |}
                 {| _queue := []; _unfinished_tasks := 2 |} Samples.request_2).
      * reflexivity.
      * unfold w1, enqueue_generation. cbn [is_running set_queue]. exact Hrun.
      * unfold w1.
        rewrite (worker_iteration_raises Samples.app_settings Samples.env_timeout w
                   {| priority := - 0; request_id := "req-1";
                      use_gemini := false; use_xai := false |}
                   {| _queue := []; _unfinished_tasks := 1 |} Samples.request_1
                   (StableDiffusionTimeoutError "Stable Diffusion API timeout")
                   eq_refl eq_refl eq_refl (sample_image_pipeline_timeout _)).
        reflexivity.
      * unfold w1.
        rewrite (worker_iteration_raises Samples.app_settings Samples.env_timeout w
                   {| priority := - 0; request_id := "req-1";
                      use_gemini := false; use_xai := false |}
                   {| _queue := []; _unfinished_tasks := 1 |} Samples.request_1
                   (StableDiffusionTimeoutError "Stable Diffusion API timeout")
                   eq_refl eq_refl eq_refl (sample_image_pipeline_timeout _)).
        reflexivity.
      * apply sample_image_pipeline_ok.
      * cbn. lia.
Defined.

(** A request with the web-research flag is completed although the
    research service times out. *)
Example request_completes_without_research :
  let w := start (init [Samples.request_4]) in
  let w' := (worker_iteration Samples.app_settings Samples.env_research_down w).1 in
  db w' = [with_status COMPLETED Samples.request_4]
  ∧ log w' = [Dispatched DefaultSD "req-4"; TaskDone].
Proof.
  intros w w'. unfold w'.
  rewrite (worker_iteration_returns Samples.app_settings Samples.env_research_down w
             (restored_task Samples.request_4)
             {| _queue := []; _unfinished_tasks := 1 |}
             Samples.request_4 eq_refl eq_refl eq_refl
             (sample_image_pipeline_research_down _) eq_refl).
  split; reflexivity.
Qed.

(** C2, as stated, fails: no insertion order is recorded in a task. With
    priorities [5, 1, 5, 10] enqueued for the requests [b, c, a, d], the
    second-enqueued priority-5 task (request [a]) is served before the
    first-enqueued one (request [b]). *)
Lemma equal_priority_is_not_fifo :
  let rows := map (λ rid, {| id := rid; guild_id := "guild"; user_id := "user";
                             thread_id := "thread"; original_instruction := "a red fox";
                             web_research := false; status := PENDING;
                             error_message := None |}) ["b"; "c"; "a"; "d"] in
  let w := enqueue_generation "d" 10
             (enqueue_generation "a" 5
                (enqueue_generation "c" 1
                   (enqueue_generation "b" 5 (set_db rows (start (init [])))))) in
  let envs := [Samples.env_ok; Samples.env_ok; Samples.env_ok; Samples.env_ok] in
  processed (_worker_loop Samples.app_settings envs w).1 = ["d"; "a"; "b"; "c"]
  ∧ processed (_worker_loop Samples.app_settings envs w).1 ≠ ["d"; "b"; "a"; "c"].
Proof.
  intros rows w envs. unfold envs.
  pose (tk := λ rid p, task_of DefaultSD rid p).
  assert (Heapq.heappop task_lt (_queue (queue w))
          = Some (tk "d" 10%Z, [tk "a" 5%Z; tk "c" 1%Z; tk "b" 5%Z])) as P1
    by (vm_compute; reflexivity).
  assert (Heapq.heappop task_lt [tk "a" 5%Z; tk "c" 1%Z; tk "b" 5%Z]
          = Some (tk "a" 5%Z, [tk "b" 5%Z; tk "c" 1%Z])) as P2
    by (vm_compute; reflexivity).
  assert (Heapq.heappop task_lt [tk "b" 5%Z; tk "c" 1%Z]
          = Some (tk "b" 5%Z, [tk "c" 1%Z])) as P3
    by (vm_compute; reflexivity).
  assert (Heapq.heappop task_lt [tk "c" 1%Z] = Some (tk "c" 1%Z, [])) as P4
    by (vm_compute; reflexivity).
  destruct (worker_loop_round Samples.app_settings Samples.env_ok
              [Samples.env_ok; Samples.env_ok; Samples.env_ok] w _ _ eq_refl P1)
    as (w1 & -> & Hrun1 & Hq1 & Hp1).
  rewrite <- Hq1 in P2.
  destruct (worker_loop_round Samples.app_settings Samples.env_ok
              [Samples.env_ok; Samples.env_ok] w1 _ _ Hrun1 P2)
    as (w2 & -> & Hrun2 & Hq2 & Hp2).
  rewrite <- Hq2 in P3.
  destruct (worker_loop_round Samples.app_settings Samples.env_ok
              [Samples.env_ok] w2 _ _ Hrun2 P3)
    as (w3 & -> & Hrun3 & Hq3 & Hp3).
  rewrite <- Hq3 in P4.
  destruct (worker_loop_round Samples.app_settings Samples.env_ok
              [] w3 _ _ Hrun3 P4)
    as (w4 & -> & Hrun4 & Hq4 & Hp4).
  cbn [_worker_loop fst]. rewrite Hp4, Hp3, Hp2, Hp1.
  split; [reflexivity|discriminate].
Qed.

(** C2 (amended). Tasks enqueued, on a running manager with an empty
    queue, with the priorities [5, 1, 5, 10] in that order are handed to
    the orchestrators in the order 10, 5, 5, 1, whichever enqueue variant
    each one came through. Between the two tasks of priority 5 the
    remaining fields of the task decide, in the order [request_id],
    [use_gemini], [use_xai]: the first-enqueued one is served first unless
    the second-enqueued one is strictly smaller on them. *)
Theorem priority_then_field_order
    settings e1 e2 e3 e4 w m1 m2 m3 m4 r1 r2 r3 r4 :
  is_running w = true →
  _queue (queue w) = [] →
  let w4 := enqueue_as m4 r4 10 (enqueue_as m3 r3 5
              (enqueue_as m2 r2 1 (enqueue_as m1 r1 5 w))) in
  processed (_worker_loop settings [e1; e2; e3; e4] w4).1
  = (processed w
     ++ (if task_lt (task_of m3 r3 5) (task_of m1 r1 5)
         then [r4; r3; r1; r2] else [r4; r1; r3; r2]))%list.
Proof.
  intros Hrun Hq w4.
  set (t1 := task_of m1 r1 5). set (t2 := task_of m2 r2 1).
  set (t3 := task_of m3 r3 5). set (t4 := task_of m4 r4 10).
  assert (_queue (queue w4)
          = Heapq.heappush task_lt
              (Heapq.heappush task_lt
                 (Heapq.heappush task_lt (Heapq.heappush task_lt [] t1) t2) t3) t4) as Hq4.
  { unfold w4. rewrite !enqueue_as_spec. cbn [set_queue queue put _queue]. by rewrite Hq. }
  assert (is_running w4 = true) as Hrun4.
  { unfold w4. rewrite !enqueue_as_spec. exact Hrun. }
  destruct (HeapProps.push4_pop4 task_lt t1 t2 t3 t4) as (h3 & h2 & h1 & P4 & P3 & P2 & P1);
    try (apply task_lt_priority; cbn; lia); try apply task_lt_asym.
  rewrite <- Hq4 in P4.
  destruct (worker_loop_round settings e1 [e2; e3; e4] w4 _ _ Hrun4 P4)
    as (w3 & -> & Hrun3 & Hq3 & Hp3).
  rewrite <- Hq3 in P3.
  destruct (worker_loop_round settings e2 [e3; e4] w3 _ _ Hrun3 P3)
    as (w2 & -> & Hrun2 & Hq2 & Hp2).
  rewrite <- Hq2 in P2.
  destruct (worker_loop_round settings e3 [e4] w2 _ _ Hrun2 P2)
    as (w1 & -> & Hrun1 & Hq1 & Hp1).
  rewrite <- Hq1 in P1.
  destruct (worker_loop_round settings e4 [] w1 _ _ Hrun1 P1)
    as (w0 & -> & Hrun0 & Hq0 & Hp0).
  cbn [_worker_loop fst]. rewrite Hp0, Hp1, Hp2, Hp3.
  assert (processed w4 = processed w) as ->.
  { unfold w4. by rewrite !enqueue_as_spec. }
  rewrite <- !app_assoc. f_equal. cbn [app].
  destruct (task_lt t1 t3) eqn:H13.
  - rewrite (task_lt_asym _ _ H13). reflexivity.
  - destruct (task_lt t3 t1) eqn:H31; [reflexivity|].
    assert (r1 = r3) as -> by exact (f_equal request_id (task_lt_total _ _ H13 H31)).
    reflexivity.
Qed.

(** The theorem at the requests [b, c, a, d], all through
    [enqueue_generation]. *)
Lemma priority_then_field_order_witness :
  let w := start (init []) in
  let w4 := enqueue_generation "d" 10
              (enqueue_generation "a" 5
                 (enqueue_generation "c" 1 (enqueue_generation "b" 5 w))) in
  processed (_worker_loop Samples.app_settings
               [Samples.env_ok; Samples.env_ok; Samples.env_ok; Samples.env_ok] w4).1
  = ["d"; "a"; "b"; "c"].
Proof.
  exact (priority_then_field_order Samples.app_settings
           Samples.env_ok Samples.env_ok Samples.env_ok Samples.env_ok
           (start (init [])) DefaultSD DefaultSD DefaultSD DefaultSD
           "b" "c" "a" "d" eq_refl eq_refl).
Defined.

(** C3, as stated, fails: nothing clears [error_message]. A request that
    is enqueued twice, fails in its first run and succeeds in its second
    ends COMPLETED with the message of the first run still set. *)
Lemma reprocessed_request_keeps_its_message :
  let w0 := init [Samples.request_1] in
  let w1 := enqueue_as DefaultSD "req-1" 0 (start w0) in
  let w2 := (worker_iteration Samples.app_settings Samples.env_timeout w1).1 in
  let w3 := (worker_iteration Samples.app_settings Samples.env_ok w2).1 in
  Forall message_iff_failed (db w0)
  ∧ reachable Samples.app_settings always w0 w3
  ∧ db w3 = [with_error_message "Stable Diffusion API timeout"
               (with_status COMPLETED Samples.request_1)]
  ∧ ¬ Forall message_iff_failed (db w3).
Proof.
  intros w0 w1 w2 w3.
  assert (db w3 = [with_error_message "Stable Diffusion API timeout"
                     (with_status COMPLETED Samples.request_1)]) as Hdb.
  { unfold w3, w2.
    rewrite (worker_iteration_raises Samples.app_settings Samples.env_timeout w1
               (restored_task Samples.request_1)
               {| _queue := [restored_task Samples.request_1]; _unfinished_tasks := 2 |}
               Samples.request_1
               (StableDiffusionTimeoutError "Stable Diffusion API timeout")
               eq_refl eq_refl eq_refl (sample_image_pipeline_timeout _)).
    cbn [fst].
    match goal with
    | |- context [worker_iteration _ Samples.env_ok ?x] =>
        rewrite (worker_iteration_returns Samples.app_settings Samples.env_ok x
                   (restored_task Samples.request_1)
                   {| _queue := []; _unfinished_tasks := 2 |}
                   (with_error_message "Stable Diffusion API timeout"
                      (with_status FAILED Samples.request_1))
                   eq_refl eq_refl eq_refl (sample_image_pipeline_ok _) eq_refl)
    end.
    reflexivity. }
  split.
  { repeat constructor; [by intros [? [=]]|by intros [=]]. }
  split.
  { eapply rtc_l; [apply step_start|].
    eapply rtc_l; [apply (step_enqueue _ _ _ DefaultSD "req-1" 0%Z)|].
    eapply rtc_l; [apply (step_worker _ _ _ Samples.env_timeout); exact I|].
    eapply rtc_l; [apply (step_worker _ _ _ Samples.env_ok); exact I|].
    apply rtc_refl. }
  split; [exact Hdb|].
  rewrite Hdb. intros Hall. apply Forall_inv in Hall.
  assert (COMPLETED = FAILED) as Habs.
  { apply (proj1 Hall). eexists. reflexivity. }
  discriminate Habs.
Qed.

(** C3 (amended). In every state reachable through the public operations
    and the worker's rounds, a request with status FAILED has an error
    message. The converse, that a request in PENDING, PROCESSING or
    COMPLETED has none, holds along every run in which the worker never
    takes up a request that already carries a message, that is, one that
    failed before and was enqueued again. *)
Theorem failed_requests_carry_a_message settings w0 w :
  (Forall failed_has_message (db w0) →
   reachable settings always w0 w →
   Forall failed_has_message (db w))
  ∧ (Forall message_iff_failed (db w0) →
     reachable settings next_never_failed w0 w →
     Forall message_iff_failed (db w)).
Proof.
  split; intros Hall Hreach; induction Hreach as [|? ? ? Hstep _ IH]; try done; apply IH.
  - by eapply step_keeps_failed_has_message.
  - by eapply step_keeps_message_iff_failed.
Qed.

(** The theorem on a request that fails in its only run. *)
Lemma failed_requests_carry_a_message_witness :
  let w0 := init [Samples.request_1] in
  let w := (worker_iteration Samples.app_settings Samples.env_timeout (start w0)).1 in
  Forall message_iff_failed (db w) ∧ Forall failed_has_message (db w).
Proof.
  intros w0 w.
  destruct (failed_requests_carry_a_message Samples.app_settings w0 w) as [Hhalf Hiff].
  split.
  - apply Hiff.
    + repeat constructor; [by intros [? [=]]|by intros [=]].
    + eapply rtc_l; [apply step_start|].
      eapply rtc_l; [apply (step_worker _ _ _ Samples.env_timeout)|apply rtc_refl].
      intros task q r Hget Hreq.
      injection Hget as <- _. injection Hreq as <-. reflexivity.
  - apply Hhalf.
    + repeat constructor. by intros [=].
    + eapply rtc_l; [apply step_start|].
      eapply rtc_l; [apply (step_worker _ _ _ Samples.env_timeout); exact I|apply rtc_refl].
Defined.

(** C4. When [start] is called on a manager that is not yet running and
    the table holds two PROCESSING requests and one COMPLETED request, the
    two are reset to PENDING and the COMPLETED row stays as it is; one task
    of priority 0 in default mode is enqueued for each of the two, and the
    worker is started. *)
Theorem start_recovers_processing_requests w p1 p2 c :
  is_running w = false →
  status p1 = PROCESSING → status p2 = PROCESSING → status c = COMPLETED →
  db w ≡ₚ [p1; p2; c] →
  db (start w) ≡ₚ [with_status PENDING p1; with_status PENDING p2; c]
  ∧ _queue (queue (start w))
    ≡ₚ _queue (queue w)
       ++ [ {| priority := 0; request_id := id p1; use_gemini := false; use_xai := false |};
            {| priority := 0; request_id := id p2; use_gemini := false; use_xai := false |} ]
  ∧ _unfinished_tasks (queue (start w)) = (_unfinished_tasks (queue w) + 2)%Z
  ∧ is_running (start w) = true
  ∧ worker_task (start w) = Some true.
Proof.
  intros Hrun H1 H2 Hc Hdb.
  destruct (start_spec w Hrun) as (Hrun' & Hworker & _ & Hdb' & Hq & Hcount).
  assert (List.filter unfinished (db w) ≡ₚ [p1; p2]) as Hpending.
  { rewrite (filter_perm unfinished _ _ Hdb). cbn [List.filter]. unfold unfinished.
    by rewrite H1, H2, Hc. }
  repeat split; try done.
  - rewrite Hdb', Hdb. cbn [map]. unfold unfinished. by rewrite H1, H2, Hc.
  - rewrite Hq, Hpending. done.
  - rewrite Hcount, Hpending. done.
Qed.

(** The theorem on a fresh manager over such a table. *)
Lemma start_recovers_processing_requests_witness :
  let p1 := with_status PROCESSING Samples.request_1 in
  let p2 := with_status PROCESSING Samples.request_2 in
  let w := init [p1; Samples.request_3; p2] in
  db (start w) ≡ₚ [Samples.request_1; Samples.request_2; Samples.request_3]
  ∧ length (_queue (queue (start w))) = 2.
Proof.
  intros p1 p2 w.
  destruct (start_recovers_processing_requests w p1 p2 Samples.request_3)
    as (Hdb & Hq & _); try reflexivity.
  - unfold w. cbn [init db]. apply perm_skip, perm_swap.
  - split; [exact Hdb|]. by rewrite Hq.
Defined.

(** C9. Every task that the recovery pass of [start] enqueues has
    priority 0 and neither provider flag set, whatever variant and
    priority the request was enqueued with before the restart; the worker
    hands such a task to [_process_image_generation]. *)
Theorem recovered_tasks_use_default_pipeline settings env w :
  is_running w = false →
  _queue (queue (start w))
  ≡ₚ _queue (queue w) ++ map restored_task (List.filter unfinished (db w))
  ∧ ∀ request,
      request ∈ db w → unfinished request = true →
      let task := restored_task request in
      task ∈ _queue (queue (start w))
      ∧ priority task = 0%Z ∧ use_gemini task = false ∧ use_xai task = false
      ∧ ∀ w1 q,
          is_running w1 = true → get (queue w1) = Some (task, q) →
          db (worker_iteration settings env w1).1
          = (_process_image_generation settings env (db w1) (id request)).1
          ∧ Dispatched DefaultSD (id request) ∈ log (worker_iteration settings env w1).1.
Proof.
  intros Hrun.
  destruct (start_spec w Hrun) as (_ & _ & _ & _ & Hq & _).
  split; [exact Hq|].
  intros request Hin Hunf task. repeat split.
  - rewrite Hq. apply elem_of_app. right.
    apply list_elem_of_fmap. exists request. split; [done|].
    apply list_elem_of_In, filter_In. split; [by apply list_elem_of_In|done].
  - rewrite (worker_iteration_unfold settings env w1 task q) by done.
    unfold _process_image_generation.
    change (pipeline_of settings env (mode_of task)) with (image_pipeline settings env).
    change (request_id task) with (id request).
    destruct (process_with _ _ _ _) as [rows [e|[]]]; cbn [bind fst]; [done|].
    by destruct (task_done _).
  - rewrite (worker_iteration_unfold settings env w1 task q) by done.
    change (mode_of task) with DefaultSD. change (request_id task) with (id request).
    destruct (process_with _ _ _ _) as [rows [e|[]]]; cbn [bind fst].
    + cbn. rewrite !elem_of_app. left. right. apply list_elem_of_here.
    + destruct (task_done _); cbn; rewrite !elem_of_app, ?list_elem_of_singleton; auto.
Qed.

(** A request that was enqueued for Gemini with priority 9 and was
    PROCESSING when the process died: after the restart its task has
    priority 0 and the worker runs the default pipeline on it. *)
Lemma recovered_tasks_use_default_pipeline_witness :
  let before := enqueue_gemini_generation "req-1" 9 (start (init [Samples.request_1])) in
  let crashed := commit_row "req-1" (with_status PROCESSING) (db before) in
  let w := start (init crashed) in
  _queue (queue w)
  = [ {| priority := 0; request_id := "req-1"; use_gemini := false; use_xai := false |} ]
  ∧ Dispatched DefaultSD "req-1"
    ∈ log (worker_iteration Samples.app_settings Samples.env_ok w).1.
Proof.
  intros before crashed w.
  destruct (recovered_tasks_use_default_pipeline Samples.app_settings Samples.env_ok
              (init crashed) eq_refl) as [_ Htask].
  destruct (Htask (with_status PROCESSING Samples.request_1))
    as (_ & _ & _ & _ & Hworker).
  - apply list_elem_of_here.
  - reflexivity.
  - split; [reflexivity|].
    exact (proj2 (Hworker w {| _queue := []; _unfinished_tasks := 1 |} eq_refl eq_refl)).
Defined.

End QueueProps.

(* ===================================================================== *)
(** ** The order of service *)
(* ===================================================================== *)

Module QueueOrder.
Import QueueManager Notions Invariants QueueProps.

(** *** The order on request ids *)

Lemma ascii_compare_lt_trans a b c :
  Ascii.compare a b = Lt → Ascii.compare b c = Lt → Ascii.compare a c = Lt.
Proof. unfold Ascii.compare. rewrite !N.compare_lt_iff. lia. Qed.

Lemma string_compare_lt_trans a b c :
  String.compare a b = Lt → String.compare b c = Lt → String.compare a c = Lt.
Proof.
  revert b c. induction a as [|x a IH]; intros [|y b] [|z c]; simpl; try done.
  destruct (Ascii.compare x y) eqn:Exy; try done;
    destruct (Ascii.compare y z) eqn:Eyz; try done.
  - apply Ascii.compare_eq_iff in Exy as ->, Eyz as ->.
    assert (Ascii.compare z z = Eq) as ->; [|apply IH].
    unfold Ascii.compare. apply N.compare_refl.
  - apply Ascii.compare_eq_iff in Exy as ->. by rewrite Eyz.
  - apply Ascii.compare_eq_iff in Eyz as <-. by rewrite Exy.
  - by rewrite (ascii_compare_lt_trans x y z).
Qed.

Lemma string_ltb_false a b : String.ltb b a = false → a = b ∨ String.ltb a b = true.
Proof.
  unfold String.ltb. rewrite (String.compare_antisym b a).
  destruct (String.compare a b) eqn:E; cbn [CompOpp]; intros H.
  - left. by apply String.compare_eq_iff.
  - by right.
  - discriminate H.
Qed.

Lemma string_ltb_trans a b c :
  String.ltb a b = true → String.ltb b c = true → String.ltb a c = true.
Proof.
  unfold String.ltb.
  destruct (String.compare a b) eqn:E1; try done.
  destruct (String.compare b c) eqn:E2; try done.
  by rewrite (string_compare_lt_trans a b c).
Qed.

Lemma string_le_trans a b c :
  String.ltb b a = false → String.ltb c b = false → String.ltb c a = false.
Proof.
  intros H1 H2.
  apply string_ltb_false in H1 as [->|H1]; [done|].
  apply string_ltb_false in H2 as [->|H2]; [by apply string_ltb_asym|].
  apply string_ltb_asym. by apply (string_ltb_trans a b c).
Qed.

Lemma string_ltb_irrefl a : String.ltb a a = false.
Proof.
  destruct (String.ltb a a) eqn:E; [|done].
  pose proof (string_ltb_asym a a E). congruence.
Qed.

(** *** The order on tasks *)

Lemma task_le_trans a b c :
  task_lt b a = false → task_lt c b = false → task_lt c a = false.
Proof.
  unfold task_lt.
  destruct a as [pa ra ga xa], b as [pb rb gb xb], c as [pc rc gc xc];
    cbn [priority request_id use_gemini use_xai].
  destruct (Z.eqb_spec pb pa) as [->|Hba]; cbn [negb].
  2:{ rewrite Z.ltb_ge. intros H1.
      destruct (Z.eqb_spec pc pb) as [->|Hcb]; cbn [negb].
      - intros _. destruct (Z.eqb_spec pb pa) as [?|_]; [lia|]. cbn [negb].
        apply Z.ltb_ge. lia.
      - rewrite Z.ltb_ge. intros H2.
        destruct (Z.eqb_spec pc pa) as [?|_]; [lia|]. cbn [negb].
        apply Z.ltb_ge. lia. }
  destruct (Z.eqb_spec pc pa) as [->|Hca]; cbn [negb].
  2:{ intros _. by rewrite Z.ltb_ge. }
  destruct (String.eqb_spec rb ra) as [->|Hrba]; cbn [negb].
  2:{ intros H1.
      destruct (String.eqb_spec rc rb) as [->|Hrcb]; cbn [negb].
      - intros _. destruct (String.eqb_spec rb ra) as [?|_]; [done|]. by cbn [negb].
      - intros H2.
        destruct (String.eqb_spec rc ra) as [->|_]; cbn [negb].
        + exfalso. apply string_ltb_false in H1 as [?|H1]; [done|].
          apply string_ltb_false in H2 as [?|H2]; [done|].
          pose proof (string_ltb_asym _ _ H1). congruence.
        + by apply (string_le_trans ra rb rc). }
  destruct (String.eqb_spec rc ra) as [->|Hrca]; cbn [negb].
  2:{ by intros _. }
  destruct ga, gb, gc, xa, xb, xc; done.
Qed.

Lemma task_lt_false_priority a b : task_lt a b = false → (priority b ≤ priority a)%Z.
Proof.
  unfold task_lt. destruct (Z.eqb_spec (priority a) (priority b)) as [->|Hne]; cbn [negb].
  - lia.
  - rewrite Z.ltb_ge. lia.
Qed.

(** *** The invariant of the queue *)

Lemma heappop_length (heap heap' : list QueuedTask) item :
  heap_ok task_lt heap → Heapq.heappop task_lt heap = Some (item, heap') →
  length heap = S (length heap').
Proof.
  intros Hok Hpop.
  destruct (HeapOrder.heappop_ok task_lt task_lt_asym task_le_trans _ _ _ Hok Hpop)
    as (_ & Hperm & _).
  by rewrite <- Hperm.
Qed.

Lemma put_queue_ok q item :
  heap_ok task_lt (_queue q) ∧ (Z.of_nat (length (_queue q)) ≤ _unfinished_tasks q)%Z →
  heap_ok task_lt (_queue (put q item))
  ∧ (Z.of_nat (length (_queue (put q item))) ≤ _unfinished_tasks (put q item))%Z.
Proof.
  intros [Hheap Hcount]. cbn [put _queue _unfinished_tasks]. split.
  - by apply (HeapOrder.heappush_ok task_lt task_lt_asym task_le_trans).
  - rewrite (HeapProps.heappush_perm task_lt (_queue q) item), length_app. simpl. lia.
Qed.

Lemma get_queue_ok q q' task :
  heap_ok task_lt (_queue q) ∧ (Z.of_nat (length (_queue q)) ≤ _unfinished_tasks q)%Z →
  get q = Some (task, q') →
  heap_ok task_lt (_queue q')
  ∧ (Z.of_nat (length (_queue q')) < _unfinished_tasks q')%Z
  ∧ task :: _queue q' ≡ₚ _queue q
  ∧ ∀ other, other ∈ _queue q' → task_lt other task = false.
Proof.
  intros [Hheap Hcount]. unfold get.
  destruct (Heapq.heappop task_lt (_queue q)) as [[item heap']|] eqn:Hpop; [|done].
  intros [= <- <-]. cbn [_queue _unfinished_tasks].
  pose proof (heappop_length _ _ _ Hheap Hpop) as Hlen.
  destruct (HeapOrder.heappop_ok task_lt task_lt_asym task_le_trans _ _ _ Hheap Hpop)
    as (Hheap' & Hperm & Hleast).
  repeat split; try done. lia.
Qed.

Lemma step_keeps_queue_ok settings guard w w' :
  step settings guard w w' → queue_ok w → queue_ok w'.
Proof.
  intros Hstep Hok.
  destruct Hstep as [w r Hst Hmsg Hfresh|w mode rid prio|w|w|w env Hguard].
  - exact Hok.
  - rewrite enqueue_as_spec. by apply put_queue_ok.
  - unfold start. destruct (is_running w); [done|].
    unfold queue_ok. cbn [_restore_pending_requests set_db set_queue queue is_running db].
    generalize (List.filter unfinished (db w)).
    intros l. revert Hok. unfold queue_ok. generalize (queue w). clear.
    induction l as [|r l IH]; intros q Hq; [done|].
    simpl. apply IH. by apply put_queue_ok.
  - unfold stop. by destruct (negb (is_running w)).
  - unfold queue_ok.
    destruct (is_running w) eqn:Hrun.
    2:{ unfold worker_iteration. by rewrite Hrun. }
    destruct (get (queue w)) as [[task q]|] eqn:Hget.
    2:{ unfold worker_iteration. by rewrite Hrun, Hget. }
    destruct (get_queue_ok _ _ _ Hok Hget) as (Hheap & Hcount & _ & _).
    rewrite (worker_iteration_unfold settings env w task q Hrun Hget).
    destruct (process_with _ _ _ _) as [rows [e|[]]]; cbn [bind fst].
    + cbn [add_log set_db set_queue queue]. split; [done|lia].
    + unfold task_done. cbn [add_log set_db set_queue queue].
      destruct (Z.leb_spec (_unfinished_tasks q) 0) as [?|?];
        cbn [bind ret fst add_log set_db set_queue queue _queue _unfinished_tasks].
      * split; [done|lia].
      * split; [done|lia].
Qed.

Lemma reachable_queue_ok settings guard rows w :
  reachable settings guard (init rows) w → queue_ok w.
Proof.
  intros Hreach.
  assert (queue_ok (init rows)) as Hinit.
  { unfold queue_ok. simpl. split; [|done].
    intros i c p Hi Hc. by rewrite lookup_nil in Hc. }
  revert Hinit. unfold reachable in Hreach.
  induction Hreach as [|w1 w2 w3 Hstep _ IH]; [done|].
  intros H1. apply IH. by eapply step_keeps_queue_ok.
Qed.

(** X9. In every state reachable through the manager's
    operations the queue's [get] hands out a least task of the queue: no
    task left behind is smaller in the dataclass order, so none has a
    higher caller priority, and the tasks left are the others, none lost or
    duplicated. *)
Theorem worker_takes_a_task_of_highest_priority settings rows w task q :
  reachable settings always (init rows) w →
  get (queue w) = Some (task, q) →
  task :: _queue q ≡ₚ _queue (queue w)
  ∧ ∀ other, other ∈ _queue q →
             task_lt other task = false ∧ (priority task ≤ priority other)%Z.
Proof.
  intros Hreach Hget.
  destruct (get_queue_ok _ _ _ (reachable_queue_ok _ _ _ _ Hreach) Hget)
    as (_ & _ & Hperm & Hleast).
  split; [done|]. intros other Hin. split; [by apply Hleast|].
  by apply task_lt_false_priority, Hleast.
Qed.

(** X10. In every reachable state the [task_done] that follows a
    [get] succeeds: the count of unfinished tasks is at least the number of
    queued tasks, so the ValueError of [asyncio.Queue.task_done] cannot
    occur in the worker loop. *)
Theorem task_done_never_overruns settings rows w task q :
  reachable settings always (init rows) w →
  get (queue w) = Some (task, q) →
  ∃ q', task_done q = inr q' ∧ _queue q' = _queue q.
Proof.
  intros Hreach Hget.
  destruct (get_queue_ok _ _ _ (reachable_queue_ok _ _ _ _ Hreach) Hget)
    as (_ & Hcount & _ & _).
  unfold task_done.
  destruct (Z.leb_spec (_unfinished_tasks q) 0) as [?|?]; [lia|].
  by eexists.
Qed.

(** The sample world with two tasks is reachable. *)
Lemma two_tasks_reachable settings :
  reachable settings always (init []) MoreSamples.two_tasks.
Proof.
  unfold reachable, MoreSamples.two_tasks.
  eapply rtc_l; [apply step_start|].
  eapply rtc_l; [apply (step_enqueue _ _ _ DefaultSD "req-1" 1%Z)|].
  eapply rtc_l; [apply (step_enqueue _ _ _ DefaultSD "req-2" 5%Z)|].
  apply rtc_refl.
Qed.

Lemma two_tasks_get :
  get (queue MoreSamples.two_tasks)
  = Some (task_of DefaultSD "req-2" 5,
          {| _queue := [task_of DefaultSD "req-1" 1]; _unfinished_tasks := 2 |}).
Proof. vm_compute. reflexivity. Qed.

(** The theorem on the sample world: the task of priority 5 is taken
    before the one of priority 1. *)
Lemma worker_takes_a_task_of_highest_priority_witness :
  task_lt (task_of DefaultSD "req-1" 1) (task_of DefaultSD "req-2" 5) = false
  ∧ (priority (task_of DefaultSD "req-2" 5) ≤ priority (task_of DefaultSD "req-1" 1))%Z.
Proof.
  apply (proj2 (worker_takes_a_task_of_highest_priority Samples.app_settings []
                  MoreSamples.two_tasks _ _
                  (two_tasks_reachable Samples.app_settings) two_tasks_get)).
  cbn [_queue]. apply list_elem_of_here.
Defined.

(** The theorem on the sample world. *)
Lemma task_done_never_overruns_witness :
  ∃ q', task_done {| _queue := [task_of DefaultSD "req-1" 1]; _unfinished_tasks := 2 |}
        = inr q'
        ∧ _queue q' = [task_of DefaultSD "req-1" 1].
Proof.
  exact (task_done_never_overruns Samples.app_settings [] MoreSamples.two_tasks _ _
           (two_tasks_reachable Samples.app_settings) two_tasks_get).
Defined.

(** *** Draining the queue *)

Lemma worker_drains heap settings envs w :
  is_running w = true →
  heap_ok task_lt (_queue (queue w)) →
  _queue (queue w) = heap →
  length envs = length heap →
  ∃ ts,
    ts ≡ₚ heap
    ∧ StronglySorted (λ a b, task_lt b a = false) ts
    ∧ processed (_worker_loop settings envs w).1
      = (processed w ++ map request_id ts)%list
    ∧ _queue (queue (_worker_loop settings envs w).1) = []
    ∧ (_worker_loop settings envs w).2 = Continue.
Proof.
  revert heap w. induction envs as [|env envs IH]; intros heap w Hrun Hok Hq Hlen.
  - destruct heap; [|done]. exists []. cbn [_worker_loop fst snd map].
    rewrite app_nil_r. repeat split; try done. constructor.
  - destruct (Heapq.heappop task_lt (_queue (queue w))) as [[task heap']|] eqn:Hpop.
    2:{ apply (HeapOrder.heappop_None task_lt) in Hpop. rewrite Hq in Hpop.
        rewrite Hpop in Hlen. discriminate Hlen. }
    destruct (HeapOrder.heappop_ok task_lt task_lt_asym task_le_trans _ _ _ Hok Hpop)
      as (Hok' & Hperm & Hleast).
    destruct (worker_loop_round settings env envs w task heap' Hrun Hpop)
      as (w' & -> & Hrun' & Hq' & Hproc).
    destruct (IH heap' w' Hrun') as (ts & Hts & Hsorted & Hp & Hempty & Hst).
    + by rewrite Hq'.
    + done.
    + apply Permutation_length in Hperm. rewrite Hq in Hperm.
      simpl in Hperm, Hlen. lia.
    + exists (task :: ts). repeat split; try done.
      * by rewrite Hts, Hperm, Hq.
      * constructor; [done|]. apply Forall_forall. intros x Hx.
        apply Hleast. by rewrite <- Hts.
      * rewrite Hp, Hproc. cbn [map]. by rewrite <- app_assoc.
Qed.

(** X11. From any reachable running state, as many worker rounds
    as there are queued tasks process exactly the queued tasks, in
    ascending dataclass order (priority first), whatever the outcome of
    each round, and leave the queue empty. *)
Theorem worker_serves_in_sorted_order settings rows envs w :
  reachable settings always (init rows) w →
  is_running w = true →
  length envs = length (_queue (queue w)) →
  ∃ ts,
    ts ≡ₚ _queue (queue w)
    ∧ StronglySorted (λ a b, task_lt b a = false) ts
    ∧ processed (_worker_loop settings envs w).1
      = (processed w ++ map request_id ts)%list
    ∧ _queue (queue (_worker_loop settings envs w).1) = [].
Proof.
  intros Hreach Hrun Hlen.
  destruct (reachable_queue_ok _ _ _ _ Hreach) as [Hok _].
  destruct (worker_drains (_queue (queue w)) settings envs w Hrun Hok eq_refl Hlen)
    as (ts & H1 & H2 & H3 & H4 & _).
  by exists ts.
Qed.

(** The theorem on the sample world and two rounds of the worker. *)
Lemma worker_serves_in_sorted_order_witness :
  ∃ ts,
    ts ≡ₚ _queue (queue MoreSamples.two_tasks)
    ∧ StronglySorted (λ a b, task_lt b a = false) ts
    ∧ processed (_worker_loop Samples.app_settings [Samples.env_ok; Samples.env_ok]
                   MoreSamples.two_tasks).1
      = (processed MoreSamples.two_tasks ++ map request_id ts)%list
    ∧ _queue (queue (_worker_loop Samples.app_settings [Samples.env_ok; Samples.env_ok]
                       MoreSamples.two_tasks).1) = [].
Proof.
  apply (worker_serves_in_sorted_order Samples.app_settings []
           [Samples.env_ok; Samples.env_ok] MoreSamples.two_tasks).
  - apply two_tasks_reachable.
  - reflexivity.
  - vm_compute. reflexivity.
Defined.

End QueueOrder.

(* ===================================================================== *)
(** ** More on the worker and the life cycle of the manager *)
(* ===================================================================== *)

Module WorkerMore.
Import QueueManager Notions Invariants QueueProps.

(** *** One round and the request table *)

Lemma commit_row_ids request_id f rows :
  (∀ r, id (f r) = id r) → map id (commit_row request_id f rows) = map id rows.
Proof.
  intros Hid. induction rows as [|r rows IH]; [done|]. simpl.
  destruct (String.eqb (id r) request_id); simpl; [by rewrite Hid|by rewrite IH].
Qed.

Lemma process_with_ids env pipeline rows request_id :
  map id (process_with env pipeline rows request_id).1 = map id rows.
Proof.
  unfold process_with.
  destruct (_get_request rows request_id); [|done].
  destruct (pipeline _) as [[e []]|u]; cbn [fst]; by rewrite !commit_row_ids.
Qed.

Lemma process_with_other env pipeline rows request_id other :
  other ≠ request_id →
  _get_request (process_with env pipeline rows request_id).1 other
  = _get_request rows other.
Proof.
  intros Hne. unfold process_with.
  destruct (_get_request rows request_id); [|done].
  destruct (pipeline _) as [[e []]|u]; cbn [fst];
    by rewrite !_get_request_commit_row_ne.
Qed.

(** What the row of the request looks like after the orchestrator. *)
Lemma process_with_row env pipeline rows request_id request :
  _get_request rows request_id = Some request →
  _get_request (process_with env pipeline rows request_id).1 request_id
  = Some match pipeline request with
         | inr _ => with_status COMPLETED request
         | inl (e, Active) =>
             with_error_message (failure_text e) (with_status FAILED request)
         | inl (e, Inactive) => with_status PROCESSING request
         end.
Proof.
  intros Hreq. unfold process_with. rewrite Hreq.
  destruct (pipeline request) as [[e []]|u]; cbn [fst];
    rewrite !_get_request_commit_row by done; by rewrite Hreq.
Qed.

Lemma worker_iteration_table settings env w task q :
  is_running w = true →
  get (queue w) = Some (task, q) →
  db (worker_iteration settings env w).1
  = (process_with env (pipeline_of settings env (mode_of task)) (db w)
       (request_id task)).1.
Proof.
  intros Hrun Hget.
  rewrite (worker_iteration_unfold settings env w task q Hrun Hget).
  destruct (process_with _ _ _ _) as [rows [e|[]]]; cbn [bind fst]; [done|].
  by destruct (task_done _).
Qed.

(** X12. A task whose request row does not exist is consumed
    without any change to the table: the pipeline raises [Request not
    found], the loop logs it and sleeps the retry interval, the task is
    not put back and [task_done] is not called. *)
Theorem orphan_task_is_dropped settings env w task q :
  is_running w = true →
  get (queue w) = Some (task, q) →
  _get_request (db w) (request_id task) = None →
  worker_iteration settings env w
  = ({| is_running := true; worker_task := worker_task w; queue := q; db := db w;
        log := (log w ++ [Dispatched (mode_of task) (request_id task)])
               ++ [LoggedException
                     ("Error in worker loop: Request not found: " ++ request_id task);
                   Slept (queue_error_retry_interval settings)] |},
     Continue).
Proof.
  intros Hrun Hget Hreq.
  rewrite (worker_iteration_unfold settings env w task q Hrun Hget).
  rewrite (process_with_not_found _ _ _ _ Hreq).
  unfold add_log, set_db, set_queue. simpl. by rewrite Hrun.
Qed.

(** The theorem on a running manager whose only task names a request that
    is not in the table. *)
Lemma orphan_task_is_dropped_witness :
  (worker_iteration Samples.app_settings Samples.env_ok
     (enqueue_generation "req-9" 0 (start (init [])))).2 = Continue
  ∧ db (worker_iteration Samples.app_settings Samples.env_ok
          (enqueue_generation "req-9" 0 (start (init [])))).1 = [].
Proof.
  rewrite (orphan_task_is_dropped Samples.app_settings Samples.env_ok
             (enqueue_generation "req-9" 0 (start (init [])))
             (task_of DefaultSD "req-9" 0) {| _queue := []; _unfinished_tasks := 1 |}
             eq_refl eq_refl eq_refl).
  split; reflexivity.
Defined.

(** X13. A worker round adds, removes and reorders no row of the
    table, and changes no row other than the one of the task it takes. *)
Theorem round_touches_only_its_request settings env w :
  map id (db (worker_iteration settings env w).1) = map id (db w)
  ∧ ∀ other,
      (∀ task q, get (queue w) = Some (task, q) → request_id task ≠ other) →
      _get_request (db (worker_iteration settings env w).1) other
      = _get_request (db w) other.
Proof.
  destruct (worker_iteration_db settings env w) as [->|(task & q & Hget & ->)].
  { done. }
  split; [apply process_with_ids|].
  intros other Hother. apply process_with_other.
  intros ->. by apply (Hother task q).
Qed.

(** X14. A round that takes a task whose row exists leaves that row
    COMPLETED, with its error message as before, when the pipeline
    returns, and FAILED with the exception's text when the pipeline raises
    and leaves the session usable. When the pipeline raises and leaves the
    session inactive (a flush that raised), the handler's commit raises in
    its turn and the row is left PROCESSING, with its error message as
    before. *)
Theorem round_outcome_on_the_request_row settings env w task q request :
  is_running w = true →
  get (queue w) = Some (task, q) →
  _get_request (db w) (request_id task) = Some request →
  ∃ r,
    _get_request (db (worker_iteration settings env w).1) (request_id task) = Some r
    ∧ match pipeline_of settings env (mode_of task) request with
      | inr _ => status r = COMPLETED ∧ error_message r = error_message request
      | inl (e, Active) => status r = FAILED ∧ error_message r = Some (failure_text e)
      | inl (e, Inactive) =>
          status r = PROCESSING ∧ error_message r = error_message request
      end.
Proof.
  intros Hrun Hget Hreq.
  rewrite (worker_iteration_table settings env w task q Hrun Hget).
  rewrite (process_with_row _ _ _ _ request Hreq).
  eexists. split; [done|].
  by destruct (pipeline_of settings env (mode_of task) request) as [[e []]|u].
Qed.

(** The theorem on a recovered request whose metadata row is refused: the
    LLM names no sampler and none is configured. *)
Lemma round_outcome_on_the_request_row_witness :
  ∃ r,
    _get_request
      (db (worker_iteration Samples.app_settings Samples.env_without_sampler
             (start (init [Samples.request_1]))).1) "req-1" = Some r
    ∧ status r = PROCESSING ∧ error_message r = None.
Proof.
  destruct (round_outcome_on_the_request_row Samples.app_settings
              Samples.env_without_sampler
              (start (init [Samples.request_1])) (restored_task Samples.request_1)
              {| _queue := []; _unfinished_tasks := 1 |} Samples.request_1
              eq_refl eq_refl eq_refl) as (r & Hr & Hst).
  exists r. split; [exact Hr|].
  cbn [pipeline_of mode_of restored_task use_gemini use_xai] in Hst.
  rewrite sample_image_pipeline_refused in Hst. exact Hst.
Defined.

(** X29. A default-mode request for which the resolved sampler is [None]
    (no sampler from the LLM, the stored settings, the research or the
    configuration) is never completed and never marked FAILED: the INSERT
    of its metadata row is refused, the handler's commit raises, and the
    request is left PROCESSING with the rest of the table untouched. *)
Theorem request_without_a_sampler_is_left_processing
    settings env rows request_id request gs (prompt_result : dict) :
  _get_request rows request_id = Some request →
  load_global_settings env request = inr gs →
  PromptAgent.generate_prompt (py_str env) settings (rnd env)
    (research_best_practices env) (llm_suggest env)
    (original_instruction request) None gs (web_research request) = inr prompt_result →
  Py.get prompt_result "sampler" = VNone →
  ∃ kwargs,
    SettingsFlow.metadata_kwargs request gs prompt_result = inr kwargs
    ∧ _process_image_generation settings env rows request_id
      = (commit_row request_id (with_status PROCESSING) rows,
         raise (pending_rollback_error env (integrity_error env kwargs))).
Proof.
  intros Hreq Hload Hgen Hsampler.
  destruct (RequestProps.generated_metadata _ _ _ _ _ _ _ _ _ request _ Hgen)
    as (kwargs & Hkw & Hnull).
  exists kwargs. split; [exact Hkw|].
  unfold _process_image_generation.
  apply process_with_inactive with (request := request); [exact Hreq|].
  rewrite (RequestProps.image_pipeline_generated _ _ _ _ _ Hload Hgen).
  rewrite (RequestProps.txt2img_request_data_refused _ _ _ _ _ kwargs Hkw); [done|].
  rewrite Hnull, Hsampler. cbn [is_none]. by rewrite orb_true_r.
Qed.

(** The theorem on the sample request, with the configured defaults and
    an LLM answer that names no sampler. *)
Lemma request_without_a_sampler_is_left_processing_witness :
  (_process_image_generation Samples.app_settings Samples.env_without_sampler
     [Samples.request_1] "req-1").1
  = [with_status PROCESSING Samples.request_1].
Proof.
  destruct (sample_generated_without_sampler (original_instruction Samples.request_1)
              (web_research Samples.request_1)) as (out & Hgen & Hsampler).
  destruct (request_without_a_sampler_is_left_processing Samples.app_settings
              Samples.env_without_sampler [Samples.request_1] "req-1" Samples.request_1
              None out eq_refl eq_refl Hgen Hsampler) as (kwargs & _ & ->).
  reflexivity.
Defined.

(** X15. When the Gemini or the xAI provider answers with an
    empty list of images, the request ends FAILED with the provider's
    message; an empty answer is not counted as success. *)
Theorem empty_answer_of_a_direct_provider_fails_the_request env rows request_id request :
  _get_request rows request_id = Some request →
  (gemini_generate_images env (original_instruction request) = inr [] →
   ∃ r, _get_request (_process_gemini_generation env rows request_id).1 request_id = Some r
        ∧ status r = FAILED
        ∧ error_message r = Some "Gemini APIから画像が生成されませんでした")
  ∧ (xai_generate_images env (original_instruction request) = inr [] →
     ∃ r, _get_request (_process_xai_generation env rows request_id).1 request_id = Some r
          ∧ status r = FAILED
          ∧ error_message r = Some "xAI APIから画像が生成されませんでした").
Proof.
  intros Hreq. split; intros Hempty.
  - unfold _process_gemini_generation.
    rewrite (process_with_row _ _ _ _ request Hreq).
    unfold gemini_pipeline. rewrite Hempty. cbn [outside db_bind raise]. by eexists.
  - unfold _process_xai_generation.
    rewrite (process_with_row _ _ _ _ request Hreq).
    unfold xai_pipeline. rewrite Hempty. cbn [outside db_bind raise]. by eexists.
Qed.

(** The theorem on the sample request and a Gemini client that answers
    without an image. *)
Lemma empty_answer_of_a_direct_provider_fails_the_request_witness :
  ∃ r,
    _get_request
      (_process_gemini_generation MoreSamples.env_no_image [Samples.request_1] "req-1").1
      "req-1" = Some r
    ∧ status r = FAILED
    ∧ error_message r = Some "Gemini APIから画像が生成されませんでした".
Proof.
  exact (proj1 (empty_answer_of_a_direct_provider_fails_the_request
                  MoreSamples.env_no_image [Samples.request_1] "req-1" Samples.request_1
                  eq_refl) eq_refl).
Defined.

(** X16. Each enqueue variant adds one task, with the caller's
    priority negated, keeps every queued task, raises the count of
    unfinished tasks by one and touches neither the table nor the running
    flag. *)
Theorem enqueue_adds_exactly_one_task mode request_id priority w :
  _queue (queue (enqueue_as mode request_id priority w))
  ≡ₚ (_queue (queue w) ++ [task_of mode request_id priority])%list
  ∧ _unfinished_tasks (queue (enqueue_as mode request_id priority w))
    = (_unfinished_tasks (queue w) + 1)%Z
  ∧ db (enqueue_as mode request_id priority w) = db w
  ∧ is_running (enqueue_as mode request_id priority w) = is_running w
  ∧ log (enqueue_as mode request_id priority w) = log w
  ∧ QueueManager.priority (task_of mode request_id priority) = (- priority)%Z.
Proof.
  rewrite enqueue_as_spec.
  cbn [set_queue put queue _queue _unfinished_tasks db is_running log].
  repeat split. apply HeapProps.heappush_perm.
Qed.

(** *** Starting and stopping *)

Lemma restored_tasks_of_recovered_rows rows :
  map restored_task
    (List.filter unfinished (map (λ r, if unfinished r then with_status PENDING r else r) rows))
  = map restored_task (List.filter unfinished rows).
Proof.
  induction rows as [|r rows IH]; [done|]. simpl.
  destruct (unfinished r) eqn:Hu; simpl.
  - by rewrite IH.
  - by rewrite Hu.
Qed.

(** X17. [start] on a running manager and [stop] on a stopped one
    change nothing, so a second [start] or [stop] in a row has no effect. *)
Theorem start_and_stop_are_idempotent w :
  start (start w) = start w ∧ stop (stop w) = stop w
  ∧ (is_running w = false → stop w = w).
Proof.
  split; [|split].
  - unfold start. destruct (is_running w) eqn:Hrun; [by rewrite Hrun|done].
  - unfold stop. destruct (is_running w) eqn:Hrun; simpl; [done|by rewrite Hrun].
  - intros Hrun. unfold stop. by rewrite Hrun.
Qed.

(** X18. [stop] does not empty the queue and [start] recovers
    without looking at it: after start, stop, start every unfinished
    request is queued twice, while the table is as after the first
    [start]. *)
Theorem restart_enqueues_unfinished_requests_again w :
  is_running w = false →
  db (start (stop (start w))) = db (start w)
  ∧ _queue (queue (start (stop (start w))))
    ≡ₚ (_queue (queue w)
        ++ map restored_task (List.filter unfinished (db w))
        ++ map restored_task (List.filter unfinished (db w)))%list.
Proof.
  intros Hrun.
  destruct (start_spec w Hrun) as (Hrun1 & _ & _ & Hdb1 & Hq1 & _).
  assert (is_running (stop (start w)) = false) as Hrun2.
  { unfold stop. by rewrite Hrun1. }
  assert (db (stop (start w)) = db (start w)) as Hdb2 by apply stop_db.
  assert (queue (stop (start w)) = queue (start w)) as Hq2.
  { unfold stop. by rewrite Hrun1. }
  destruct (start_spec _ Hrun2) as (_ & _ & _ & Hdb3 & Hq3 & _).
  split.
  - rewrite Hdb3, Hdb2, Hdb1. rewrite map_map. apply map_ext. intros r.
    destruct (unfinished r) eqn:Hu; [|by rewrite Hu]. done.
  - rewrite Hq3, Hq2, Hq1, Hdb2, Hdb1, restored_tasks_of_recovered_rows.
    by rewrite <- app_assoc.
Qed.

(** The theorem on a manager over one pending request: after the restart
    the request is in the queue twice. *)
Lemma restart_enqueues_unfinished_requests_again_witness :
  _queue (queue (start (stop (start (init [Samples.request_1])))))
  ≡ₚ [restored_task Samples.request_1; restored_task Samples.request_1].
Proof.
  exact (proj2 (restart_enqueues_unfinished_requests_again (init [Samples.request_1])
                  eq_refl)).
Defined.

End WorkerMore.

(* ===================================================================== *)
(** ** The stored settings on their way into a request *)
(* ===================================================================== *)

Module SettingsFlowProps.
Import PromptAgent Notions Invariants SettingsFlow RequestProps.

(** *** A row without SD parameters *)

Lemma null_sd_params_raise py_str settings rnd result pm rr row :
  default_sd_params row = None →
  _apply_defaults py_str settings rnd result pm (Some (_extract_global_settings row)) rr
  = inl (PyException "AttributeError" "'NoneType' object has no attribute 'get'").
Proof.
  intros Hnull. unfold _apply_defaults, resolve_fields, global_into_defaults.
  rewrite extract_truthy. unfold get_or.
  rewrite extract_lookup by (by repeat constructor).
  change (SettingsFlow.getattr row "default_sd_params")
    with (of_opt_dict (default_sd_params row)).
  rewrite Hnull. reflexivity.
Qed.

Lemma generate_prompt_null_sd_params
    py_str settings rnd research llm instr pm wr row :
  default_sd_params row = None →
  ∃ e,
    generate_prompt py_str settings rnd research llm instr pm
      (Some (_extract_global_settings row)) wr = inl e
    ∧ is_LLMAPIError e = true
    ∧ ((∀ rr, ∃ result, llm instr pm (Some (_extract_global_settings row)) rr = inr result) →
       e = LLMAPIError "Failed to generate prompt").
Proof.
  intros Hnull. unfold generate_prompt.
  set (research_step := if wr && negb (is_present pm) then _ else _).
  assert (∃ rr, research_step = inr rr) as [rr ->].
  { unfold research_step. destruct (wr && negb (is_present pm)); [|by eexists].
    apply AgentProps._perform_web_research_returns. }
  cbn [bind].
  destruct (llm instr pm _ rr) as [e|result] eqn:Hllm; cbn [bind try_except].
  - destruct (is_LLMAPIError e) eqn:He.
    + exists e. repeat split; try done.
      intros Hanswers. destruct (Hanswers rr) as [result Hresult]. congruence.
    + eexists. repeat split; done.
  - rewrite null_sd_params_raise by done. cbn [bind try_except is_LLMAPIError].
    eexists. repeat split; done.
Qed.

(** X19. For a GlobalSettings row whose [default_sd_params] is
    NULL, the dict built by [_extract_global_settings] has the key with the
    value None, so [_apply_defaults] raises AttributeError on every input
    and [generate_prompt] raises [LLMAPIError], the generic one whenever
    the LLM call itself returns. *)
Theorem resolver_raises_on_a_row_without_sd_params
    py_str settings rnd research llm instr result pm rr wr row :
  default_sd_params row = None →
  _apply_defaults py_str settings rnd result pm (Some (_extract_global_settings row)) rr
  = inl (PyException "AttributeError" "'NoneType' object has no attribute 'get'")
  ∧ ∃ e,
      generate_prompt py_str settings rnd research llm instr pm
        (Some (_extract_global_settings row)) wr = inl e
      ∧ is_LLMAPIError e = true
      ∧ ((∀ rr, ∃ result, llm instr pm (Some (_extract_global_settings row)) rr = inr result) →
         e = LLMAPIError "Failed to generate prompt").
Proof.
  intros Hnull. split; [by apply null_sd_params_raise|].
  by apply generate_prompt_null_sd_params.
Qed.

(** The theorem on the row that holds only a seed and the sample LLM
    answer. *)
Lemma resolver_raises_on_a_row_without_sd_params_witness :
  _apply_defaults Samples.no_text Samples.app_settings 0 Samples.llm_answer None
    (Some (_extract_global_settings MoreSamples.row_seed_only)) None
  = inl (PyException "AttributeError" "'NoneType' object has no attribute 'get'").
Proof.
  exact (proj1 (resolver_raises_on_a_row_without_sd_params Samples.no_text
                  Samples.app_settings 0 (λ _, ret None) Samples.llm_fixed ""
                  Samples.llm_answer None None false MoreSamples.row_seed_only eq_refl)).
Defined.

(** X20. A default-mode request whose selected GlobalSettings
    row has a NULL [default_sd_params] always ends FAILED; the message is
    [Failed to generate prompt] when the LLM call returns. *)
Theorem request_fails_on_a_row_without_sd_params settings env rows request_id request row :
  QueueManager._get_request rows request_id = Some request →
  QueueManager.load_global_settings env request
  = inr (Some (_extract_global_settings row)) →
  default_sd_params row = None →
  ∃ r message,
    QueueManager._get_request
      (QueueManager._process_image_generation settings env rows request_id).1 request_id
    = Some r
    ∧ status r = FAILED ∧ error_message r = Some message
    ∧ ((∀ rr, ∃ result,
          QueueManager.llm_suggest env (original_instruction request) None
            (Some (_extract_global_settings row)) rr = inr result) →
       message = "Failed to generate prompt").
Proof.
  intros Hreq Hload Hnull. unfold QueueManager._process_image_generation.
  rewrite (WorkerMore.process_with_row _ _ _ _ request Hreq).
  unfold QueueManager.image_pipeline. rewrite Hload. cbn [db_bind].
  destruct (generate_prompt_null_sd_params (QueueManager.py_str env) settings
              (QueueManager.rnd env) (QueueManager.research_best_practices env)
              (QueueManager.llm_suggest env) (original_instruction request) None
              (web_research request) row Hnull) as (e & -> & He & Hmsg).
  cbn [outside db_bind]. eexists _, _. repeat split.
  intros Hanswers. by rewrite (Hmsg Hanswers).
Qed.

(** The theorem on the sample request of a user whose row holds only a
    seed: the request fails although every collaborator answers. *)
Lemma request_fails_on_a_row_without_sd_params_witness :
  ∃ r,
    QueueManager._get_request
      (QueueManager._process_image_generation Samples.app_settings
         MoreSamples.env_seed_only [Samples.request_1] "req-1").1 "req-1" = Some r
    ∧ status r = FAILED ∧ error_message r = Some "Failed to generate prompt".
Proof.
  destruct (request_fails_on_a_row_without_sd_params Samples.app_settings
              MoreSamples.env_seed_only [Samples.request_1] "req-1" Samples.request_1
              MoreSamples.row_seed_only eq_refl eq_refl eq_refl)
    as (r & message & Hr & Hst & Hmsg & Hfixed).
  exists r. split; [exact Hr|]. split; [exact Hst|].
  rewrite Hmsg. f_equal. apply Hfixed. intros rr. by eexists.
Defined.

(** *** A row with SD parameters *)

Lemma extract_settings_typed row :
  is_Some (default_sd_params row) → settings_typed (Some (_extract_global_settings row)).
Proof.
  intros [sd Hsd]. unfold settings_typed.
  rewrite extract_lookup by (by repeat constructor).
  change (SettingsFlow.getattr row "default_sd_params")
    with (of_opt_dict (default_sd_params row)).
  rewrite Hsd. split; [exact I|].
  unfold configured_suffix. rewrite extract_truthy.
  rewrite extract_get by (by repeat constructor).
  change (SettingsFlow.getattr row "default_prompt_suffix")
    with (of_opt_str (default_prompt_suffix row)).
  destruct (default_prompt_suffix row) as [s|]; cbn [of_opt_str truthy andb]; [|done].
  by destruct (negb (String.eqb s "")).
Qed.

Lemma extract_explicit_seed row :
  explicit_seed (Some (_extract_global_settings row)) = VInt <$> seed row.
Proof.
  unfold explicit_seed. rewrite extract_truthy.
  rewrite extract_get by (by repeat constructor).
  change (SettingsFlow.getattr row "seed") with (of_opt_int (seed row)).
  by destruct (seed row).
Qed.

(** X21. For a GlobalSettings row whose [default_sd_params] is
    not NULL the dict of [_extract_global_settings] is well typed, so the
    resolver returns on every typed LLM answer, and a seed set in the row
    is the resolved seed. *)
Theorem resolver_returns_on_a_row_with_sd_params
    py_str settings rnd result pm rr row :
  is_Some (default_sd_params row) →
  prompt_typed result pm → (pm = None → research_typed rr) →
  ∃ out,
    _apply_defaults py_str settings rnd result pm (Some (_extract_global_settings row)) rr
    = inr out
    ∧ ∀ z, seed row = Some z → out !! "seed" = Some (VInt z).
Proof.
  intros Hsd Hp Hrr.
  destruct (ResolverProps.resolve_fields_returns py_str settings result pm
              (Some (_extract_global_settings row)) rr
              (extract_settings_typed row Hsd) Hrr Hp) as [r Hr].
  unfold _apply_defaults. rewrite Hr. cbn [bind ret].
  eexists. split; [done|].
  intros z Hz. rewrite ResolverMore.apply_seed_seed, extract_explicit_seed, Hz. done.
Qed.

(** The theorem on the row with an empty dict of SD parameters and the
    seed 7. *)
Lemma resolver_returns_on_a_row_with_sd_params_witness :
  ∃ out,
    _apply_defaults Samples.no_text Samples.app_settings 0 Samples.llm_answer None
      (Some (_extract_global_settings MoreSamples.row_with_seed)) None = inr out
    ∧ out !! "seed" = Some (VInt 7).
Proof.
  destruct (resolver_returns_on_a_row_with_sd_params Samples.no_text Samples.app_settings
              0 Samples.llm_answer None None MoreSamples.row_with_seed)
    as (out & Hout & Hseed).
  - by eexists.
  - unfold prompt_typed. rewrite ResolverProps.sample_llm_prompt. exact I.
  - intros _. exact I.
  - exists out. split; [exact Hout|]. by apply Hseed.
Defined.

(** *** The request to the image server *)

(** X22. The request body sent to the Stable Diffusion API has
    no scheduler (the resolved scheduler is not passed on) and no key
    outside the eight base parameters, [sampler_name] and the hires and
    refiner settings. *)
Theorem sd_request_never_carries_a_scheduler settings env request gs prompt_result :
  match QueueManager.txt2img_request_data settings env request gs prompt_result with
  | inl _ => True
  | inr data =>
      data !! "scheduler" = None
      ∧ ∀ key,
          is_Some (data !! key) →
          key ∈ ["prompt"; "negative_prompt"; "steps"; "cfg_scale"; "seed"; "width";
                 "height"; "batch_size"; "sampler_name"; "hr_upscaler";
                 "hr_second_pass_steps"; "denoising_strength"; "hr_scale"; "enable_hr";
                 "refiner_checkpoint"; "refiner_switch_at"]
  end.
Proof.
  destruct (QueueManager.txt2img_request_data settings env request gs prompt_result)
    as [failure|data] eqn:Hdata; [done|].
  apply txt2img_request_data_inr in Hdata
    as (stored & metadata & self & _ & _ & _ & _ & Hinit & ->).
  remember (sd_params_kwargs settings gs metadata) as kwargs eqn:Ekw.
  assert (kwargs !! "sampler_name" = None) as Hname.
  { rewrite Ekw. apply sd_params_kwargs_other. rewrite !not_elem_of_cons.
    repeat split; try discriminate. apply not_elem_of_nil. }
  assert (kwargs !! "scheduler" = None) as Hsched.
  { rewrite Ekw. apply sd_params_kwargs_other. rewrite !not_elem_of_cons.
    repeat split; try discriminate. apply not_elem_of_nil. }
  destruct (to_dict_sampler_and_scheduler kwargs self Hinit Hname) as [_ Hs].
  assert (SDClient.to_dict self !! "scheduler" = None) as Hnone.
  { rewrite Hs. unfold get_or. by rewrite Hsched. }
  split; [exact Hnone|].
  intros key [v Hv].
  match goal with |- key ∈ ?l => destruct (decide (key ∈ l)) as [Hin|Hnin] end; [done|].
  exfalso.
  destruct (decide (key = "scheduler")) as [->|Hne]; [congruence|].
  revert Hnin. rewrite !not_elem_of_cons.
  intros (H1 & H2 & H3 & H4 & H5 & H6 & H7 & H8 & H9 & H10 & H11 & H12 & H13 & H14
          & H15 & H16 & _).
  rewrite (to_dict_other kwargs self key Hinit) in Hv.
  2:{ rewrite !not_elem_of_cons. repeat split; try done. apply not_elem_of_nil. }
  case_bool_decide as Hnamed; [done|].
  rewrite Ekw, sd_params_kwargs_other in Hv; [done|].
  rewrite !not_elem_of_cons. repeat split; try done; [|apply not_elem_of_nil].
  intros ->. apply Hnamed. unfold SDClient.named_parameters. by repeat constructor.
Qed.

(** X23. The request body is built from the metadata row as the
    database gives it back after the commit, not from the resolved
    parameters themselves: it carries the row's prompt, negative prompt,
    steps, cfg_scale, seed, width and height, [sampler_name] only when the
    row's sampler is not empty, and the batch size of the settings. It is
    built only when the row could be stored, so with no [None] in a NOT
    NULL column. *)
Theorem sd_request_follows_the_stored_metadata settings env request gs prompt_result :
  match QueueManager.txt2img_request_data settings env request gs prompt_result with
  | inl _ => True
  | inr data =>
      ∃ kwargs metadata,
        metadata_kwargs request gs prompt_result = inr kwargs
        ∧ existsb (λ column, is_none (Py.get kwargs column)) NOT_NULL_COLUMNS = false
        ∧ QueueManager.store_metadata env kwargs = inr metadata
        ∧ (∀ key, key ∈ ["prompt"; "negative_prompt"; "steps"; "cfg_scale"; "seed";
                         "width"; "height"] →
                  data !! key = Some (Py.get metadata key))
        ∧ data !! "sampler_name"
          = (if truthy (Py.get metadata "sampler")
             then Some (Py.get metadata "sampler") else None)
        ∧ data !! "batch_size" = Some (batch_size_of settings gs)
  end.
Proof.
  destruct (QueueManager.txt2img_request_data settings env request gs prompt_result)
    as [failure|data] eqn:Hdata; [done|].
  apply txt2img_request_data_inr in Hdata
    as (stored & metadata & self & Hkw & Hnull & Hstore & _ & Hinit & ->).
  exists stored, metadata. split; [exact Hkw|]. split; [exact Hnull|].
  split; [exact Hstore|].
  remember (sd_params_kwargs settings gs metadata) as kwargs eqn:Ekw.
  assert (∀ key dflt,
            key ∈ ["prompt"; "negative_prompt"; "steps"; "cfg_scale"; "sampler"; "seed";
                   "width"; "height"] →
            get_or kwargs key dflt = Py.get metadata key) as Hget.
  { intros key dflt Hkey. unfold get_or. rewrite Ekw.
    by rewrite sd_params_kwargs_base. }
  split; [|split].
  - intros key Hkey.
    revert Hkey. rewrite !elem_of_cons, elem_of_nil.
    intros [->|[->|[->|[->|[->|[->|[->|[]]]]]]]];
      erewrite (to_dict_base kwargs self _ _ Hinit) by (by repeat constructor);
      by rewrite Hget by (by repeat constructor).
  - assert (kwargs !! "sampler_name" = None) as Hname.
    { rewrite Ekw. apply sd_params_kwargs_other. rewrite !not_elem_of_cons.
      repeat split; try discriminate. apply not_elem_of_nil. }
    destruct (to_dict_sampler_and_scheduler kwargs self Hinit Hname) as [-> _].
    by rewrite Hget by (by repeat constructor).
  - erewrite (to_dict_base kwargs self "batch_size" _ Hinit) by (by repeat constructor).
    unfold get_or. rewrite Ekw. by rewrite sd_params_kwargs_batch_size.
Qed.

(** X24. With a GlobalSettings row, [enable_hr] is sent, as
    true, exactly when the row sets [upscale_by]; [hr_scale] and
    [hr_second_pass_steps] are the row's values, [hr_upscaler] is sent only
    when not empty, and the batch size is the row's or else the
    application default. *)
Theorem hires_fix_is_switched_on_by_upscale_by settings env request row prompt_result :
  match QueueManager.txt2img_request_data settings env request
          (Some (_extract_global_settings row)) prompt_result with
  | inl _ => True
  | inr data =>
      data !! "enable_hr"
      = match upscale_by row with Some _ => Some (VBool true) | None => None end
      ∧ data !! "hr_scale" = VFloat <$> upscale_by row
      ∧ data !! "hr_second_pass_steps" = VInt <$> hires_steps row
      ∧ data !! "hr_upscaler"
        = match hires_upscaler row with
          | Some s => if String.eqb s "" then None else Some (VStr s)
          | None => None
          end
      ∧ data !! "batch_size"
        = Some (VInt (default (default_image_count settings) (batch_size row)))
  end.
Proof.
  destruct (QueueManager.txt2img_request_data settings env request _ prompt_result)
    as [failure|data] eqn:Hdata; [done|].
  apply txt2img_request_data_inr in Hdata
    as (stored & metadata & self & _ & _ & _ & _ & Hinit & ->).
  remember (sd_params_kwargs settings (Some (_extract_global_settings row)) metadata)
    as kwargs eqn:Ekw.
  assert (∀ key,
            key ∈ ["enable_hr"; "hr_scale"; "hr_second_pass_steps"; "hr_upscaler"] →
            SDClient.to_dict self !! key = kwargs !! key) as Hextra.
  { intros key Hkey.
    assert (key = "enable_hr" ∨ key = "hr_scale" ∨ key = "hr_second_pass_steps"
            ∨ key = "hr_upscaler") as Hcases.
    { revert Hkey. rewrite !elem_of_cons, elem_of_nil. tauto. }
    rewrite (to_dict_other kwargs self key Hinit).
    - rewrite bool_decide_eq_false_2; [done|].
      unfold SDClient.named_parameters.
      destruct Hcases as [->|[->|[->| ->]]]; not_in_keys.
    - destruct Hcases as [->|[->|[->| ->]]]; not_in_keys. }
  rewrite (Hextra "enable_hr") by (by repeat constructor).
  rewrite (Hextra "hr_scale") by (by repeat constructor).
  rewrite (Hextra "hr_second_pass_steps") by (by repeat constructor).
  rewrite (Hextra "hr_upscaler") by (by repeat constructor).
  rewrite (to_dict_base kwargs self "batch_size" (VInt 1) Hinit) by (by repeat constructor).
  unfold get_or. rewrite Ekw.
  rewrite sd_params_kwargs_batch_size, batch_size_of_row. cbn [default].
  unfold sd_params_kwargs.
  match goal with
  | |- context [_apply_global_settings_to_sd_params _ ?kw] =>
      destruct (sd_params_hires row kw) as (H1 & H2 & H3 & H4);
      try (repeat (rewrite lookup_insert_ne by discriminate); apply lookup_empty)
  end.
  rewrite H1, H2, H3, H4. repeat split.
Qed.

(** X25. The [raw_params] stored with the metadata are the
    resolved parameters, changed at most on the eight extra settings
    keys and not at all without global settings. *)
Theorem raw_params_keep_the_resolved_parameters request gs prompt_result :
  match metadata_kwargs request gs prompt_result with
  | inl _ => True
  | inr metadata =>
      ∃ raw_params,
        metadata !! "raw_params" = Some (VDict raw_params)
        ∧ (∀ key, key ∉ _EXTRA_SETTINGS_PARAMS → raw_params !! key = prompt_result !! key)
        ∧ (gs = None → raw_params = prompt_result)
  end.
Proof.
  destruct (metadata_kwargs request gs prompt_result) as [e|metadata] eqn:Hmd; [done|].
  revert Hmd. unfold metadata_kwargs, subscript.
  destruct (prompt_result !! "prompt"); cbn [bind]; [|done].
  destruct (prompt_result !! "steps"); cbn [bind]; [|done].
  destruct (prompt_result !! "cfg_scale"); cbn [bind]; [|done].
  destruct (prompt_result !! "sampler"); cbn [bind]; [|done].
  destruct (prompt_result !! "seed"); cbn [bind]; [|done].
  destruct (prompt_result !! "width"); cbn [bind]; [|done].
  destruct (prompt_result !! "height"); cbn [bind]; [|done].
  intros [= <-]. eexists. split; [apply lookup_insert_eq|]. split.
  - intros key Hkey. unfold _apply_global_settings_to_dict.
    destruct gs as [g|]; [|done]. destruct (negb (truthy_opt (Some g))); [done|].
    revert Hkey. generalize _EXTRA_SETTINGS_PARAMS. intros keys. revert prompt_result.
    induction keys as [|a keys IH]; intros target Hkey; [done|].
    apply not_elem_of_cons in Hkey as [Hne Hkey]. cbn [foldl].
    rewrite IH by done.
    destruct (negb (is_none (Py.get g a))); [|done]. by rewrite lookup_insert_ne.
  - by intros ->.
Qed.

End SettingsFlowProps.

(* ===================================================================== *)
(** ** The retry loop of the web search *)
(* ===================================================================== *)

Module WebResearchProps.
Import WebResearch.

Lemma backoff_times :
  backoff_time 0 = S754_finite false 4503599627370496 (-51)
  ∧ backoff_time 1 = S754_finite false 4503599627370496 (-50).
Proof. split; vm_compute; reflexivity. Qed.

(** X26. [_search_google] sends at most three requests: it
    repeats a request only after a 429 answer or an HTTP error, sleeps 2
    and then 4 seconds before the repeats, and its outcome is the one of
    the last request sent (results, or the error of that request). *)
Theorem search_retries_at_most_twice passes :
  ∃ n,
    n < MAX_RETRIES
    ∧ (∀ k, k < n → retryable (passes k) = true)
    ∧ (n < MAX_RETRIES - 1 → retryable (passes n) = false)
    ∧ _search_google passes
      = ((flat_map (λ k, [Request k; Sleep (backoff_time k)]) (seq 0 n) ++ [Request n])%list,
         last_word (passes n))
    ∧ backoff_time 0 = S754_finite false 4503599627370496 (-51)
    ∧ backoff_time 1 = S754_finite false 4503599627370496 (-50).
Proof.
  cut (∃ n,
         n < MAX_RETRIES
         ∧ (∀ k, k < n → retryable (passes k) = true)
         ∧ (n < MAX_RETRIES - 1 → retryable (passes n) = false)
         ∧ _search_google passes
           = ((flat_map (λ k, [Request k; Sleep (backoff_time k)]) (seq 0 n)
               ++ [Request n])%list,
              last_word (passes n))).
  { intros (n & H1 & H2 & H3 & H4). exists n. destruct backoff_times. by repeat split. }
  unfold _search_google, MAX_RETRIES.
  destruct (passes 0) as [|text0|e0|results0] eqn:H0.
  3:{ exists 0. repeat split; try lia; cbn; by rewrite H0. }
  3:{ exists 0. repeat split; try lia; cbn; by rewrite H0. }
  all: destruct (passes 1) as [|text1|e1|results1] eqn:H1.
  3, 4, 7, 8:
    exists 1; repeat split; try lia;
    [intros k Hk; replace k with 0 by lia; by rewrite H0
    |intros _; by rewrite H1
    |cbn; by rewrite H0, H1].
  all: exists 2; repeat split; try lia;
    [intros k Hk; destruct k as [|[|k]]; [by rewrite H0|by rewrite H1|lia]
    |cbn; rewrite H0, H1; by destruct (passes 2)].
Qed.

(** X27. The [raise] that follows the retry loop of
    [_search_google] is never reached: every pass of the loop returns,
    raises or continues, and the last pass cannot continue. *)
Theorem statement_after_the_retry_loop_is_never_reached passes after_loop after_loop' :
  retry_loop passes after_loop MAX_RETRIES 0 = retry_loop passes after_loop' MAX_RETRIES 0.
Proof.
  unfold MAX_RETRIES. cbn.
  destruct (passes 0); try reflexivity;
    destruct (passes 1); try reflexivity;
    destruct (passes 2); reflexivity.
Qed.

End WebResearchProps.
